(** * pesto: the disk-diagnostics command server and the offline labelling tool

    A shallow embedding of [pesto_server.py] and [pestello.py].

    Python values are embedded as follows.
    - [str] is a list of Unicode code points ([pystr]); [bytes] is a list of
      [Byte.byte].
    - a [dict] is an association list in insertion order ([dict_set] updates
      in place or appends, as CPython does), a [list] is a [list].
    - an exception is a value of [exn]; code that can raise returns a
      [result].
    - code that reads or writes shared state (the registries, the objects
      handed to the reactor, the collaborators that were called) runs in the
      state-and-exception monad [M], whose state survives a raise. *)

From Stdlib Require Import Ascii String.
From Stdlib.Strings Require Import Byte.
From Stdlib Require Import List NArith ZArith Bool Lia.
Import ListNotations.

Set Implicit Arguments.
Set Warnings "-register-all".

(* ------------------------------------------------------------------ *)
(** ** Strings *)

Definition pystr := list N.
Definition bytes := list byte.

(** An ASCII literal as a Python [str]. *)
Definition u (s : string) : pystr :=
  map N_of_ascii (list_ascii_of_string s).
Arguments u s%_string.

Fixpoint str_eqb (a b : pystr) : bool :=
  match a, b with
  | [], [] => true
  | x :: a', y :: b' => N.eqb x y && str_eqb a' b'
  | _, _ => false
  end.

(** [s.startswith(p)] *)
Fixpoint startswith (p s : pystr) : bool :=
  match p, s with
  | [], _ => true
  | x :: p', y :: s' => N.eqb x y && startswith p' s'
  | _ :: _, [] => false
  end.

(** [p in s] on strings: substring test. *)
Fixpoint str_contains (p s : pystr) : bool :=
  startswith p s ||
  match s with
  | [] => false
  | _ :: s' => str_contains p s'
  end.

(** [Py_UNICODE_ISSPACE]: the code points [str.strip] removes. *)
Definition is_space (c : N) : bool :=
  ((9 <=? c) && (c <=? 13) || (28 <=? c) && (c <=? 32)
   || (c =? 133) || (c =? 160) || (c =? 5760)
   || (8192 <=? c) && (c <=? 8202)
   || (c =? 8232) || (c =? 8233) || (c =? 8239) || (c =? 8287)
   || (c =? 12288))%N.

Fixpoint lstrip (s : pystr) : pystr :=
  match s with
  | c :: s' => if is_space c then lstrip s' else s
  | [] => []
  end.

Definition rstrip (s : pystr) : pystr := rev (lstrip (rev s)).
Definition strip (s : pystr) : pystr := rstrip (lstrip s).

(** [s.split(sep, 1)] for a separator of one code point: at most two parts. *)
Fixpoint split1 (sep : N) (s : pystr) : pystr * option pystr :=
  match s with
  | [] => ([], None)
  | c :: s' =>
      if N.eqb c sep then ([], Some s')
      else let '(h, t) := split1 sep s' in (c :: h, t)
  end.

(** [s.split(sep)] for a separator of one code point: every part, at least
    one. *)
Fixpoint split_char (sep : N) (s : pystr) : list pystr :=
  match s with
  | [] => [[]]
  | c :: s' =>
      if N.eqb c sep then [] :: split_char sep s'
      else match split_char sep s' with
           | h :: t => (c :: h) :: t
           | [] => [[c]]
           end
  end.

(** [s.split(sep, 1)] for a non-empty separator of any length. *)
Fixpoint split_once (sep s : pystr) : pystr * option pystr :=
  match s with
  | [] => ([], None)
  | c :: s' =>
      if startswith sep s then ([], Some (skipn (length sep) s))
      else let '(h, t) := split_once sep s' in (c :: h, t)
  end.

(** Line boundaries of [str.splitlines]. *)
Definition is_linebreak (c : N) : bool :=
  ((10 <=? c) && (c <=? 13) || (28 <=? c) && (c <=? 30)
   || (c =? 133) || (c =? 8232) || (c =? 8233))%N.

(** [s.splitlines()]: the boundary is dropped, CR LF counts once, and no
    empty line follows a final boundary. *)
Fixpoint splitlines_go (s cur : pystr) : list pystr :=
  match s with
  | [] => match cur with [] => [] | _ => [rev cur] end
  | c :: s' =>
      if is_linebreak c then
        match s' with
        | d :: s'' =>
            if (N.eqb c 13 && N.eqb d 10)%bool
            then rev cur :: splitlines_go s'' []
            else rev cur :: splitlines_go s' []
        | [] => [rev cur]
        end
      else splitlines_go s' (c :: cur)
  end.

Definition splitlines (s : pystr) : list pystr := splitlines_go s [].

(** [sep.join(l)] *)
Fixpoint join (sep : pystr) (l : list pystr) : pystr :=
  match l with
  | [] => []
  | [x] => x
  | x :: l' => x ++ sep ++ join sep l'
  end.

(* ------------------------------------------------------------------ *)
(** ** UTF-8, as [bytes.decode('utf-8')] and [str.encode('utf-8')] do it *)

Module Utf8.

Definition cont (b : N) : bool := ((128 <=? b) && (b <=? 191))%N.

Definition in_range (lo hi b : N) : bool := ((lo <=? b) && (b <=? hi))%N.

(** Strict decoding: overlong forms, surrogates and code points above
    U+10FFFF are refused, and so is a truncated sequence. *)
Fixpoint decode_N (l : list N) : option pystr :=
  match l with
  | [] => Some []
  | b1 :: r1 =>
      if (b1 <? 128)%N then option_map (cons b1) (decode_N r1)
      else match r1 with
      | [] => None
      | b2 :: r2 =>
          if in_range 194 223 b1 then
            if cont b2
            then option_map (cons ((b1 - 192) * 64 + (b2 - 128))%N) (decode_N r2)
            else None
          else match r2 with
          | [] => None
          | b3 :: r3 =>
              if in_range 224 239 b1 then
                if (if (b1 =? 224)%N then in_range 160 191 b2
                    else if (b1 =? 237)%N then in_range 128 159 b2
                    else cont b2) && cont b3
                then option_map
                       (cons ((b1 - 224) * 4096 + (b2 - 128) * 64 + (b3 - 128))%N)
                       (decode_N r3)
                else None
              else match r3 with
              | [] => None
              | b4 :: r4 =>
                  if in_range 240 244 b1 then
                    if (if (b1 =? 240)%N then in_range 144 191 b2
                        else if (b1 =? 244)%N then in_range 128 143 b2
                        else cont b2) && cont b3 && cont b4
                    then option_map
                           (cons ((b1 - 240) * 262144 + (b2 - 128) * 4096
                                  + (b3 - 128) * 64 + (b4 - 128))%N)
                           (decode_N r4)
                    else None
                  else None
              end
          end
      end
  end.

Definition decode (l : bytes) : option pystr := decode_N (map Byte.to_N l).

Definition byte_of (n : N) : byte :=
  match Byte.of_N n with Some b => b | None => x00 end.

Definition encode_char (c : N) : option (list N) :=
  if (c <? 128)%N then Some [c]
  else if (c <? 2048)%N then Some [192 + c / 64; 128 + c mod 64]%N
  else if in_range 55296 57343 c then None
  else if (c <? 65536)%N
    then Some [224 + c / 4096; 128 + (c / 64) mod 64; 128 + c mod 64]%N
  else if (c <? 1114112)%N
    then Some [240 + c / 262144; 128 + (c / 4096) mod 64;
               128 + (c / 64) mod 64; 128 + c mod 64]%N
  else None.

(** [None] is [UnicodeEncodeError] (a lone surrogate). *)
Fixpoint encode (s : pystr) : option bytes :=
  match s with
  | [] => Some []
  | c :: s' =>
      match encode_char c, encode s' with
      | Some bs, Some r => Some (map byte_of bs ++ r)
      | _, _ => None
      end
  end.

End Utf8.

(* ------------------------------------------------------------------ *)
(** ** Values, exceptions, dictionaries *)

(** The Python values the server handles: what [json.loads] produces (floats
    apart: neither collaborator emits one) and, for the one payload that
    carries it, an instance of a class of the program. *)
Inductive pyval : Type :=
| PNone
| PBool (b : bool)
| PInt (z : Z)
| PStr (s : pystr)
| PList (l : list pyval)
| PDict (d : list (pystr * pyval))
| PObject (class_name : pystr).

Definition dict := list (pystr * pyval).

Inductive exn : Type :=
| TypeError
| KeyError
| AttributeError
| IndexError
| ValueError
| OverflowError
| OSError
| EOFError
| KeyboardInterrupt
| UnicodeDecodeError
| UnicodeEncodeError
| JSONDecodeError
| RuntimeError (message : pystr)
| ErrorThatCanBeManuallyFixed (message : pystr)
| CollaboratorError (what : pystr).

Inductive result (A : Type) : Type :=
| Ok (a : A)
| Raise (e : exn).
Arguments Ok {A} a.
Arguments Raise {A} e.

Section Dict.
Variable V : Type.

(** [k in d] and [d.get(k)] *)
Fixpoint dict_get (k : pystr) (d : list (pystr * V)) : option V :=
  match d with
  | [] => None
  | (k', v) :: d' => if str_eqb k' k then Some v else dict_get k d'
  end.

Definition dict_mem (k : pystr) (d : list (pystr * V)) : bool :=
  match dict_get k d with Some _ => true | None => false end.

(** [d[k] = v]: an existing key keeps its place, a new one goes last. *)
Fixpoint dict_set (k : pystr) (v : V) (d : list (pystr * V))
  : list (pystr * V) :=
  match d with
  | [] => [(k, v)]
  | (k', v') :: d' =>
      if str_eqb k' k then (k', v) :: d' else (k', v') :: dict_set k v d'
  end.

(** [del d[k]], for a key that is there. *)
Fixpoint dict_del (k : pystr) (d : list (pystr * V)) : list (pystr * V) :=
  match d with
  | [] => []
  | (k', v') :: d' =>
      if str_eqb k' k then d' else (k', v') :: dict_del k d'
  end.

Definition dict_keys (d : list (pystr * V)) : list pystr := map fst d.
End Dict.

(** Truth value of an optional string: [None] and [''] are false. *)
Definition truthy (c : option pystr) : bool :=
  match c with
  | Some (_ :: _) => true
  | _ => false
  end.

(** What [json.dumps] accepts: it raises [TypeError] on an object it has no
    encoder for. The text it produces is not modelled; an encoded payload is
    kept as the value it encodes. *)
Fixpoint json_serializable (v : pyval) : bool :=
  match v with
  | PObject _ => false
  | PList l =>
      (fix all (l : list pyval) : bool :=
         match l with
         | [] => true
         | x :: l' => json_serializable x && all l'
         end) l
  | PDict d =>
      (fix all (d : list (pystr * pyval)) : bool :=
         match d with
         | [] => true
         | (_, x) :: d' => json_serializable x && all d'
         end) d
  | _ => true
  end.

(** The builtins whose Unicode tables are not part of the program. *)
Record Builtins : Type := {
  str_lower : pystr -> pystr;          (* [str.lower] *)
  py_str : pyval -> pystr;             (* [str(v)] *)
  py_int : pystr -> option Z;          (* [int(s)], [None] is [ValueError] *)
  str_isnumeric : pystr -> bool;       (* [str.isnumeric] *)
  (** [n / d] on integers raises [OverflowError]: the quotient is too
      large for a float. *)
  truediv_overflows : Z -> Z -> bool
}.

(** Decimal digits of [str(z)]. *)
Fixpoint digits_of (fuel : nat) (n : N) (acc : pystr) : pystr :=
  match fuel with
  | O => acc
  | S fuel' =>
      let acc := (48 + n mod 10)%N :: acc in
      if (n <? 10)%N then acc else digits_of fuel' (n / 10)%N acc
  end.

Definition str_of_int (z : Z) : pystr :=
  let n := Z.abs_N z in
  (if (z <? 0)%Z then u "-" else []) ++ digits_of (S (N.to_nat (N.log2 n))) n [].

Definition is_ascii_digit (c : N) : bool := ((48 <=? c) && (c <=? 57))%N.

(** The digits of an [int] literal after its sign: decimal digits, with
    single underscores between them. *)
Fixpoint digits_value (s : pystr) (acc : Z) (after_digit : bool)
  : option Z :=
  match s with
  | [] => if after_digit then Some acc else None
  | c :: s' =>
      if is_ascii_digit c
      then digits_value s' (acc * 10 + Z.of_N (c - 48))%Z true
      else if (c =? 95)%N && after_digit
      then match s' with
           | d :: _ => if is_ascii_digit d then digits_value s' acc false
                       else None
           | [] => None
           end
      else None
  end.

(** [int(s)] on ASCII text: white space around the literal is dropped, a
    sign may come first, and (CPython 3.11 and later) a literal of more
    than 4300 digits is refused. *)
Definition ascii_int (s : pystr) : option Z :=
  let s := strip s in
  if (4300 <? length (filter is_ascii_digit s))%nat then None
  else match s with
       | 45%N :: ds => option_map Z.opp (digits_value ds 0 false)
       | 43%N :: ds => digits_value ds 0 false
       | _ => digits_value s 0 false
       end.

(** The builtins restricted to ASCII text and to scalar values, where they
    need no table: what the worked examples below run with. On other text
    [ascii_builtins] leaves letters as they are and reads no number. *)
Definition ascii_builtins : Builtins := {|
  str_lower := map (fun c => if ((65 <=? c) && (c <=? 90))%N
                             then (c + 32)%N else c);
  py_str := fun v =>
    match v with
    | PStr s => s
    | PNone => u "None"
    | PBool true => u "True"
    | PBool false => u "False"
    | PInt z => str_of_int z
    | PList _ => u "[...]"
    | PDict _ => u "{...}"
    | PObject c => u "<" ++ c ++ u " object>"
    end;
  py_int := ascii_int;
  str_isnumeric := fun s =>
    match s with
    | [] => false
    | _ => forallb is_ascii_digit s
    end;
  (* the quotient, rounded to the nearest float, is beyond the largest *)
  truediv_overflows := fun n d =>
    (Z.abs d * (2 ^ 1024 - 2 ^ 970) <=? Z.abs n)%Z
|}.

(* ------------------------------------------------------------------ *)
(** ** The protocol object of one connection *)

Module TurboProtocol.

Record t : Type := {
  _id : Z;
  delimiter : bytes;
  _delimiter_found : bool
}.

Definition LF : bytes := [x0a].
Definition CRLF : bytes := [x0d; x0a].

(** [__init__] then [connectionMade] with the factory's counter. *)
Definition connectionMade (conn_id : Z) : t :=
  {| _id := conn_id; delimiter := LF; _delimiter_found := false |}.

(** What [lineReceived] asks of the rest of the server. *)
Inductive action : Type :=
| Dropped                                  (* undecodable line: logged *)
| LoseConnection                           (* [exit] *)
| Start (cmd args : pystr) (the_id : Z).   (* a [CommandRunner] is started *)

Definition ends_with_cr (line : pystr) : bool :=
  match rev line with
  | c :: _ => N.eqb c 13
  | [] => false
  end.

Definition lineReceived (py : Builtins) (self : t) (line : bytes)
  : t * action :=
  match Utf8.decode line with
  | None => (self, Dropped)
  | Some line =>
      let self :=
        if negb (_delimiter_found self) then
          {| _id := _id self;
             delimiter := if ends_with_cr line then CRLF else delimiter self;
             _delimiter_found := true |}
        else self in
      let line := strip line in
      if startswith (u "exit") line then (self, LoseConnection)
      else
        let '(cmd, rest) := split1 32 line in
        let args := match rest with Some a => a | None => [] end in
        (self, Start (str_lower py cmd) args (_id self))
  end.

(** [send_msg]: what is written to the transport, if anything.
    [sendLine] writes the line followed by [self.delimiter]. *)
Definition send_msg (self : t) (response : pystr) : result (option bytes) :=
  if _delimiter_found self then
    match Utf8.encode response with
    | Some b => Ok (Some (b ++ delimiter self))
    | None => Raise UnicodeEncodeError
    end
  else Ok None.

(** What happens to a connection, in order. *)
Inductive event : Type :=
| LineReceived (line : bytes)
| SendMsg (response : pystr).

(** The connection's life: the protocol object after the events and the
    writes made to the transport, oldest first. *)
Fixpoint run (py : Builtins) (self : t) (evs : list event)
  : t * list bytes :=
  match evs with
  | [] => (self, [])
  | LineReceived line :: evs' =>
      run py (fst (lineReceived py self line)) evs'
  | SendMsg response :: evs' =>
      let '(self', out) := run py self evs' in
      match send_msg self response with
      | Ok (Some b) => (self', b :: out)
      | _ => (self', out)
      end
  end.

(** The last byte of a received line is a carriage return. *)
Definition last_byte_is_cr (line : bytes) : bool :=
  ends_with_cr (map Byte.to_N line).

(** The first line received on the connection. *)
Fixpoint first_line (evs : list event) : option bytes :=
  match evs with
  | [] => None
  | LineReceived line :: _ => Some line
  | SendMsg _ :: evs' => first_line evs'
  end.

(** The first line received on the connection that is valid UTF-8. *)
Fixpoint first_decoded_line (evs : list event) : option bytes :=
  match evs with
  | [] => None
  | LineReceived line :: evs' =>
      match Utf8.decode line with
      | Some _ => Some line
      | None => first_decoded_line evs'
      end
  | SendMsg _ :: evs' => first_decoded_line evs'
  end.

(** The delimiter a line announces. *)
Definition delimiter_of (line : bytes) : bytes :=
  if last_byte_is_cr line then CRLF else LF.

(** [w] is the encoding of one of the responses of [evs], followed by
    [d]. *)
Definition written_with (d : bytes) (evs : list event) (w : bytes) : Prop :=
  exists response b,
    In (SendMsg response) evs /\ Utf8.encode response = Some b
    /\ w = b ++ d.

End TurboProtocol.

(* ------------------------------------------------------------------ *)
(** ** State and exceptions *)

Definition M (S A : Type) : Type := S -> result A * S.

Definition ret {S A} (a : A) : M S A := fun s => (Ok a, s).

Definition bind {S A B} (m : M S A) (k : A -> M S B) : M S B :=
  fun s =>
    match m s with
    | (Ok a, s') => k a s'
    | (Raise e, s') => (Raise e, s')
    end.

Definition raise {S A} (e : exn) : M S A := fun s => (Raise e, s).

Definition get {S} : M S S := fun s => (Ok s, s).

Definition modify {S} (f : S -> S) : M S unit := fun s => (Ok tt, f s).

(** [try: m except BaseException as e: h e] *)
Definition try_except {S A} (m : M S A) (h : exn -> M S A) : M S A :=
  fun s =>
    match m s with
    | (Ok a, s') => (Ok a, s')
    | (Raise e, s') => h e s'
    end.

(** A value computed without effects that may raise. *)
Definition lift_result {S A} (r : result A) : M S A := fun s => (r, s).

Declare Scope monad_scope.
Delimit Scope monad_scope with monad.
Notation "x <- m ;; k" := (bind m (fun x => k))
  (at level 61, m at next level, right associativity) : monad_scope.
Notation "' pat <- m ;; k" := (bind m (fun x => let 'pat := x in k))
  (at level 61, pat pattern, m at next level, right associativity)
  : monad_scope.
Notation "m ;; k" := (bind m (fun _ => k))
  (at level 61, right associativity) : monad_scope.
Open Scope monad_scope.

(** [for x in l: body x] *)
Fixpoint for_each {S A} (l : list A) (body : A -> M S unit) : M S unit :=
  match l with
  | [] => ret tt
  | x :: l' => body x ;; for_each l' body
  end.

(* ------------------------------------------------------------------ *)
(** ** The inventory collaborator and what the program leaves behind *)

(** What a collaborator answers: a value, or a failure of its own (a
    refused request, a broken connection). *)
Inductive answer (A : Type) : Type :=
| Answer (a : A)
| Failure (what : pystr).
Arguments Answer {A} a.
Arguments Failure {A} what.

Definition of_answer {A} (a : answer A) : result A :=
  match a with
  | Answer a => Ok a
  | Failure what => Raise (CollaboratorError what)
  end.

(** The [pytarallo] client. The inventory does not change while a command
    runs. *)
Record Tarallo : Type := {
  get_codes_by_feature : pystr -> pystr -> answer (list pystr);
  get_item : pystr -> Z -> answer pyval;
  update_item_features : pystr -> dict -> answer unit
}.

Inductive call : Type :=
| CallGetCodes (feature value : pystr)
| CallGetItem (code : pystr)
| CallUpdateFeatures (code : pystr) (features : dict)
| CallLsblk (arg : pystr)
| CallSmartctl (dev : pystr)
| CallWmic (what : pystr).

Inductive level : Type := DEBUG | INFO | WARNING | ERROR.

(** A log record: its level, the fixed part of its message and the
    exception passed as [exc_info]. *)
Record logrec : Type := Log {
  log_level : level;
  log_text : string;
  log_exc : option exn
}.

(** Calls to the collaborators and log records, oldest first. *)
Record trace : Type := {
  calls : list call;
  logs : list logrec
}.

Definition add_call (c : call) (t : trace) : trace :=
  {| calls := calls t ++ [c]; logs := logs t |}.

Definition add_log (l : logrec) (t : trace) : trace :=
  {| calls := calls t; logs := logs t ++ [l] |}.

(* ------------------------------------------------------------------ *)
(** ** A disk record *)

Module Disk.

Record t : Type := {
  _lsblk : dict;
  _path : pystr;
  _code : option pystr;
  _item : option pyval;
  _tarallo : option Tarallo
}.

(** A method runs on the object and the trace. *)
Definition method (A : Type) : Type := M (t * trace) A.

Definition self : method t := fun s => (Ok (fst s), s).

Definition with_code (c : option pystr) (d : t) : t :=
  {| _lsblk := _lsblk d; _path := _path d; _code := c;
     _item := _item d; _tarallo := _tarallo d |}.

Definition with_item (i : option pyval) (d : t) : t :=
  {| _lsblk := _lsblk d; _path := _path d; _code := _code d;
     _item := i; _tarallo := _tarallo d |}.

Definition with_lsblk (l : dict) (d : t) : t :=
  {| _lsblk := l; _path := _path d; _code := _code d;
     _item := _item d; _tarallo := _tarallo d |}.

Definition set_code (c : option pystr) : method unit :=
  modify (fun '(d, tr) => (with_code c d, tr)).

Definition set_item (i : option pyval) : method unit :=
  modify (fun '(d, tr) => (with_item i d, tr)).

Definition set_lsblk (l : dict) : method unit :=
  modify (fun '(d, tr) => (with_lsblk l d, tr)).

Definition called {A} (c : call) (a : answer A) : method A :=
  modify (fun '(d, tr) => (d, add_call c tr)) ;; lift_result (of_answer a).

Definition logging (lvl : level) (text : string) : method unit :=
  modify (fun '(d, tr) => (d, add_log (Log lvl text None) tr)).

Definition no_serial_message (path : pystr) : pystr :=
  u "Disk " ++ path ++ u " has no serial number".

Definition duplicate_message (path : pystr) (codes : list pystr)
           (sn : pystr) : pystr :=
  u "Duplicate codes for " ++ path ++ u ": " ++ join (u " ") codes
    ++ u ", S/N is " ++ sn.

(** [if sn.startswith('WD-'): sn = sn[3:]] *)
Definition normalize_serial (sn : pystr) : pystr :=
  if startswith (u "WD-") sn then skipn 3 sn else sn.

Definition _get_code (stop_on_error : bool) : method unit :=
  d <- self ;;
  match _tarallo d with
  | None => set_code None
  | Some tarallo =>
      (if negb (dict_mem (u "serial") (_lsblk d)) then
         set_code None ;;
         if stop_on_error
         then raise (ErrorThatCanBeManuallyFixed (no_serial_message (_path d)))
         else ret tt
       else ret tt) ;;
      sn <- match dict_get (u "serial") (_lsblk d) with
            | Some v => ret v
            | None => raise KeyError
            end ;;
      sn <- match sn with
            | PStr sn => ret (normalize_serial sn)
            | _ => raise AttributeError     (* no [startswith] *)
            end ;;
      codes <- called (CallGetCodes (u "sn") sn)
                      (get_codes_by_feature tarallo (u "sn") sn) ;;
      match codes with
      | [] =>
          set_code None ;;
          logging DEBUG "Disk not found in tarallo"
      | [code] =>
          set_code (Some code) ;;
          logging DEBUG "Disk found"
      | _ =>
          set_code None ;;
          if stop_on_error
          then raise (ErrorThatCanBeManuallyFixed
                        (duplicate_message (_path d) codes sn))
          else ret tt
      end
  end.

Definition _get_item : method unit :=
  d <- self ;;
  match _tarallo d, _code d with
  | Some tarallo, Some code =>
      if truthy (_code d) then
        item <- called (CallGetItem code) (get_item tarallo code 0) ;;
        set_item (Some item)
      else set_item None
  | _, _ => set_item None
  end.

(** [Disk(lsblk, tarallo)]: the new object, or what [__init__] raised. *)
Definition __init__ (py : Builtins) (lsblk : pyval)
           (tarallo : option Tarallo) : M trace t :=
  fun tr =>
    match lsblk with
    | PDict d =>
        match dict_get (u "path") d with
        | None => (Raise TypeError, tr)  (* [str + dict] in the message *)
        | Some p =>
            let new := {| _lsblk := d; _path := py_str py p; _code := None;
                          _item := None; _tarallo := tarallo |} in
            match (_get_code false ;; _get_item) (new, tr) with
            | (Ok _, (d', tr')) => (Ok d', tr')
            | (Raise e, (_, tr')) => (Raise e, tr')
            end
        end
    | PStr s =>
        if str_contains (u "path") s
        then (Raise TypeError, tr)       (* [s["path"]] *)
        else (Raise (RuntimeError
                       (u "lsblk did not provide path for this disk: " ++ s)),
              tr)
    | _ => (Raise TypeError, tr)
    end.

Definition update_if_needed : method unit :=
  d <- self ;;
  (if negb (truthy (_code d)) then _get_code true else ret tt) ;;
  _get_item.

Definition code_value (c : option pystr) : pyval :=
  match c with Some c => PStr c | None => PNone end.

(** The dictionary returned is the object's own [_lsblk], which gains the
    key. *)
Definition serialize_disk : method dict :=
  d <- self ;;
  let result := dict_set (u "code") (code_value (_code d)) (_lsblk d) in
  set_lsblk result ;;
  ret result.

Definition update_status (status : pystr) : method unit :=
  d <- self ;;
  match _tarallo d, _code d with
  | Some tarallo, Some code =>
      if truthy (_code d) then
        let features := [(u "smart-data", PStr status)] in
        called (CallUpdateFeatures code features)
               (update_item_features tarallo code features)
      else ret tt
  | _, _ => ret tt
  end.

End Disk.

(* ------------------------------------------------------------------ *)
(** ** The collaborators: processes the server starts and its settings *)

Record Env : Type := {
  (** The global [TARALLO], set once by [load_settings]. *)
  TARALLO : option Tarallo;
  (** [json.loads] of what [lsblk ... -J <arg>] printed; [None] when that
      is not JSON. *)
  lsblk_json : pystr -> option pyval;
  (** [sudo smartctl -a dev]: standard output, standard error, exit code. *)
  smartctl : pystr -> bytes * bytes * Z;
  (** What [wmic logicaldisk get <what>] printed. *)
  wmic : pystr -> pystr
}.

(** [find_mounts]: the mount points of a device and of its children. *)
Fixpoint find_mounts (el : pyval) : result (list pyval) :=
  match el with
  | PDict d =>
      match dict_get (u "mountpoint") d with
      | None => Raise KeyError
      | Some m =>
          let mounts := match m with PNone => [] | _ => [m] end in
          (fix children (items : list (pystr * pyval)) : result (list pyval) :=
             match items with
             | [] => Ok mounts
             | (k, v) :: items' =>
                 if str_eqb k (u "children") then
                   match v with
                   | PList cs =>
                       (fix each (cs : list pyval) (mounts : list pyval)
                          : result (list pyval) :=
                          match cs with
                          | [] => Ok mounts
                          | child :: cs' =>
                              match find_mounts child with
                              | Ok ms => each cs' (mounts ++ ms)
                              | Raise e => Raise e
                              end
                          end) cs mounts
                   | PDict [] | PStr [] => Ok mounts
                   | _ => Raise TypeError
                   end
                 else children items'
             end) d
      end
  | _ => Raise TypeError
  end.

(** The body of the loop of [get_disks] on one element. *)
Definition clean_device (el : pyval) : result pyval :=
  match find_mounts el, el with
  | Ok mounts, PDict d =>
      let d := if dict_mem (u "children") d then dict_del (u "children") d else d in
      let d := if dict_mem (u "name") d then dict_del (u "name") d else d in
      Ok (PDict (dict_set (u "mountpoint") (PList mounts) d))
  | Ok _, _ => Raise TypeError
  | Raise e, _ => Raise e
  end.

Fixpoint clean_devices (l : list pyval) : result (list pyval) :=
  match l with
  | [] => Ok []
  | el :: l' =>
      match clean_device el with
      | Ok el' =>
          match clean_devices l' with
          | Ok r => Ok (el' :: r)
          | Raise e => Raise e
          end
      | Raise e => Raise e
      end
  end.

(** [path if path else ''] *)
Definition lsblk_arg (path : option pystr) : pystr :=
  match path with Some p => p | None => [] end.

Definition get_disks (env : Env) (path : option pystr) : M trace pyval :=
  modify (add_call (CallLsblk (lsblk_arg path))) ;;
  jsonized <- match lsblk_json env (lsblk_arg path) with
              | Some v => ret v
              | None => raise JSONDecodeError
              end ;;
  result <- match jsonized with
            | PDict d =>
                match dict_get (u "blockdevices") d with
                | Some r => ret r
                | None => ret (PList [])
                end
            | PList l =>
                if existsb (fun v => match v with
                                     | PStr s => str_eqb s (u "blockdevices")
                                     | _ => false
                                     end) l
                then raise TypeError else ret (PList [])
            | PStr s =>
                if str_contains (u "blockdevices") s
                then raise TypeError else ret (PList [])
            | _ => raise TypeError
            end ;;
  match result with
  | PList l => l' <- lift_result (clean_devices l) ;; ret (PList l')
  | PDict [] => ret (PDict [])
  | PStr [] => ret (PStr [])
  | _ => raise TypeError
  end.

(** [get_smartctl_status] *)
Definition get_smartctl_status (output : pystr) : pystr := u "old".

(** The last loop of [get_disks_win]: [label[idx]] for every index of
    [size]. *)
Fixpoint zip_drives (label size : list pystr) : result (list pyval) :=
  match size with
  | [] => Ok []
  | line :: size' =>
      match label with
      | [] => Raise IndexError
      | l :: label' =>
          match zip_drives label' size' with
          | Ok drive => Ok (PList [PStr l; PStr line] :: drive)
          | Raise e => Raise e
          end
      end
  end.

Definition caption_labels (output : pystr) : list pystr :=
  map rstrip
      (filter (fun line => negb (str_eqb (rstrip line) (u "Caption"))
                           && negb (str_eqb (rstrip line) []))
              (splitlines output)).

Definition size_lines (output : pystr) : list pystr :=
  filter (fun line => negb (str_eqb (rstrip line) (u "Size"))
                      && negb (str_eqb (rstrip line) []))
         (splitlines output).

Definition get_disks_win (env : Env) : M trace pyval :=
  modify (add_call (CallWmic (u "caption"))) ;;
  let label := caption_labels (wmic env (u "caption")) in
  modify (add_call (CallWmic (u "size"))) ;;
  let size := size_lines (wmic env (u "size")) in
  drive <- lift_result (zip_drives label size) ;;
  ret (PList drive).

(* ------------------------------------------------------------------ *)
(** ** The shared state and the command threads *)

(** What [send_msg] hands to the reactor for one connection:
    [cmd] alone, or [cmd] and the encoded parameter. *)
Record response : Type := Response {
  tag : pystr;
  payload : option pyval
}.

Record world : Type := {
  (** [disks]: device path to record, or to [None]. *)
  disks : list (pystr * option Disk.t);
  (** The keys of [clients]: the connections that are open. *)
  clients : list Z;
  (** [running_commands], by thread number. *)
  running_commands : list nat;
  (** [reactor.callFromThread(TurboProtocol.send_msg, thread, ...)], oldest
      first, with the connection each one is for. *)
  sent : list (Z * response);
  tr : trace
}.

Module CommandRunner.

Record t : Type := {
  _cmd : pystr;
  _args : pystr;
  _the_id : Z;
  thread : nat
}.

Definition set_disks (ds : list (pystr * option Disk.t)) (w : world) : world :=
  {| disks := ds; clients := clients w;
     running_commands := running_commands w; sent := sent w; tr := tr w |}.

Definition set_tr (t : trace) (w : world) : world :=
  {| disks := disks w; clients := clients w;
     running_commands := running_commands w; sent := sent w; tr := t |}.

Definition set_running (r : list nat) (w : world) : world :=
  {| disks := disks w; clients := clients w;
     running_commands := r; sent := sent w; tr := tr w |}.

Definition hand_off (m : Z * response) (w : world) : world :=
  {| disks := disks w; clients := clients w;
     running_commands := running_commands w; sent := sent w ++ [m];
     tr := tr w |}.

(** Code that only calls collaborators and logs. *)
Definition traced {A} (m : M trace A) : M world A :=
  fun w => let '(r, t) := m (tr w) in (r, set_tr t w).

Definition logging (lvl : level) (text : string) (exc : option exn)
  : M world unit :=
  modify (fun w => set_tr (add_log (Log lvl text exc) (tr w)) w).

(** A method call on [disks[key]]: the object is shared with the registry,
    so what the method does to it is seen there, also when it raises. *)
Definition on_disk {A} (key : pystr) (m : Disk.method A) : M world A :=
  fun w =>
    match dict_get key (disks w) with
    | None => (Raise KeyError, w)
    | Some None => (Raise AttributeError, w)
    | Some (Some d) =>
        let '(r, (d', t)) := m (d, tr w) in
        (r, set_tr t (set_disks (dict_set key (Some d') (disks w)) w))
    end.

(** [_encode_param] *)
Definition _encode_param (param : pyval) : result pyval :=
  if json_serializable param then Ok param else Raise TypeError.

Definition send_msg (client_id : Z) (cmd : pystr) (param : option pyval)
  : M world unit :=
  w <- get ;;
  if existsb (Z.eqb client_id) (clients w) then
    match param with
    | None => modify (hand_off (client_id, Response cmd None))
    | Some param =>
        j_param <- lift_result (_encode_param param) ;;
        modify (hand_off (client_id, Response cmd (Some j_param)))
    end
  else logging INFO "Connection already closed while trying to send" None.

(** [update_disk_if_needed(the_id, disks[key])] *)
Definition update_disk_if_needed (the_id : Z) (key : pystr) : M world unit :=
  try_except
    (on_disk key Disk.update_if_needed)
    (fun e =>
       match e with
       | ErrorThatCanBeManuallyFixed message =>
           send_msg the_id (u "error_that_can_be_manually_fixed")
                    (Some (PDict [(u "message", PStr message);
                                  (u "disk", PObject (u "Disk"))]))
       | _ => ret tt
       end).

Definition get_smartctl (env : Env) (dev : pystr) (the_id : Z)
  : M world pyval :=
  traced (modify (add_call (CallSmartctl dev))) ;;
  let '(out, err, exitcode) := smartctl env dev in
  output <- match Utf8.decode out with
            | Some s => ret s
            | None => raise UnicodeDecodeError
            end ;;
  stderr <- match Utf8.decode err with
            | Some s => ret s
            | None => raise UnicodeDecodeError
            end ;;
  '(status, updated) <-
    (if Z.eqb exitcode 0 then
       let status := get_smartctl_status output in
       w <- get ;;
       updated <-
         (if dict_mem dev (disks w) then
            update_disk_if_needed the_id dev ;;
            try_except
              (on_disk dev (Disk.update_status status) ;; ret true)
              (fun e =>
                 logging WARNING "Cannot update status on tarallo" (Some e) ;;
                 ret false)
          else ret false) ;;
       ret (PStr status, updated)
     else ret (PNone, false)) ;;
  ret (PDict [(u "disk", PStr dev);
              (u "status", status);
              (u "updated", PBool updated);
              (u "exitcode", PInt exitcode);
              (u "output", PStr output);
              (u "stderr", PStr stderr)]).

Definition first_or_self (lsblk : pyval) : pyval :=
  match lsblk with
  | PList (first :: _) => first
  | _ => lsblk
  end.

Definition is_none {A} (o : option (option A)) : bool :=
  match o with Some None => true | _ => false end.

(** The body of the loop of [get_disks_to_send] for one key of [disks];
    [result] is the list built so far. *)
Definition get_disk_to_send (py : Builtins) (env : Env) (the_id : Z)
           (disk : pystr) (result : list pyval) : M world (list pyval) :=
  w <- get ;;
  (if is_none (dict_get disk (disks w)) then
     lsblk <- traced (get_disks env (Some disk)) ;;
     let lsblk := first_or_self lsblk in
     try_except
       (d <- traced (Disk.__init__ py lsblk (TARALLO env)) ;;
        modify (fun w => set_disks (dict_set disk (Some d) (disks w)) w))
       (fun e => logging WARNING "Error with disk still remains" (Some e))
   else ret tt) ;;
  w <- get ;;
  if negb (is_none (dict_get disk (disks w))) then
    update_disk_if_needed the_id disk ;;
    serialized <- on_disk disk Disk.serialize_disk ;;
    ret (result ++ [PDict serialized])
  else ret result.

Fixpoint get_disks_loop (py : Builtins) (env : Env) (the_id : Z)
         (keys : list pystr) (result : list pyval) : M world (list pyval) :=
  match keys with
  | [] => ret result
  | disk :: keys' =>
      result <- get_disk_to_send py env the_id disk result ;;
      get_disks_loop py env the_id keys' result
  end.

Definition get_disks_to_send (py : Builtins) (env : Env) (the_id : Z)
  : M world pyval :=
  w <- get ;;
  result <- get_disks_loop py env the_id (dict_keys (disks w)) [] ;;
  ret (PList result).

(** The branches of [exec_command]: the command word and the parameter
    of the reply. *)
Definition dispatch (py : Builtins) (env : Env)
           (cmd args : pystr) (the_id : Z) : M world (pystr * option pyval) :=
  if str_eqb cmd (u "smartctl") then
    param <- get_smartctl env args the_id ;; ret (cmd, Some param)
  else if str_eqb cmd (u "get_disks") then
    param <- get_disks_to_send py env the_id ;; ret (cmd, Some param)
  else if str_eqb cmd (u "get_disks_win") then
    param <- traced (get_disks_win env) ;; ret (cmd, Some param)
  else if str_eqb cmd (u "ping") then
    ret (u "pong", None)
  else
    ret (u "error",
         Some (PDict [(u "message", PStr (u "Unrecognized command"));
                      (u "command", PStr cmd)])).

Definition exec_command (py : Builtins) (env : Env)
           (cmd args : pystr) (the_id : Z) : M world unit :=
  logging DEBUG "Received command" None ;;
  ' (cmd, param) <- dispatch py env cmd args the_id ;;
  send_msg the_id cmd param.

(** [running_commands.remove(self)] *)
Definition remove_running (n : nat) : M world unit :=
  w <- get ;;
  if existsb (Nat.eqb n) (running_commands w)
  then modify (set_running
                 (filter (fun m => negb (Nat.eqb n m)) (running_commands w)))
  else raise KeyError.

Definition run (py : Builtins) (env : Env) (self : t) : M world unit :=
  try_except
    (exec_command py env (_cmd self) (_args self) (_the_id self))
    (fun e => logging ERROR "BIG ERROR in command thread" (Some e)) ;;
  remove_running (thread self).

(** [CommandRunner(cmd, args, the_id)] followed by [start()], as
    [lineReceived] does: the new thread joins [running_commands] and runs
    to its end. *)
Definition start (py : Builtins) (env : Env) (cmd args : pystr)
           (the_id : Z) : M world unit :=
  w <- get ;;
  let self := {| _cmd := cmd; _args := args; _the_id := the_id;
                 thread := S (fold_right Nat.max 0 (running_commands w)) |} in
  modify (set_running (thread self :: running_commands w)) ;;
  run py env self.

End CommandRunner.

(* ------------------------------------------------------------------ *)
(** ** The startup scan *)




(* ------------------------------------------------------------------ *)
(** ** The offline labelling tool ([pestello.py]) *)

Module Pestello.

(** What was read in one report: attribute name to text, in the order the
    names were first met. *)
Definition found := list (pystr * pystr).

(** What a path designates. A file is the list of its lines, each with
    its line end. *)
Inductive node : Type :=
| Dir (entries : list pystr)
| File (lines : list pystr)
| Neither.

(** What the operator does at a prompt. *)
Inductive keyboard : Type :=
| Typed (line : pystr)
| CtrlC.

Record Host : Type := {
  fs : pystr -> node;
  (** The order in which the set [attributes] is iterated. *)
  attributes : list pystr
}.

(** The names of [attributes], as written in [parse_file]. *)
Definition attribute_names : list pystr :=
  [u "Start_Stop_Count"; u "Reallocated_Sector_Ct"; u "Seek_Error_Rate";
   u "Power_On_Hours"; u "Power_Cycle_Count"; u "SSD_Life_Left";
   u "Lifetime_Writes_GiB"; u "Load_Cycle_Count";
   u "Reallocated_Event_Count"; u "Current_Pending_Sector";
   u "Offline_Uncorrectable"].

(** The answer given for one report: the report, what was read in it and
    the status chosen, [None] when it was discarded. *)
Record decision : Type := {
  filename : pystr;
  read : found;
  status : option pystr
}.

Record state : Type := {
  results : list found;
  serials : list pystr;
  stdin : list keyboard;
  (** The answers given so far, oldest first. *)
  decisions : list decision
}.

(** The three flags of the loop over the lines, [found] and [errors]. *)
Record scan : Type := {
  info_section : bool;
  data_section : bool;
  errors_section : bool;
  scanned : found;
  errors : nat
}.

Definition enter (info data errs : bool) (s : scan) : scan :=
  {| info_section := info; data_section := data; errors_section := errs;
     scanned := scanned s; errors := errors s |}.

Definition with_scanned (f : found) (s : scan) : scan :=
  {| info_section := info_section s; data_section := data_section s;
     errors_section := errors_section s; scanned := f; errors := errors s |}.

(** [line.split('  ', 1)[1]] *)
Definition after_two_spaces (line : pystr) : result pystr :=
  match snd (split_once (u "  ") line) with
  | Some val => Ok val
  | None => Raise IndexError
  end.

(** The body of [for attr in attributes] on one line of the data
    section. *)
Definition scan_attribute (line : pystr) (f : found) (attr : pystr)
  : found :=
  if str_contains attr line then
    let val := strip (last (split_char 32 line) []) in
    let '(f, val) :=
      if str_eqb attr (u "Power_On_Hours") then
        let f := dict_set (u "Power_On_Hours_Exact") (u "false") f in
        if str_contains (u "h") val
        then (dict_set (u "Power_On_Hours_Exact") (u "true") f,
              hd [] (split_char 104 val))
        else (f, val)
      else (f, val) in
    dict_set attr (rstrip val) f
  else f.

Definition scan_line (h : Host) (s : scan) (line : pystr) : result scan :=
  if str_contains (u "=== START OF INFORMATION SECTION ===") line then
    Ok (enter true false false s)
  else if str_contains (u "=== START OF READ SMART DATA SECTION ===") line then
    Ok (enter false true false s)
  else if str_contains (u "SMART Error Log Version") line then
    Ok (enter false false true s)
  else if info_section s then
    match (if str_contains (u "Model Family:  ") line then
             match after_two_spaces line with
             | Ok val =>
                 Ok (dict_set (u "Model_Family") (strip val) (scanned s))
             | Raise e => Raise e
             end
           else Ok (scanned s)) with
    | Ok f =>
        if str_contains (u "Serial Number") line then
          match after_two_spaces line with
          | Ok val =>
              Ok (with_scanned (dict_set (u "Serial_Number") (strip val) f) s)
          | Raise e => Raise e
          end
        else Ok (with_scanned f s)
    | Raise e => Raise e
    end
  else if data_section s then
    Ok (with_scanned
          (fold_left (scan_attribute line) (attributes h) (scanned s)) s)
  else if errors_section s then
    if str_contains (u "Error: UNC") line then
      Ok {| info_section := info_section s; data_section := data_section s;
            errors_section := errors_section s; scanned := scanned s;
            errors := S (errors s) |}
    else Ok s
  else Ok s.

Fixpoint scan_lines (h : Host) (s : scan) (lines : list pystr)
  : result scan :=
  match lines with
  | [] => Ok s
  | line :: lines' =>
      match scan_line h s line with
      | Ok s' => scan_lines h s' lines'
      | Raise e => Raise e
      end
  end.

(** The faults of the loop that prints what was read: [int] of a text
    that is no integer, and a quotient too large for a float. What is
    printed is not modelled. *)
Definition show_attribute (py : Builtins) (f : found) (kv : pystr * pystr)
  : result unit :=
  let '(k, v) := kv in
  match (if str_eqb k (u "Power_On_Hours") then
           match py_int py v with
           | None => Raise ValueError
           | Some n =>
               if truediv_overflows py n 24 || truediv_overflows py n 8
               then Raise OverflowError
               else
                 match dict_get (u "Power_On_Hours_Exact") f with
                 | None => Raise KeyError
                 | Some exact =>
                     if str_eqb exact (u "false") && truediv_overflows py n 60
                     then Raise OverflowError else Ok tt
                 end
           end
         else Ok tt) with
  | Raise e => Raise e
  | Ok _ =>
      if str_isnumeric py v then
        match py_int py v with
        | None => Raise ValueError
        | Some _ => Ok tt
        end
      else Ok tt
  end.

Fixpoint show_attributes (py : Builtins) (f : found)
         (l : list (pystr * pystr)) : result unit :=
  match l with
  | [] => Ok tt
  | kv :: l' =>
      match show_attribute py f kv with
      | Ok _ => show_attributes py f l'
      | Raise e => Raise e
      end
  end.

Definition decide (file : pystr) (f : found) (s : option pystr)
           (st : state) : state :=
  {| results := match s with
                | Some s => results st ++ [dict_set (u "Status") s f]
                | None => results st
                end;
     serials := serials st;
     stdin := stdin st;
     decisions := decisions st
                    ++ [{| filename := file; read := f; status := s |}] |}.

(** [while not answered]: one [input()] per turn, until the answer is one
    of [k], [o], [f], [x]. The keyboard input still to come is consumed. *)
Fixpoint ask (py : Builtins) (file : pystr) (f : found)
         (keys : list keyboard) (st : state) : result unit * state :=
  let rest keys :=
    {| results := results st; serials := serials st; stdin := keys;
       decisions := decisions st |} in
  match keys with
  | [] => (Raise EOFError, rest [])
  | CtrlC :: keys' => (Raise KeyboardInterrupt, rest keys')
  | Typed line :: keys' =>
      let r := str_lower py line in
      if str_eqb r (u "k") then (Ok tt, decide file f (Some (u "OK")) (rest keys'))
      else if str_eqb r (u "o") then (Ok tt, decide file f (Some (u "OLD")) (rest keys'))
      else if str_eqb r (u "f") then (Ok tt, decide file f (Some (u "FAIL")) (rest keys'))
      else if str_eqb r (u "x") then (Ok tt, decide file f None (rest keys'))
      else ask py file f keys' st
  end.

Definition initial_scan : scan :=
  {| info_section := false; data_section := false; errors_section := false;
     scanned := []; errors := 0 |}.

Definition remember (serial : pystr) (st : state) : state :=
  {| results := results st; serials := serial :: serials st;
     stdin := stdin st; decisions := decisions st |}.

Definition parse_file (py : Builtins) (h : Host) (file : pystr)
  : M state unit :=
  lines <- match fs h file with
           | File lines => ret lines
           | _ => raise OSError          (* [open] *)
           end ;;
  s <- lift_result (scan_lines h initial_scan lines) ;;
  let f := dict_set (u "Errors_UNC") (str_of_int (Z.of_nat (errors s)))
                    (scanned s) in
  st <- get ;;
  match dict_get (u "Serial_Number") f with
  | Some serial =>
      if existsb (str_eqb serial) (serials st)
      then ret tt                        (* skipped *)
      else
        modify (remember serial) ;;
        lift_result (show_attributes py f f) ;;
        fun st => ask py file f (stdin st) st
  | None =>
      lift_result (show_attributes py f f) ;;
      fun st => ask py file f (stdin st) st
  end.

(** [file.rstrip('/')] *)
Definition rstrip_slash (s : pystr) : pystr :=
  rev ((fix drop (l : pystr) : pystr :=
          match l with
          | 47%N :: l' => drop l'
          | _ => l
          end) (rev s)).

(** The loop of [get_files] over [paths], with the local [errors]; the
    exception that ended it, if any, is returned beside it. *)
Fixpoint walk (py : Builtins) (h : Host) (paths : list pystr)
         (errors : bool) (st : state) : bool * result unit * state :=
  match paths with
  | [] => (errors, Ok tt, st)
  | file :: paths' =>
      match fs h file with
      | Dir entries =>
          match for_each entries
                  (fun name => parse_file py h
                                 (rstrip_slash file ++ u "/" ++ name)) st with
          | (Ok _, st') => walk py h paths' errors st'
          | (Raise e, st') => (errors, Raise e, st')
          end
      | File _ =>
          match parse_file py h file st with
          | (Ok _, st') => walk py h paths' errors st'
          | (Raise e, st') => (errors, Raise e, st')
          end
      | Neither => walk py h paths' true st
      end
  end.

(** The loop that builds [header]: [header_set] and [header]. *)
Definition add_key (acc : list pystr * list pystr) (k : pystr)
  : list pystr * list pystr :=
  let '(header_set, header) := acc in
  if negb (str_eqb k (u "Status")) && negb (existsb (str_eqb k) header_set)
  then (k :: header_set, header ++ [k])
  else acc.

Definition make_header (results : list found) : list pystr :=
  snd (fold_left (fun acc result => fold_left add_key (dict_keys result) acc)
                 results ([], []))
  ++ [u "Status"].

(** [csv.DictWriter.writerow]: a key outside [fieldnames] is refused, a
    missing one is written as the empty text. *)
Definition writerow (fieldnames : list pystr) (row : found)
  : result (list pystr) :=
  if forallb (fun k => existsb (str_eqb k) fieldnames) (dict_keys row)
  then Ok (map (fun k => match dict_get k row with
                         | Some v => v
                         | None => []
                         end) fieldnames)
  else Raise ValueError.

Fixpoint writerows (fieldnames : list pystr) (rows : list found)
  : result (list (list pystr)) :=
  match rows with
  | [] => Ok []
  | row :: rows' =>
      match writerow fieldnames row with
      | Ok cells =>
          match writerows fieldnames rows' with
          | Ok r => Ok (cells :: r)
          | Raise e => Raise e
          end
      | Raise e => Raise e
      end
  end.

(** [labeled.csv]: the header row and the data rows, cell by cell. *)
Record csv : Type := {
  header : list pystr;
  rows : list (list pystr)
}.

(** [get_files]: the file written and whether the run ends with
    [exit(1)]; a raise is an exception that nothing catches. *)
Definition get_files (py : Builtins) (h : Host) (paths : list pystr)
  : M state (csv * bool) :=
  fun st =>
    let '(errors, r, st') := walk py h paths false st in
    let write :=
      let header := make_header (results st') in
      match writerows header (results st') with
      | Ok rows => (Ok ({| header := header; rows := rows |}, errors), st')
      | Raise e => (Raise e, st')
      end in
    match r with
    | Ok _ => write
    | Raise KeyboardInterrupt => write
    | Raise EOFError => write
    | Raise e => (Raise e, st')
    end.

(** The tool starts with nothing parsed; [keys] is what the operator
    will type. *)
Definition start (keys : list keyboard) : state :=
  {| results := []; serials := []; stdin := keys; decisions := [] |}.

(** The answers that give a row. *)
Definition labelled (ds : list decision) : list decision :=
  filter (fun d => match status d with Some _ => true | None => false end) ds.

(** The row an answer asks for: what was read, and the status. *)
Definition labelled_row (d : decision) : found :=
  match status d with
  | Some s => dict_set (u "Status") s (read d)
  | None => read d
  end.

(** The names of [l], each at its first occurrence. *)
Fixpoint first_seen (l : list pystr) : list pystr :=
  match l with
  | [] => []
  | k :: l' => k :: filter (fun x => negb (str_eqb x k)) (first_seen l')
  end.

(** The attribute names read in the reports [ds], in order. *)
Definition names_read (ds : list decision) : list pystr :=
  flat_map (fun d => dict_keys (read d)) ds.

Definition not_status (k : pystr) : bool := negb (str_eqb k (u "Status")).

(** The cells of a row under the columns [fieldnames]. *)
Definition cells_of (fieldnames : list pystr) (row : found) : list pystr :=
  map (fun k => match dict_get k row with Some v => v | None => [] end)
      fieldnames.

(** The statuses an answer can carry. *)
Definition known_status (d : decision) : Prop :=
  In (status d) [None; Some (u "OK"); Some (u "OLD"); Some (u "FAIL")].

(** [results] holds the rows the answers ask for, in order. *)
Definition consistent (st : state) : Prop :=
  results st = map labelled_row (labelled (decisions st))
  /\ Forall known_status (decisions st).

Definition keeps_consistent (st st' : state) : Prop :=
  consistent st -> consistent st'.

Definition status_text (d : decision) : pystr :=
  match status d with Some s => s | None => [] end.

(** A name that goes into [header]: not [Status] and not seen yet. *)
Definition fresh (seen : list pystr) (k : pystr) : bool :=
  not_status k && negb (existsb (str_eqb k) seen).

End Pestello.

(* ------------------------------------------------------------------ *)
(** ** A small installation, for the worked examples *)

Module Example.

Definition sda_json : pyval :=
  PDict [(u "name", PStr (u "sda")); (u "path", PStr (u "/dev/sda"));
         (u "vendor", PStr (u "ATA")); (u "model", PStr (u "WDC WD10"));
         (u "serial", PStr (u "WD-ABC123")); (u "hotplug", PBool false);
         (u "rota", PBool true); (u "mountpoint", PNone);
         (u "children",
          PList [PDict [(u "name", PStr (u "sda1"));
                        (u "path", PStr (u "/dev/sda1"));
                        (u "mountpoint", PStr (u "/"))]])].

(** What [get_disks] makes of [sda_json]. *)
Definition sda : dict :=
  [(u "path", PStr (u "/dev/sda")); (u "vendor", PStr (u "ATA"));
   (u "model", PStr (u "WDC WD10")); (u "serial", PStr (u "WD-ABC123"));
   (u "hotplug", PBool false); (u "rota", PBool true);
   (u "mountpoint", PList [PStr (u "/")])].

(** The same device when the enumerator reports no serial column. *)
Definition sda_no_serial : dict :=
  [(u "path", PStr (u "/dev/sda")); (u "mountpoint", PList [])].

(** An inventory that knows the serial [ABC123] under the codes
    [codes], and whose status update answers [push]. *)
Definition inventory (codes : list pystr) (push : answer unit) : Tarallo := {|
  get_codes_by_feature := fun feature value =>
    if str_eqb feature (u "sn") && str_eqb value (u "ABC123")
    then Answer codes else Answer [];
  get_item := fun code depth => Answer (PDict [(u "code", PStr code)]);
  update_item_features := fun code features => push
|}.

Definition one_match : Tarallo := inventory [u "AB12"] (Answer tt).
Definition two_matches : Tarallo := inventory [u "AB12"; u "CD34"] (Answer tt).
Definition push_refused : Tarallo :=
  inventory [u "AB12"] (Failure (u "HTTP 500")).

Definition ascii (s : string) : bytes := map Utf8.byte_of (u s).
Arguments ascii s%_string.

(** A host with one disk; [smartctl] exits with [exitcode]. *)
Definition host (tarallo : option Tarallo) (exitcode : Z) : Env := {|
  TARALLO := tarallo;
  lsblk_json := fun arg =>
    if str_eqb arg (u "/dev/sda") || str_eqb arg []
    then Some (PDict [(u "blockdevices", PList [sda_json])])
    else Some (PDict [(u "blockdevices", PList [])]);
  smartctl := fun dev =>
    (ascii "smartctl 7.2", if Z.eqb exitcode 0 then [] else ascii "Permission denied",
     exitcode);
  wmic := fun what =>
    if str_eqb what (u "caption")
    then u "Caption  " ++ [13; 10]%N ++ u "C:       " ++ [13; 10]%N
    else u "Size          " ++ [13; 10]%N ++ u "1000202273280  " ++ [13; 10]%N
         ++ u "500105249280   " ++ [13; 10]%N
|}.

(** A host whose two [wmic] listings are [caption] and [size]. *)
Definition windows (caption size : pystr) : Env := {|
  TARALLO := None;
  lsblk_json := fun _ => None;
  smartctl := fun _ => ([], [], 127%Z);
  wmic := fun what => if str_eqb what (u "caption") then caption else size
|}.

Definition crlf : pystr := [13; 10]%N.

Definition no_trace : trace := {| calls := []; logs := [] |}.

(** The record of [/dev/sda] with the code [code]. *)
Definition sda_disk (tarallo : option Tarallo) (code : option pystr)
  : Disk.t :=
  {| Disk._lsblk := sda; Disk._path := u "/dev/sda"; Disk._code := code;
     Disk._item := None; Disk._tarallo := tarallo |}.

(** Connection 0 is open and thread 1 is running a command. *)
Definition state (registry : list (pystr * option Disk.t)) : world :=
  {| disks := registry; clients := [0%Z]; running_commands := [1%nat];
     sent := []; tr := no_trace |}.

Definition runner (cmd args : string) : CommandRunner.t :=
  {| CommandRunner._cmd := u cmd; CommandRunner._args := u args;
     CommandRunner._the_id := 0; CommandRunner.thread := 1 |}.

(** Two saved reports of [smartctl -a], for two disks. *)
Definition nl (s : string) : pystr := u s ++ [10%N].
Arguments nl s%_string.

Definition report_a : list pystr :=
  [nl "=== START OF INFORMATION SECTION ===";
   nl "Model Family:     Western Digital Blue";
   nl "Serial Number:    WD-AAA111";
   nl "=== START OF READ SMART DATA SECTION ===";
   nl "  5 Reallocated_Sector_Ct   0x0033   200   200   140    Pre-fail  Always       -       0";
   nl "  9 Power_On_Hours          0x0032   088   088   000    Old_age   Always       -       9312";
   nl "SMART Error Log Version: 1";
   nl "  40 51 00 ff ff ff 0f  Error: UNC at LBA = 0x0fffffff = 268435455"].

Definition report_b : list pystr :=
  [nl "=== START OF INFORMATION SECTION ===";
   nl "Serial Number:    S2RBNX0J";
   nl "=== START OF READ SMART DATA SECTION ===";
   nl "  9 Power_On_Hours          0x0032   099   099   000    Old_age   Always       -       120h+30m+10.500s";
   nl "231 SSD_Life_Left           0x0013   100   100   010    Pre-fail  Always       -       0"].

Definition folder : Pestello.Host := {|
  Pestello.fs := fun path =>
    if str_eqb path (u "a.txt") then Pestello.File report_a
    else if str_eqb path (u "b.txt") then Pestello.File report_b
    else if str_eqb path (u "reports/") then Pestello.Dir [u "a.txt"]
    else if str_eqb path (u "reports/a.txt") then Pestello.File report_a
    else Pestello.Neither;
  Pestello.attributes := Pestello.attribute_names
|}.

End Example.

(* ------------------------------------------------------------------ *)
(** ** Notions used to state the properties *)

(** A byte string and the text it decodes to are empty together and end
    with a carriage return together. *)
Definition same_end (l s : list N) : Prop :=
  (s = [] <-> l = []) /\ (last s 0%N = 13%N <-> last l 0%N = 13%N).

(** A relation on the state that holds from before to after a
    computation, whatever it returns or raises. *)
Definition respects {St : Type} (R : St -> St -> Prop) (A : Type)
           (m : M St A) : Prop :=
  forall s, R s (snd (m s)).

(** The trace only grows. *)
Definition trace_grows (t t' : trace) : Prop :=
  (exists c, calls t' = calls t ++ c) /\ (exists l, logs t' = logs t ++ l).

(** A disk record keeps its path, its enumeration data and its inventory
    client. *)
Definition same_disk (s s' : Disk.t * trace) : Prop :=
  Disk._path (fst s') = Disk._path (fst s)
  /\ Disk._lsblk (fst s') = Disk._lsblk (fst s)
  /\ Disk._tarallo (fst s') = Disk._tarallo (fst s)
  /\ trace_grows (snd s) (snd s').

Definition method_grows (s s' : Disk.t * trace) : Prop :=
  trace_grows (snd s) (snd s').

(** A notice of a manually-fixable condition for connection [the_id]. *)
Definition manual (the_id : Z) (m : Z * response) : Prop :=
  fst m = the_id /\ tag (snd m) = u "error_that_can_be_manually_fixed".

(** From [w] to [w']: connections and threads are as they were, registry
    entries outside [touched] too, the trace has grown, and the reactor
    was handed nothing but notices for [the_id]. *)
Definition evolves (the_id : Z) (touched : pystr -> Prop) (w w' : world)
  : Prop :=
  clients w' = clients w
  /\ running_commands w' = running_commands w
  /\ (forall p, ~ touched p -> dict_get p (disks w') = dict_get p (disks w))
  /\ trace_grows (tr w) (tr w')
  /\ exists extra, sent w' = sent w ++ extra /\ Forall (manual the_id) extra.

(** The command word of the reply [exec_command] sends for [cmd]. *)
Definition reply_tag (cmd : pystr) : pystr :=
  if str_eqb cmd (u "smartctl") || str_eqb cmd (u "get_disks")
     || str_eqb cmd (u "get_disks_win")
  then cmd
  else if str_eqb cmd (u "ping") then u "pong" else u "error".

(** Any registry key. *)
Definition anywhere (p : pystr) : Prop := True.

(** The reply to [smartctl dev]. *)
Definition smartctl_reply (dev : pystr) (status : pyval) (updated : bool)
           (exitcode : Z) (output stderr : pystr) : response :=
  Response (u "smartctl")
           (Some (PDict [(u "disk", PStr dev);
                         (u "status", status);
                         (u "updated", PBool updated);
                         (u "exitcode", PInt exitcode);
                         (u "output", PStr output);
                         (u "stderr", PStr stderr)])).

(** The state in which [get_smartctl] reaches its registry block: the
    command has been logged and the tool has run. *)
Definition smartctl_done (dev : pystr) (w : world) : world :=
  CommandRunner.set_tr
    (add_call (CallSmartctl dev)
              (add_log (Log DEBUG "Received command" None) (tr w))) w.

(** The status push of [smartctl dev] raises [e]: that is
    [disks[dev].update_status(status)], called once
    [update_disk_if_needed] has run. *)
Definition push_fails (dev : pystr) (the_id : Z) (w : world) (e : exn)
  : Prop :=
  fst (CommandRunner.on_disk dev
         (Disk.update_status (u "old"))
         (snd (CommandRunner.update_disk_if_needed the_id dev
                 (smartctl_done dev w)))) = Raise e.

(** A drive of [get_disks_win]: the list [[label, size]]. *)
Definition drive_of (p : pystr * pystr) : pyval :=
  PList [PStr (fst p); PStr (snd p)].


(** A run of the enumerator. *)
Definition is_enumeration (c : call) : bool :=
  match c with
  | CallLsblk _ => true
  | _ => false
  end.

Definition enumerations (t : trace) : list call :=
  filter is_enumeration (calls t).


(** A method of a record, or code that only calls collaborators, does not
    run the enumerator. *)
Definition no_enumeration {St : Type} (trace_of : St -> trace) (s s' : St)
  : Prop :=
  enumerations (trace_of s') = enumerations (trace_of s).

Definition method_quiet : Disk.t * trace -> Disk.t * trace -> Prop :=
  no_enumeration snd.




(* ------------------------------------------------------------------ *)
(** ** Further notions *)

(** From [w] to [w']: connections and threads are as they were, and if the
    connection [the_id] is closed the reactor was handed nothing. *)
Definition discreet (the_id : Z) (w w' : world) : Prop :=
  clients w' = clients w
  /\ running_commands w' = running_commands w
  /\ (existsb (Z.eqb the_id) (clients w) = false -> sent w' = sent w).

(** The reply to a command word that starts no work. *)
Definition idle_reply (cmd : pystr) : response :=
  if str_eqb cmd (u "ping") then Response (u "pong") None
  else Response (u "error")
                (Some (PDict [(u "message", PStr (u "Unrecognized command"));
                              (u "command", PStr cmd)])).

(** The state once the command has been logged. *)
Definition received (w : world) : world :=
  CommandRunner.set_tr (add_log (Log DEBUG "Received command" None) (tr w)) w.

(** What [get_disks] lists for a registry key: the enumeration data of its
    record, if it has one. *)
Definition listed (registry : list (pystr * option Disk.t)) (key : pystr)
  : list pyval :=
  match dict_get key registry with
  | Some (Some d) => [PDict (Disk._lsblk d)]
  | _ => []
  end.

(** The enumeration data of a record shows the code the record holds. *)
Definition shows_its_code (d : Disk.t) : Prop :=
  dict_get (u "code") (Disk._lsblk d) = Some (Disk.code_value (Disk._code d)).

(** What [get_disks] makes of one element [el] of the enumerator's output:
    [el'] has neither [children] nor [name], its [mountpoint] is the list
    of the mount points found in [el], and every other column is as in
    [el]. *)
Definition cleaned (el el' : pyval) : Prop :=
  exists d d' mounts,
    el = PDict d /\ el' = PDict d'
    /\ find_mounts el = Ok mounts
    /\ dict_get (u "mountpoint") d' = Some (PList mounts)
    /\ dict_mem (u "children") d' = false
    /\ dict_mem (u "name") d' = false
    /\ forall k, k <> u "children" -> k <> u "name" -> k <> u "mountpoint" ->
                 dict_get k d' = dict_get k d.

(** A JSON object has every key once. *)
Definition unique_keys (el : pyval) : Prop :=
  forall d, el = PDict d -> NoDup (dict_keys d).

(** A drive as [get_disks_win] lists it: the label has lost its trailing
    white space and is no heading; the size is a line of the size listing
    as printed, trailing white space included, that is no heading and not
    blank. *)
Definition listed_drive (env : Env) (drive : pyval) : Prop :=
  exists label size,
    drive = drive_of (label, size)
    /\ rstrip label = label /\ label <> u "Caption" /\ label <> []
    /\ In size (splitlines (wmic env (u "size")))
    /\ rstrip size <> u "Size" /\ rstrip size <> [].

(* ------------------------------------------------------------------ *)
(** ** Further notions for the labelling tool *)

(** The serial numbers of the reports the operator was asked about. *)
Definition serials_asked (ds : list Pestello.decision) : list pystr :=
  flat_map (fun d => match dict_get (u "Serial_Number") (Pestello.read d) with
                     | Some s => [s]
                     | None => []
                     end) ds.

(** No serial number was asked about twice, and each one asked about is in
    [serials]. *)
Definition each_disk_once (st : Pestello.state) : Prop :=
  NoDup (serials_asked (Pestello.decisions st))
  /\ forall s, In s (serials_asked (Pestello.decisions st)) ->
               existsb (str_eqb s) (Pestello.serials st) = true.

(** A path that is neither a file nor a directory. *)
Definition missing (h : Pestello.Host) (path : pystr) : bool :=
  match Pestello.fs h path with
  | Pestello.Neither => true
  | _ => false
  end.

(** An answer the prompt accepts. *)
Definition accepted (py : Builtins) (line : pystr) : bool :=
  let r := str_lower py line in
  str_eqb r (u "k") || str_eqb r (u "o") || str_eqb r (u "f")
  || str_eqb r (u "x").

(** The operator typed something the prompt does not accept. *)
Definition unrecognized (py : Builtins) (k : Pestello.keyboard) : Prop :=
  exists line, k = Pestello.Typed line /\ accepted py line = false.

(** The exceptions [get_files] catches around its loop. *)
Definition interrupts (r : result unit) : bool :=
  match r with
  | Ok _ | Raise KeyboardInterrupt | Raise EOFError => true
  | Raise _ => false
  end.

(** A step keeps the property [P]. *)
Definition keeps {St : Type} (P : St -> Prop) (st st' : St) : Prop :=
  P st -> P st'.

(* ------------------------------------------------------------------ *)
(** ** Connections come and go *)

Module Factory.

(** [factory.conn_id], beside the shared state in which [clients]
    lives. *)
Record t : Type := {
  conn_id : Z;
  shared : world
}.

Definition set_clients (cs : list Z) (w : world) : world :=
  {| disks := disks w; clients := cs;
     running_commands := running_commands w; sent := sent w; tr := tr w |}.

(** [connectionMade], on a protocol object just built: it takes the
    counter as its id, the counter moves on, and the object is entered
    in [clients]. *)
Definition connectionMade (f : t) : TurboProtocol.t * t :=
  let self := TurboProtocol.connectionMade (conn_id f) in
  let the_id := TurboProtocol._id self in
  let w := shared f in
  let w := set_clients (if existsb (Z.eqb the_id) (clients w)
                        then clients w else clients w ++ [the_id]) w in
  (self,
   {| conn_id := conn_id f + 1;
      shared := CommandRunner.set_tr
                  (add_log (Log DEBUG "Client connected" None) (tr w)) w |}).

(** [connectionLost]: [del clients[self._id]]. *)
Definition connectionLost (self : TurboProtocol.t) : M t unit :=
  fun f =>
    let the_id := TurboProtocol._id self in
    let w := shared f in
    let w := CommandRunner.set_tr
               (add_log (Log DEBUG "Client disconnected" None) (tr w)) w in
    if existsb (Z.eqb the_id) (clients w)
    then (Ok tt,
          {| conn_id := conn_id f;
             shared := set_clients
                         (filter (fun c => negb (Z.eqb the_id c)) (clients w))
                         w |})
    else (Raise KeyError, {| conn_id := conn_id f; shared := w |}).

(** What the reactor tells the factory's protocol objects. *)
Inductive event : Type :=
| Made
| Lost (self : TurboProtocol.t).

(** The protocol objects connected by [evs], oldest first, and the
    state afterwards. *)
Fixpoint serve (evs : list event) (f : t) : list TurboProtocol.t * t :=
  match evs with
  | [] => ([], f)
  | Made :: evs' =>
      let '(self, f) := connectionMade f in
      let '(made, f) := serve evs' f in
      (self :: made, f)
  | Lost self :: evs' => serve evs' (snd (connectionLost self f))
  end.

(** [main]: [factory.conn_id = 0], before any connection. *)
Definition listening (w : world) : t := {| conn_id := 0; shared := w |}.

End Factory.

(** Whenever the hours were read, so was whether they are exact. *)
Definition paired (f : Pestello.found) : Prop :=
  dict_mem (u "Power_On_Hours") f = true ->
  dict_mem (u "Power_On_Hours_Exact") f = true.

(** The faults with which a report can end the run: it cannot be opened,
    a line of its information section has no double space, a number in it
    is not one, or is too large to be divided. *)
Definition report_faults : list exn :=
  [OSError; IndexError; ValueError; OverflowError].

(** From [w] to [w'] the reactor was handed nothing, and the connections
    are as they were. *)
Definition quiet (w w' : world) : Prop :=
  sent w' = sent w /\ clients w' = clients w.

(** The record has no code yet and the inventory knows more than one for
    its serial. *)
Definition ambiguous (d : Disk.t) : Prop :=
  exists tarallo sn c1 c2 more,
    Disk._tarallo d = Some tarallo
    /\ truthy (Disk._code d) = false
    /\ dict_get (u "serial") (Disk._lsblk d) = Some (PStr sn)
    /\ get_codes_by_feature tarallo (u "sn") (Disk.normalize_serial sn)
       = Answer (c1 :: c2 :: more).

(* ================================================================== *)
(** * Properties *)

#[global] Arguments u : simpl never.
#[global] Arguments Disk.normalize_serial : simpl never.
#[global] Arguments Disk.duplicate_message : simpl never.
#[global] Arguments Disk.no_serial_message : simpl never.

Lemma last_cons_ne {A} (x : A) l d : l <> [] -> last (x :: l) d = last l d.
Proof. destruct l; [congruence | reflexivity]. Qed.

Lemma last_app_ne {A} (q l : list A) d : l <> [] -> last (q ++ l) d = last l d.
Proof.
  intros Hl. induction q as [|p q IH]; [reflexivity|].
  rewrite <- app_comm_cons, last_cons_ne; [exact IH|].
  destruct q; [exact Hl | discriminate].
Qed.

Lemma same_end_ascii b r s : same_end r s -> same_end (b :: r) (b :: s).
Proof.
  intros [Hn Hl]. split; [split; discriminate|].
  destruct r as [|x r], s as [|y s].
  - reflexivity.
  - destruct Hn as [_ Hn]. discriminate (Hn eq_refl).
  - destruct Hn as [Hn _]. discriminate (Hn eq_refl).
  - rewrite !last_cons_ne by discriminate. exact Hl.
Qed.

Lemma same_end_multi pre x c r s :
  same_end r s -> (128 <= c)%N -> (128 <= x)%N ->
  same_end (pre ++ x :: r) (c :: s).
Proof.
  intros [Hn Hl] Hc Hx. split.
  { split; [discriminate | destruct pre; discriminate]. }
  replace (pre ++ x :: r) with ((pre ++ [x]) ++ r) by (rewrite <- app_assoc; reflexivity).
  destruct r as [|y r], s as [|z s].
  - rewrite app_nil_r, last_last. simpl. lia.
  - destruct Hn as [_ Hn]. discriminate (Hn eq_refl).
  - destruct Hn as [Hn _]. discriminate (Hn eq_refl).
  - rewrite last_cons_ne by discriminate.
    rewrite last_app_ne by discriminate. exact Hl.
Qed.

Ltac range_facts :=
  unfold Utf8.in_range, Utf8.cont in *;
  repeat match goal with
         | H : (_ && _)%bool = true |- _ => apply andb_true_iff in H; destruct H
         | H : (_ <=? _)%N = true |- _ => apply N.leb_le in H
         | H : (_ <? _)%N = false |- _ => apply N.ltb_ge in H
         | H : (_ =? _)%N = true |- _ => apply N.eqb_eq in H
         | H : (_ =? _)%N = false |- _ => apply N.eqb_neq in H
         end.

Lemma decode_same_end_aux :
  forall n l s, (length l <= n)%nat -> Utf8.decode_N l = Some s -> same_end l s.
Proof.
  induction n as [|n IH]; intros l s Hn H.
  - destruct l; [|simpl in Hn; lia]. inversion H. split; reflexivity.
  - destruct l as [|b1 r1]; [inversion H; split; reflexivity|].
    cbn [Utf8.decode_N] in H. simpl in Hn.
    destruct (b1 <? 128)%N eqn:E1.
    { destruct (Utf8.decode_N r1) as [s1|] eqn:D1; [|discriminate].
      inversion H; subst s. apply same_end_ascii, IH; [lia | exact D1]. }
    destruct r1 as [|b2 r2]; [discriminate|]. simpl in Hn.
    destruct (Utf8.in_range 194 223 b1) eqn:E2.
    { destruct (Utf8.cont b2) eqn:K2; [|discriminate].
      destruct (Utf8.decode_N r2) as [s2|] eqn:D2; [|discriminate].
      inversion H; subst s. range_facts.
      apply (same_end_multi [b1]); [apply IH; [lia | exact D2] | lia | lia]. }
    destruct r2 as [|b3 r3]; [discriminate|]. simpl in Hn.
    destruct (Utf8.in_range 224 239 b1) eqn:E3.
    { match type of H with (if ?c then _ else _) = _ => destruct c eqn:K3 end;
        [|discriminate].
      destruct (Utf8.decode_N r3) as [s3|] eqn:D3; [|discriminate].
      inversion H; subst s.
      apply andb_true_iff in K3. destruct K3 as [K3 K3'].
      apply (same_end_multi [b1; b2]); [apply IH; [lia | exact D3] | | range_facts; lia].
      destruct (b1 =? 224)%N eqn:Ea; [range_facts; lia|].
      destruct (b1 =? 237)%N eqn:Eb; range_facts; lia. }
    destruct r3 as [|b4 r4]; [discriminate|]. simpl in Hn.
    destruct (Utf8.in_range 240 244 b1) eqn:E4; [|discriminate].
    match type of H with (if ?c then _ else _) = _ => destruct c eqn:K4 end;
      [|discriminate].
    destruct (Utf8.decode_N r4) as [s4|] eqn:D4; [|discriminate].
    inversion H; subst s.
    apply andb_true_iff in K4. destruct K4 as [K4 K4''].
    apply andb_true_iff in K4. destruct K4 as [K4 K4'].
    apply (same_end_multi [b1; b2; b3]); [apply IH; [lia | exact D4] | | range_facts; lia].
    destruct (b1 =? 240)%N eqn:Ea; [range_facts; lia|].
    destruct (b1 =? 244)%N eqn:Eb; range_facts; lia.
Qed.

Module TurboProtocolFacts.
Import TurboProtocol.

Lemma ends_with_cr_last s : ends_with_cr s = (last s 0 =? 13)%N.
Proof.
  unfold ends_with_cr.
  destruct s as [|c s _] using rev_ind; [reflexivity|].
  rewrite rev_app_distr, last_last. reflexivity.
Qed.

(** On valid UTF-8 the test the code makes on the decoded text is the test
    on the last byte received. *)
Lemma decode_ends_with_cr line s :
  Utf8.decode line = Some s -> ends_with_cr s = last_byte_is_cr line.
Proof.
  intros H. unfold last_byte_is_cr. rewrite !ends_with_cr_last.
  destruct (@decode_same_end_aux _ _ _ (le_n _) H) as [_ Hl].
  destruct (N.eqb_spec (last s 0%N) 13), (N.eqb_spec (last (map to_N line) 0%N) 13);
    tauto.
Qed.

(** What a line does to the protocol object. *)
Lemma lineReceived_fst py self line :
  fst (lineReceived py self line) =
  match Utf8.decode line with
  | None => self
  | Some s =>
      if negb (_delimiter_found self) then
        {| _id := _id self;
           delimiter := if ends_with_cr s then CRLF else delimiter self;
           _delimiter_found := true |}
      else self
  end.
Proof.
  unfold lineReceived.
  destruct (Utf8.decode line) as [s|]; [|reflexivity].
  destruct (startswith (u "exit") (strip s)); [reflexivity|].
  destruct (split1 32 (strip s)); reflexivity.
Qed.

Lemma lineReceived_found py self line :
  _delimiter_found self = true ->
  delimiter (fst (lineReceived py self line)) = delimiter self
  /\ _delimiter_found (fst (lineReceived py self line)) = true.
Proof.
  intros Hf. rewrite lineReceived_fst.
  destruct (Utf8.decode line) as [s|]; [|auto].
  rewrite Hf. auto.
Qed.

Lemma lineReceived_first py self line s :
  _delimiter_found self = false -> delimiter self = LF ->
  Utf8.decode line = Some s ->
  delimiter (fst (lineReceived py self line)) = delimiter_of line
  /\ _delimiter_found (fst (lineReceived py self line)) = true.
Proof.
  intros Hf Hd Hs. rewrite lineReceived_fst. unfold delimiter_of.
  rewrite Hs, Hf, Hd, (decode_ends_with_cr _ Hs). auto.
Qed.

Lemma lineReceived_dropped py self line :
  Utf8.decode line = None -> lineReceived py self line = (self, Dropped).
Proof. intros H. unfold lineReceived. rewrite H. reflexivity. Qed.

Lemma written_with_cons d e evs w :
  written_with d evs w -> written_with d (e :: evs) w.
Proof.
  intros (r & b & Hin & He & Hw). exists r, b.
  split; [right; exact Hin | auto].
Qed.

(** Once the delimiter is found it stays, and every write ends with it. *)
Lemma run_found py evs : forall self,
  _delimiter_found self = true ->
  delimiter (fst (run py self evs)) = delimiter self
  /\ _delimiter_found (fst (run py self evs)) = true
  /\ Forall (written_with (delimiter self) evs) (snd (run py self evs)).
Proof.
  induction evs as [|[line|response] evs IH]; intros self Hf.
  - simpl. auto.
  - simpl. destruct (lineReceived_found py self line Hf) as [Hd Hf'].
    destruct (IH _ Hf') as (H1 & H2 & H3). rewrite Hd in *.
    repeat split; auto.
    eapply Forall_impl; [|exact H3]. intros w. apply written_with_cons.
  - simpl. destruct (IH _ Hf) as (H1 & H2 & H3).
    destruct (run py self evs) as [self' out]. simpl in *.
    assert (Forall (written_with (delimiter self) (SendMsg response :: evs)) out).
    { eapply Forall_impl; [|exact H3]. intros w. apply written_with_cons. }
    unfold send_msg. rewrite Hf.
    destruct (Utf8.encode response) as [b|] eqn:E; simpl; repeat split; auto.
    constructor; auto. exists response, b. simpl; auto.
Qed.

(** Before it is found nothing is written. *)
Lemma run_not_found py evs : forall self,
  _delimiter_found self = false -> delimiter self = LF ->
  let d := match first_decoded_line evs with
           | Some line => delimiter_of line
           | None => LF
           end in
  delimiter (fst (run py self evs)) = d
  /\ _delimiter_found (fst (run py self evs))
     = match first_decoded_line evs with Some _ => true | None => false end
  /\ Forall (written_with d evs) (snd (run py self evs))
  /\ (first_decoded_line evs = None -> snd (run py self evs) = []).
Proof.
  induction evs as [|[line|response] evs IH]; intros self Hf Hd.
  - simpl. auto.
  - simpl. destruct (Utf8.decode line) as [s|] eqn:E.
    + destruct (lineReceived_first py self line Hf Hd E) as [Hd' Hf'].
      destruct (run_found py evs _ Hf') as (H1 & H2 & H3).
      rewrite Hd' in *. repeat split; auto.
      * eapply Forall_impl; [|exact H3]. intros w. apply written_with_cons.
      * discriminate.
    + rewrite (lineReceived_dropped py self line E). simpl.
      destruct (IH self Hf Hd) as (H1 & H2 & H3 & H4).
      repeat split; auto.
      eapply Forall_impl; [|exact H3]. intros w. apply written_with_cons.
  - simpl. destruct (IH self Hf Hd) as (H1 & H2 & H3 & H4).
    destruct (run py self evs) as [self' out]. simpl in *.
    unfold send_msg. rewrite Hf. simpl. repeat split; auto.
    eapply Forall_impl; [|exact H3]. intros w. apply written_with_cons.
Qed.

End TurboProtocolFacts.

(** C2 (as amended). The first received line that is valid UTF-8 fixes the
    delimiter of the connection: carriage return and newline if its last
    byte is a carriage return, newline otherwise. From then on the
    delimiter never changes, and every response written, then and for the
    rest of the connection's life, ends with it. Until such a line arrives
    nothing is written. *)
Theorem delimiter_fixed_by_first_decoded_line
        (py : Builtins) (conn_id : Z) (evs : list TurboProtocol.event) :
  let r := TurboProtocol.run py (TurboProtocol.connectionMade conn_id) evs in
  match TurboProtocol.first_decoded_line evs with
  | Some line =>
      let d := TurboProtocol.delimiter_of line in
      TurboProtocol.delimiter (fst r) = d
      /\ TurboProtocol._delimiter_found (fst r) = true
      /\ Forall (TurboProtocol.written_with d evs) (snd r)
      /\ forall more : list TurboProtocol.event,
          let r' := TurboProtocol.run py (fst r) more in
          TurboProtocol.delimiter (fst r') = d
          /\ Forall (TurboProtocol.written_with d more) (snd r')
  | None =>
      TurboProtocol._delimiter_found (fst r) = false /\ snd r = []
  end.
Proof.
  cbv zeta.
  destruct (@TurboProtocolFacts.run_not_found py evs
              (TurboProtocol.connectionMade conn_id) eq_refl eq_refl)
    as (Hd & Hf & Hw & Hn).
  destruct (TurboProtocol.first_decoded_line evs) as [line|].
  - repeat split; auto.
    + destruct (@TurboProtocolFacts.run_found py more _ Hf) as (H1 & _ & _).
      congruence.
    + destruct (@TurboProtocolFacts.run_found py more _ Hf) as (_ & _ & H3).
      rewrite Hd in H3. exact H3.
  - auto.
Qed.

(** C2 (as stated) fails: the first line received ends with a carriage
    return but is not valid UTF-8, so it is dropped; the second line fixes
    the delimiter to a newline and [pong] is written with it. *)
Lemma undecodable_first_line_does_not_fix_the_delimiter :
  let evs := [TurboProtocol.LineReceived [xff; x0d];
              TurboProtocol.LineReceived (Example.ascii "ping");
              TurboProtocol.SendMsg (u "pong")] in
  let r := TurboProtocol.run ascii_builtins (TurboProtocol.connectionMade 0)
                             evs in
  TurboProtocol.first_line evs = Some [xff; x0d]
  /\ TurboProtocol.delimiter_of [xff; x0d] = TurboProtocol.CRLF
  /\ TurboProtocol.delimiter (fst r) = TurboProtocol.LF
  /\ snd r = [Example.ascii "pong" ++ TurboProtocol.LF].
Proof. vm_compute. repeat split; reflexivity. Qed.

(** Unfolds the methods of a disk record applied to a state. *)
Tactic Notation "run_method" "in" hyp(H) :=
  unfold Disk.update_if_needed, Disk.update_status, Disk._get_code, Disk._get_item, Disk.self,
    Disk.set_code, Disk.set_item, Disk.called, Disk.logging, bind, ret, raise, modify,
    lift_result, of_answer in H; cbn beta iota in H.

Tactic Notation "run_method" :=
  unfold Disk.update_if_needed, Disk.update_status, Disk._get_code, Disk._get_item, Disk.self,
    Disk.set_code, Disk.set_item, Disk.called, Disk.logging, bind, ret, raise, modify,
    lift_result, of_answer; cbn beta iota.

(** Follows every path of a method whose result is given by [H]. *)
Ltac paths H :=
  run_method in H; cbn [fst snd] in H;
  repeat match type of H with
         | context [match ?x with _ => _ end] =>
             lazymatch x with
             | context [match _ with _ => _ end] => fail
             | _ => destruct x eqn:?; cbn [fst snd] in H
             end
         end;
  try discriminate H.


Module DiskFacts.
Import Disk.

Lemma dict_mem_get V k (d : list (pystr * V)) v :
  dict_get k d = Some v -> dict_mem k d = true.
Proof. unfold dict_mem. intros ->. reflexivity. Qed.

Lemma dict_mem_false V k (d : list (pystr * V)) :
  dict_mem k d = false -> dict_get k d = None.
Proof. unfold dict_mem. destruct (dict_get k d); [discriminate | reflexivity]. Qed.

Theorem ambiguous_lookup_leaves_code_unset
        (stop_on_error : bool) (d : t) (tr : trace) (tarallo : Tarallo)
        (sn : pystr) (codes : list pystr) :
  _tarallo d = Some tarallo ->
  dict_get (u "serial") (_lsblk d) = Some (PStr sn) ->
  get_codes_by_feature tarallo (u "sn") (normalize_serial sn) = Answer codes ->
  (1 < length codes)%nat ->
  _get_code stop_on_error (d, tr)
  = (if stop_on_error
     then Raise (ErrorThatCanBeManuallyFixed
                   (duplicate_message (_path d) codes (normalize_serial sn)))
     else Ok tt,
     (with_code None d,
      add_call (CallGetCodes (u "sn") (normalize_serial sn)) tr)).
Proof.
  intros Ht Hs Hc Hlen. run_method. cbn [fst].
  rewrite Ht, (dict_mem_get _ _ Hs), Hs. cbn.
  rewrite Hc.
  destruct codes as [|c1 [|c2 codes]]; [simpl in Hlen; lia ..|].
  destruct stop_on_error; reflexivity.
Qed.

Lemma manually_fixable_leaves_code_unset d tr message d' tr' :
  update_if_needed (d, tr)
  = (Raise (ErrorThatCanBeManuallyFixed message), (d', tr')) ->
  _code d' = None.
Proof.
  intros H. paths H; inversion H; subst; reflexivity.
Qed.

Lemma update_status_raises s d tr e st :
  update_status s (d, tr) = (Raise e, st) ->
  truthy (_code d) = true /\ fst st = d.
Proof.
  intros H. paths H; inversion H; subst; auto.
Qed.

Lemma update_status_unset s d tr :
  truthy (_code d) = false -> update_status s (d, tr) = (Ok tt, (d, tr)).
Proof.
  intros H. run_method. cbn [fst].
  destruct (_tarallo d); [|reflexivity].
  destruct (_code d); [|reflexivity]. rewrite H. reflexivity.
Qed.
End DiskFacts.

(** C4. Whenever the inventory answers more than one code for the
    normalized serial, [_get_code] leaves the record without a code; in
    strict mode it raises [ErrorThatCanBeManuallyFixed], otherwise it
    returns. No code of the answer is kept. *)
Theorem ambiguous_lookup_never_assigns_a_code
        (stop_on_error : bool) (d : Disk.t) (tr : trace) (tarallo : Tarallo)
        (sn : pystr) (codes : list pystr) :
  Disk._tarallo d = Some tarallo ->
  dict_get (u "serial") (Disk._lsblk d) = Some (PStr sn) ->
  get_codes_by_feature tarallo (u "sn") (Disk.normalize_serial sn)
  = Answer codes ->
  (1 < length codes)%nat ->
  let after := snd (Disk._get_code stop_on_error (d, tr)) in
  Disk._code (fst after) = None
  /\ fst (Disk._get_code stop_on_error (d, tr))
     = if stop_on_error
       then Raise (ErrorThatCanBeManuallyFixed
                     (Disk.duplicate_message (Disk._path d) codes
                                             (Disk.normalize_serial sn)))
       else Ok tt.
Proof.
  intros Ht Hs Hc Hlen. cbv zeta.
  rewrite (DiskFacts.ambiguous_lookup_leaves_code_unset _ _ _ Ht Hs Hc Hlen).
  split; reflexivity.
Qed.

Lemma ambiguous_lookup_never_assigns_a_code_witness :
  Disk._code
    (fst (snd (Disk._get_code true
                 (Example.sda_disk (Some Example.two_matches) None,
                  Example.no_trace)))) = None
  /\ fst (Disk._get_code true
            (Example.sda_disk (Some Example.two_matches) None,
             Example.no_trace))
     = Raise (ErrorThatCanBeManuallyFixed
                (Disk.duplicate_message (u "/dev/sda") [u "AB12"; u "CD34"]
                                        (u "ABC123"))).
Proof.
  exact (@ambiguous_lookup_never_assigns_a_code true
           (Example.sda_disk (Some Example.two_matches) None)
           Example.no_trace Example.two_matches (u "WD-ABC123")
           [u "AB12"; u "CD34"] eq_refl eq_refl eq_refl (le_n 2)).
Defined.

(** C5. On a record whose code is set, [update_if_needed] keeps the code,
    whatever the inventory answers, and asks the inventory for nothing but
    the item of that code: there is no look-up by serial. *)
Theorem update_if_needed_keeps_a_set_code (d : Disk.t) (tr : trace) :
  truthy (Disk._code d) = true ->
  let after := snd (Disk.update_if_needed (d, tr)) in
  Disk._code (fst after) = Disk._code d
  /\ calls (snd after)
     = calls tr ++ match Disk._tarallo d, Disk._code d with
                   | Some _, Some code => [CallGetItem code]
                   | _, _ => []
                   end
  /\ logs (snd after) = logs tr.
Proof.
  intros H. cbv zeta. destruct d as [l p c i t]. cbn [Disk._code] in *.
  run_method. cbn [fst snd Disk._code Disk._tarallo].
  rewrite H. cbn [negb fst snd Disk._code Disk._tarallo].
  destruct t as [t|], c as [c|]; try discriminate H;
    cbn [fst snd Disk._code Disk.with_item]; rewrite ?app_nil_r; auto.
  rewrite H. cbn [fst snd add_call calls logs].
  destruct (get_item t c 0); cbn; auto.
Qed.

Lemma update_if_needed_keeps_a_set_code_witness :
  let d := Example.sda_disk (Some Example.two_matches) (Some (u "AB12")) in
  let after := snd (Disk.update_if_needed (d, Example.no_trace)) in
  Disk._code (fst after) = Some (u "AB12")
  /\ calls (snd after) = [CallGetItem (u "AB12")]
  /\ logs (snd after) = [].
Proof.
  exact (@update_if_needed_keeps_a_set_code
           (Example.sda_disk (Some Example.two_matches) (Some (u "AB12")))
           Example.no_trace eq_refl).
Defined.

(** C3 (as amended). When the inventory answers more than one code for the
    serial of a disk: [Disk(lsblk, tarallo)] returns the record with no code
    and no item, raises nothing and logs nothing; [update_if_needed] on a
    record without a code leaves it without one and raises
    [ErrorThatCanBeManuallyFixed], which [update_disk_if_needed] passes to
    [send_msg] under the command word [error_that_can_be_manually_fixed]. *)
Theorem ambiguity_is_silent_when_built_and_raised_on_retry
        (py : Builtins) (tarallo : Tarallo) (lsblk : dict) (path : pyval)
        (sn : pystr) (codes : list pystr) (t : trace) :
  dict_get (u "path") lsblk = Some path ->
  dict_get (u "serial") lsblk = Some (PStr sn) ->
  get_codes_by_feature tarallo (u "sn") (Disk.normalize_serial sn)
  = Answer codes ->
  (1 < length codes)%nat ->
  let looked_up :=
    add_call (CallGetCodes (u "sn") (Disk.normalize_serial sn)) t in
  let built :=
    {| Disk._lsblk := lsblk; Disk._path := py_str py path;
       Disk._code := None; Disk._item := None;
       Disk._tarallo := Some tarallo |} in
  Disk.__init__ py (PDict lsblk) (Some tarallo) t = (Ok built, looked_up)
  /\ forall d : Disk.t,
      Disk._tarallo d = Some tarallo -> Disk._lsblk d = lsblk ->
      truthy (Disk._code d) = false ->
      let message := Disk.duplicate_message (Disk._path d) codes
                                            (Disk.normalize_serial sn) in
      Disk.update_if_needed (d, t)
      = (Raise (ErrorThatCanBeManuallyFixed message),
         (Disk.with_code None d, looked_up))
      /\ forall (the_id : Z) (key : pystr) (w : world),
          dict_get key (disks w) = Some (Some d) -> t = tr w ->
          CommandRunner.update_disk_if_needed the_id key w
          = CommandRunner.send_msg the_id
              (u "error_that_can_be_manually_fixed")
              (Some (PDict [(u "message", PStr message);
                            (u "disk", PObject (u "Disk"))]))
              (CommandRunner.set_tr looked_up
                 (CommandRunner.set_disks
                    (dict_set key (Some (Disk.with_code None d)) (disks w))
                    w)).
Proof.
  intros Hp Hs Hc Hlen. cbv zeta. split.
  - unfold Disk.__init__. rewrite Hp. unfold bind at 1.
    rewrite (@DiskFacts.ambiguous_lookup_leaves_code_unset false
               {| Disk._lsblk := lsblk; Disk._path := py_str py path;
                  Disk._code := None; Disk._item := None;
                  Disk._tarallo := Some tarallo |}
               t tarallo sn codes eq_refl Hs Hc Hlen).
    reflexivity.
  - intros d Ht Hl Hcode.
    assert (Disk.update_if_needed (d, t)
            = (Raise (ErrorThatCanBeManuallyFixed
                        (Disk.duplicate_message (Disk._path d) codes
                                                (Disk.normalize_serial sn))),
               (Disk.with_code None d,
                add_call (CallGetCodes (u "sn") (Disk.normalize_serial sn)) t)))
      as Hu.
    { subst lsblk. unfold Disk.update_if_needed, bind at 1 2. unfold Disk.self at 1.
      cbn [fst]. rewrite Hcode. cbn [negb].
      rewrite (@DiskFacts.ambiguous_lookup_leaves_code_unset true d t tarallo
                 sn codes Ht Hs Hc Hlen).
      reflexivity. }
    split; [exact Hu|].
    intros the_id key w Hk ->.
    unfold CommandRunner.update_disk_if_needed, try_except,
      CommandRunner.on_disk.
    rewrite Hk, Hu. reflexivity.
Qed.

Lemma ambiguity_is_silent_when_built_and_raised_on_retry_witness :
  let looked_up := add_call (CallGetCodes (u "sn") (u "ABC123"))
                            Example.no_trace in
  let d := Example.sda_disk (Some Example.two_matches) None in
  Disk.__init__ ascii_builtins (PDict Example.sda)
                (Some Example.two_matches) Example.no_trace
  = (Ok d, looked_up)
  /\ Disk.update_if_needed (d, Example.no_trace)
     = (Raise (ErrorThatCanBeManuallyFixed
                 (Disk.duplicate_message (u "/dev/sda") [u "AB12"; u "CD34"]
                                         (u "ABC123"))),
        (d, looked_up)).
Proof.
  destruct (@ambiguity_is_silent_when_built_and_raised_on_retry
              ascii_builtins Example.two_matches Example.sda
              (PStr (u "/dev/sda")) (u "WD-ABC123") [u "AB12"; u "CD34"]
              Example.no_trace eq_refl eq_refl eq_refl (le_n 2)) as [H1 H2].
  split; [exact H1|].
  exact (proj1 (H2 (Example.sda_disk (Some Example.two_matches) None)
                   eq_refl eq_refl eq_refl)).
Defined.

(** C3 (as stated) fails, both ways: with two inventory matches for its
    serial, building the record of [/dev/sda] raises nothing (there is
    nothing to surface) and logs nothing, and re-resolving it raises. *)
Lemma ambiguity_modes_are_the_other_way_round :
  let d := Example.sda_disk (Some Example.two_matches) None in
  let built := Disk.__init__ ascii_builtins (PDict Example.sda)
                             (Some Example.two_matches) Example.no_trace in
  let retried := Disk.update_if_needed (d, Example.no_trace) in
  fst built = Ok d
  /\ logs (snd built) = []
  /\ fst retried
     = Raise (ErrorThatCanBeManuallyFixed
                (u "Duplicate codes for /dev/sda: AB12 CD34, S/N is ABC123"))
  /\ logs (snd (snd retried)) = [].
Proof. vm_compute. repeat split; reflexivity. Qed.

(** C9. With the inventory enabled, on enumeration data without a [serial]
    key: [_get_code] in non-strict mode sets the code to [None] and then
    raises [KeyError] on reading the key, and building a record from such
    data always raises ([KeyError] when the data has a path). *)
Theorem serial_less_disk_raises_key_error
        (py : Builtins) (tarallo : Tarallo) (lsblk : dict) (tr : trace) :
  dict_mem (u "serial") lsblk = false ->
  (forall d : Disk.t,
      Disk._tarallo d = Some tarallo -> Disk._lsblk d = lsblk ->
      Disk._get_code false (d, tr)
      = (Raise KeyError, (Disk.with_code None d, tr)))
  /\ exists e,
      Disk.__init__ py (PDict lsblk) (Some tarallo) tr = (Raise e, tr)
      /\ (dict_mem (u "path") lsblk = true -> e = KeyError).
Proof.
  intros Hs.
  assert (forall d : Disk.t,
             Disk._tarallo d = Some tarallo -> Disk._lsblk d = lsblk ->
             Disk._get_code false (d, tr)
             = (Raise KeyError, (Disk.with_code None d, tr))) as Hg.
  { intros d Ht Hl. run_method. cbn [fst].
    rewrite Ht, Hl, Hs, (DiskFacts.dict_mem_false _ _ Hs). reflexivity. }
  split; [exact Hg|].
  unfold Disk.__init__, dict_mem.
  destruct (dict_get (u "path") lsblk) as [p|].
  - exists KeyError. unfold bind at 1. rewrite Hg by reflexivity. auto.
  - exists TypeError. split; [reflexivity | discriminate].
Qed.

Lemma serial_less_disk_raises_key_error_witness :
  (forall d : Disk.t,
      Disk._tarallo d = Some Example.one_match ->
      Disk._lsblk d = Example.sda_no_serial ->
      Disk._get_code false (d, Example.no_trace)
      = (Raise KeyError, (Disk.with_code None d, Example.no_trace)))
  /\ exists e,
      Disk.__init__ ascii_builtins (PDict Example.sda_no_serial)
                    (Some Example.one_match) Example.no_trace
      = (Raise e, Example.no_trace)
      /\ (dict_mem (u "path") Example.sda_no_serial = true -> e = KeyError).
Proof.
  exact (@serial_less_disk_raises_key_error ascii_builtins Example.one_match
           Example.sda_no_serial Example.no_trace eq_refl).
Defined.

(** ** Strings as keys *)

Lemma str_eqb_spec a b : reflect (a = b) (str_eqb a b).
Proof.
  revert b. induction a as [|x a IH]; intros [|y b]; simpl;
    try (constructor; congruence).
  destruct (N.eqb_spec x y) as [->|Hn]; simpl.
  - destruct (IH b) as [->|Hn]; constructor; congruence.
  - constructor. congruence.
Qed.

Lemma str_eqb_refl a : str_eqb a a = true.
Proof. destruct (str_eqb_spec a a); congruence. Qed.

Section DictFacts.
Variable V : Type.
Implicit Types d : list (pystr * V).

Lemma dict_get_set_same k v d : dict_get k (dict_set k v d) = Some v.
Proof.
  induction d as [|[k' v'] d IH]; simpl.
  - rewrite str_eqb_refl. reflexivity.
  - destruct (str_eqb k' k) eqn:E; simpl; rewrite E; auto.
Qed.

Lemma dict_get_set_other k p v d :
  p <> k -> dict_get p (dict_set k v d) = dict_get p d.
Proof.
  intros Hn. induction d as [|[k' v'] d IH]; simpl.
  - destruct (str_eqb_spec k p); [congruence | reflexivity].
  - destruct (str_eqb_spec k' k) as [->|Hk]; simpl.
    + destruct (str_eqb_spec k p); [congruence | reflexivity].
    + destruct (str_eqb k' p); auto.
Qed.


Lemma dict_get_in_keys k d v : dict_get k d = Some v -> In k (dict_keys d).
Proof.
  induction d as [|[k' v'] d IH]; simpl; [discriminate|].
  destruct (str_eqb_spec k' k); [auto | intros H; right; auto].
Qed.
End DictFacts.

(** ** Stability of a relation on the state under monadic code *)

Section Respects.
Variable St : Type.
Variable R : St -> St -> Prop.
Hypothesis R_refl : forall s, R s s.
Hypothesis R_trans : forall a b c, R a b -> R b c -> R a c.

Lemma respects_ret A (a : A) : respects R (ret a).
Proof. intros s. apply R_refl. Qed.

Lemma respects_raise A e : respects R (@raise St A e).
Proof. intros s. apply R_refl. Qed.

Lemma respects_get : respects R (@get St).
Proof. intros s. apply R_refl. Qed.

Lemma respects_lift_result A (r : result A) : respects R (@lift_result St A r).
Proof. intros s. apply R_refl. Qed.

Lemma respects_modify f : (forall s, R s (f s)) -> respects R (modify f).
Proof. intros H s. apply H. Qed.

Lemma respects_bind A B (m : M St A) (k : A -> M St B) :
  respects R m -> (forall a, respects R (k a)) -> respects R (bind m k).
Proof.
  intros Hm Hk s. unfold bind. specialize (Hm s).
  destruct (m s) as [[a|e] s']; simpl in *; [|exact Hm].
  eapply R_trans; [exact Hm | apply Hk].
Qed.

Lemma respects_try_except A (m : M St A) h :
  respects R m -> (forall e, respects R (h e)) -> respects R (try_except m h).
Proof.
  intros Hm Hh s. unfold try_except. specialize (Hm s).
  destruct (m s) as [[a|e] s']; simpl in *; [exact Hm|].
  eapply R_trans; [exact Hm | apply Hh].
Qed.
End Respects.

Lemma respects_weaken St (R R' : St -> St -> Prop) A (m : M St A) :
  (forall s s', R s s' -> R' s s') -> respects R m -> respects R' m.
Proof. intros H Hm s. apply H, Hm. Qed.

Ltac respects_with refl trans known :=
  repeat first
    [ solve [known]
    | apply (respects_ret _ refl)
    | apply (respects_raise _ refl)
    | apply (respects_get _ refl)
    | apply (respects_lift_result _ refl)
    | apply (respects_bind trans); [|intros]
    | apply (respects_try_except trans); [|intros]
    | match goal with
      | |- respects _ (match ?x with _ => _ end) => destruct x
      end ].

(** ** The trace only grows *)

Lemma trace_grows_refl t : trace_grows t t.
Proof. split; exists []; rewrite app_nil_r; reflexivity. Qed.

Lemma trace_grows_trans a b c :
  trace_grows a b -> trace_grows b c -> trace_grows a c.
Proof.
  intros [[c1 H1] [l1 H2]] [[c2 H3] [l2 H4]]. split.
  - exists (c1 ++ c2). rewrite H3, H1, app_assoc. reflexivity.
  - exists (l1 ++ l2). rewrite H4, H2, app_assoc. reflexivity.
Qed.

Lemma trace_grows_call c t : trace_grows t (add_call c t).
Proof. split; simpl; [exists [c] | exists []; rewrite app_nil_r]; reflexivity. Qed.

Lemma trace_grows_log l t : trace_grows t (add_log l t).
Proof. split; simpl; [exists []; rewrite app_nil_r | exists [l]]; reflexivity. Qed.

Lemma trace_grows_In_call c t t' :
  trace_grows t t' -> In c (calls t) -> In c (calls t').
Proof. intros [[x ->] _] H. apply in_or_app. auto. Qed.

Lemma trace_grows_In_log l t t' :
  trace_grows t t' -> In l (logs t) -> In l (logs t').
Proof. intros [_ [x ->]] H. apply in_or_app. auto. Qed.

Lemma respects_add_call c : respects trace_grows (modify (add_call c)).
Proof. intros t. apply trace_grows_call. Qed.

Create HintDb trace_frame.
#[global] Hint Resolve respects_add_call : trace_frame.

Ltac trace_frame :=
  respects_with trace_grows_refl trace_grows_trans ltac:(auto with trace_frame).

Lemma respects_get_disks env path : respects trace_grows (get_disks env path).
Proof. unfold get_disks. trace_frame. Qed.

Lemma respects_get_disks_win env : respects trace_grows (get_disks_win env).
Proof. unfold get_disks_win. trace_frame. Qed.

(** ** Methods of a disk record keep what identifies it *)

Module DiskFrame.
Import Disk.

Lemma same_disk_refl s : same_disk s s.
Proof. repeat split; auto; apply trace_grows_refl. Qed.

Lemma same_disk_trans a b c : same_disk a b -> same_disk b c -> same_disk a c.
Proof.
  intros (H1 & H2 & H3 & H4) (H5 & H6 & H7 & H8).
  repeat split; try congruence; eapply trace_grows_trans; eauto.
Qed.

Lemma respects_set_code c : respects same_disk (set_code c).
Proof. intros [d tr]. repeat split; auto; apply trace_grows_refl. Qed.

Lemma respects_set_item i : respects same_disk (set_item i).
Proof. intros [d tr]. repeat split; auto; apply trace_grows_refl. Qed.

Lemma respects_called A c (r : answer A) : respects same_disk (called c r).
Proof.
  intros [d tr]. unfold called, bind, modify, lift_result, of_answer. simpl.
  destruct r; repeat split; auto; apply trace_grows_call.
Qed.

Lemma respects_logging l s : respects same_disk (logging l s).
Proof. intros [d tr]. repeat split; auto; apply trace_grows_log. Qed.

Lemma respects_self : respects same_disk self.
Proof. intros s. apply same_disk_refl. Qed.

Create HintDb disk_frame.
#[local] Hint Resolve respects_set_code respects_set_item respects_called
  respects_logging respects_self : disk_frame.

Ltac disk_frame :=
  respects_with same_disk_refl same_disk_trans ltac:(auto with disk_frame).

Lemma respects_get_code stop : respects same_disk (_get_code stop).
Proof. unfold _get_code. disk_frame. Qed.

Lemma respects_get_item : respects same_disk _get_item.
Proof. unfold _get_item. disk_frame. Qed.

Lemma respects_update_if_needed : respects same_disk update_if_needed.
Proof.
  pose proof respects_get_code. pose proof respects_get_item.
  unfold update_if_needed. disk_frame.
Qed.

Lemma respects_update_status s : respects same_disk (update_status s).
Proof. unfold update_status. disk_frame. Qed.

Lemma same_disk_grows s s' : same_disk s s' -> method_grows s s'.
Proof. intros (_ & _ & _ & H). exact H. Qed.

Lemma grows_update_if_needed : respects method_grows update_if_needed.
Proof.
  eapply respects_weaken; [apply same_disk_grows|].
  apply respects_update_if_needed.
Qed.

Lemma grows_update_status s : respects method_grows (update_status s).
Proof.
  eapply respects_weaken; [apply same_disk_grows|].
  apply respects_update_status.
Qed.

Lemma grows_serialize_disk : respects method_grows serialize_disk.
Proof. intros [d tr]. apply trace_grows_refl. Qed.

Lemma respects_init py lsblk tarallo :
  respects trace_grows (__init__ py lsblk tarallo).
Proof.
  intros tr. unfold __init__.
  destruct lsblk as [| | |s|l|d|c]; try apply trace_grows_refl.
  - destruct (str_contains (u "path") s); apply trace_grows_refl.
  - destruct (dict_get (u "path") d) as [p|]; [|apply trace_grows_refl].
    match goal with
    | |- context [(?m) (?new, tr)] =>
        assert (respects same_disk m) as Hm
          by (pose proof (respects_get_code false);
              pose proof respects_get_item; disk_frame);
        specialize (Hm (new, tr)); destruct (m (new, tr)) as [[[]|e] [d' tr']]
    end; apply Hm.
Qed.

End DiskFrame.

(** ** What a command thread may do to the shared state *)

Module RunnerFrame.
Import CommandRunner.

Lemma sent_nothing the_id (w : world) :
  exists extra, sent w = sent w ++ extra /\ Forall (manual the_id) extra.
Proof. exists []. rewrite app_nil_r. auto. Qed.

Lemma evolves_intro the_id touched w w' :
  clients w' = clients w -> running_commands w' = running_commands w ->
  (forall p, ~ touched p -> dict_get p (disks w') = dict_get p (disks w)) ->
  trace_grows (tr w) (tr w') ->
  (exists extra, sent w' = sent w ++ extra /\ Forall (manual the_id) extra) ->
  evolves the_id touched w w'.
Proof. unfold evolves. auto. Qed.

Lemma evolves_refl the_id touched w : evolves the_id touched w w.
Proof.
  apply evolves_intro; auto using trace_grows_refl, sent_nothing.
Qed.

Lemma evolves_trans the_id touched a b c :
  evolves the_id touched a b -> evolves the_id touched b c ->
  evolves the_id touched a c.
Proof.
  intros (H1 & H2 & H3 & H4 & x & H5 & H6) (K1 & K2 & K3 & K4 & y & K5 & K6).
  apply evolves_intro; try congruence.
  - intros p Hp. rewrite K3, H3; auto.
  - eapply trace_grows_trans; eauto.
  - exists (x ++ y). rewrite K5, H5, app_assoc. split; auto.
    apply Forall_app; auto.
Qed.

Lemma evolves_weaken the_id (t1 t2 : pystr -> Prop) w w' :
  (forall p, t1 p -> t2 p) -> evolves the_id t1 w w' -> evolves the_id t2 w w'.
Proof.
  intros Hs (H1 & H2 & H3 & H4 & H5). apply evolves_intro; auto.
Qed.

Section Frame.
Variable the_id : Z.
Variable touched : pystr -> Prop.

Lemma stable_logging lvl text exc : respects (evolves the_id touched) (logging lvl text exc).
Proof.
  intros w. unfold logging, modify. simpl.
  apply evolves_intro; simpl; auto using sent_nothing, trace_grows_log.
Qed.

Lemma stable_traced A (m : M trace A) :
  respects trace_grows m -> respects (evolves the_id touched) (traced m).
Proof.
  intros Hm w. unfold traced. specialize (Hm (tr w)).
  destruct (m (tr w)) as [r t]. simpl in *.
  apply evolves_intro; simpl; auto using sent_nothing.
Qed.

Lemma stable_on_disk A key (m : Disk.method A) :
  touched key ->
  respects (fun s s' => trace_grows (snd s) (snd s')) m ->
  respects (evolves the_id touched) (on_disk key m).
Proof.
  intros Hk Hm w. unfold on_disk.
  destruct (dict_get key (disks w)) as [[d|]|];
    try apply evolves_refl.
  specialize (Hm (d, tr w)). destruct (m (d, tr w)) as [r [d' t]].
  simpl in *. apply evolves_intro; simpl; auto using sent_nothing.
  intros p Hp. apply dict_get_set_other. intros ->. auto.
Qed.

Lemma stable_store key d :
  touched key ->
  respects (evolves the_id touched) (modify (fun w => set_disks (dict_set key (Some d) (disks w)) w)).
Proof.
  intros Hk w. unfold modify. simpl.
  apply evolves_intro; simpl; auto using sent_nothing, trace_grows_refl.
  intros p Hp. apply dict_get_set_other. intros ->. auto.
Qed.

Lemma stable_hand_off m :
  manual the_id m -> respects (evolves the_id touched) (modify (hand_off m)).
Proof.
  intros Hm w. unfold modify. simpl.
  apply evolves_intro; simpl; auto using trace_grows_refl.
  exists [m]. split; [reflexivity | auto].
Qed.

Lemma stable_send_manual param :
  respects (evolves the_id touched) (send_msg the_id (u "error_that_can_be_manually_fixed") param).
Proof.
  intros w. unfold send_msg, bind, get.
  destruct (existsb (Z.eqb the_id) (clients w)); [|apply stable_logging].
  destruct param as [p|].
  - unfold lift_result, _encode_param.
    destruct (json_serializable p); [|apply evolves_refl].
    apply stable_hand_off. split; reflexivity.
  - apply stable_hand_off. split; reflexivity.
Qed.

Create HintDb runner_frame.
Hint Resolve stable_logging stable_traced stable_on_disk stable_store
  stable_send_manual respects_get_disks respects_get_disks_win
  DiskFrame.respects_init DiskFrame.grows_update_if_needed
  DiskFrame.grows_update_status DiskFrame.grows_serialize_disk
  respects_add_call : runner_frame.

Ltac runner_frame :=
  respects_with (@evolves_refl the_id touched)
                (@evolves_trans the_id touched)
                ltac:(auto with runner_frame).

Lemma stable_update_disk_if_needed key :
  touched key -> respects (evolves the_id touched) (update_disk_if_needed the_id key).
Proof. intros Hk. unfold update_disk_if_needed. runner_frame. Qed.

Hint Resolve stable_update_disk_if_needed : runner_frame.

Lemma stable_get_smartctl env dev :
  touched dev -> respects (evolves the_id touched) (get_smartctl env dev the_id).
Proof. intros Hk. unfold get_smartctl. runner_frame. Qed.

Lemma stable_get_disk_to_send py env disk result :
  touched disk -> respects (evolves the_id touched) (get_disk_to_send py env the_id disk result).
Proof. intros Hk. unfold get_disk_to_send. runner_frame. Qed.

Lemma stable_get_disks_loop py env keys : forall result,
  (forall k, In k keys -> touched k) ->
  respects (evolves the_id touched) (get_disks_loop py env the_id keys result).
Proof.
  induction keys as [|k keys IH]; intros result Hk; simpl.
  - apply respects_ret, evolves_refl.
  - apply (respects_bind (@evolves_trans the_id touched)).
    + apply stable_get_disk_to_send. apply Hk. left. reflexivity.
    + intros r. apply IH. intros k' Hin. apply Hk. right. exact Hin.
Qed.
End Frame.

End RunnerFrame.

Module ExecFacts.
Import CommandRunner RunnerFrame.

Lemma stable_get_disks_to_send py env the_id :
  respects (evolves the_id anywhere) (get_disks_to_send py env the_id).
Proof.
  unfold get_disks_to_send.
  apply (respects_bind (@evolves_trans the_id anywhere));
    [apply respects_get, evolves_refl | intros w].
  apply (respects_bind (@evolves_trans the_id anywhere));
    [|intros; apply respects_ret, evolves_refl].
  apply stable_get_disks_loop. intros; exact I.
Qed.

Lemma stable_dispatch py env cmd args the_id :
  respects (evolves the_id anywhere) (dispatch py env cmd args the_id).
Proof.
  pose proof (@stable_get_smartctl the_id anywhere env args I).
  pose proof (stable_get_disks_to_send py env the_id).
  pose proof (@stable_traced the_id anywhere _ _ (respects_get_disks_win env)).
  unfold dispatch.
  respects_with (@evolves_refl the_id anywhere)
                (@evolves_trans the_id anywhere) ltac:(assumption).
Qed.

(** The command word [dispatch] returns. *)
Lemma dispatch_tag py env cmd args the_id w c p w' :
  dispatch py env cmd args the_id w = (Ok (c, p), w') -> c = reply_tag cmd.
Proof.
  unfold dispatch, reply_tag, bind, ret.
  destruct (str_eqb cmd (u "smartctl")); simpl.
  { destruct (get_smartctl env args the_id w) as [[x|e] w1]; congruence. }
  destruct (str_eqb cmd (u "get_disks")); simpl.
  { destruct (get_disks_to_send py env the_id w) as [[x|e] w1]; congruence. }
  destruct (str_eqb cmd (u "get_disks_win")); simpl.
  { destruct (traced (get_disks_win env) w) as [[x|e] w1]; congruence. }
  destruct (str_eqb cmd (u "ping")); congruence.
Qed.

Lemma send_msg_registered the_id cmd param w :
  existsb (Z.eqb the_id) (clients w) = true ->
  send_msg the_id cmd param w
  = match param with
    | None => (Ok tt, hand_off (the_id, Response cmd None) w)
    | Some p =>
        if json_serializable p
        then (Ok tt, hand_off (the_id, Response cmd (Some p)) w)
        else (Raise TypeError, w)
    end.
Proof.
  intros H. unfold send_msg, bind, get. rewrite H.
  destruct param as [p|]; [|reflexivity].
  unfold lift_result, _encode_param. destruct (json_serializable p); reflexivity.
Qed.

Lemma remove_running_present n w :
  In n (running_commands w) -> fst (remove_running n w) = Ok tt
  /\ sent (snd (remove_running n w)) = sent w
  /\ tr (snd (remove_running n w)) = tr w.
Proof.
  intros H. unfold remove_running, bind, get.
  assert (existsb (Nat.eqb n) (running_commands w) = true) as ->.
  { apply existsb_exists. exists n. split; [exact H | apply Nat.eqb_refl]. }
  simpl. auto.
Qed.

Lemma exec_command_outcome py env cmd args the_id w :
  existsb (Z.eqb the_id) (clients w) = true ->
  let r := fst (exec_command py env cmd args the_id w) in
  let w' := snd (exec_command py env cmd args the_id w) in
  clients w' = clients w /\ running_commands w' = running_commands w
  /\ trace_grows (tr w) (tr w')
  /\ exists notices, Forall (manual the_id) notices
     /\ match r with
        | Ok _ => exists param,
            sent w' = sent w ++ notices
                             ++ [(the_id, Response (reply_tag cmd) param)]
        | Raise _ => sent w' = sent w ++ notices
        end.
Proof.
  intros Hreg. unfold exec_command, bind.
  destruct (logging DEBUG "Received command" None w) as [r0 w0] eqn:E0.
  unfold logging, modify in E0. inversion E0; subst r0 w0; clear E0.
  match goal with
  | |- context [dispatch py env cmd args the_id ?w0] => set (w0' := w0)
  end.
  pose proof (stable_dispatch py env cmd args the_id w0') as Hd.
  destruct (dispatch py env cmd args the_id w0') as [[[c p]|e] w1] eqn:E1;
    simpl in Hd; destruct Hd as (Hc & Hr & _ & Ht & notices & Hs & Hn).
  - apply dispatch_tag in E1. subst c.
    assert (existsb (Z.eqb the_id) (clients w1) = true) as Hreg1
        by (rewrite Hc; exact Hreg).
    rewrite (@send_msg_registered the_id _ _ w1 Hreg1).
    assert (trace_grows (tr w) (tr w1)) as Ht'.
    { eapply trace_grows_trans; [|exact Ht]. apply trace_grows_log. }
    destruct p as [p|]; [destruct (json_serializable p)|]; simpl;
      (split; [exact Hc | split; [exact Hr | split; [exact Ht'|]]]);
      exists notices; (split; [exact Hn|]).
    + exists (Some p). rewrite Hs, app_assoc. reflexivity.
    + exact Hs.
    + exists None. rewrite Hs, app_assoc. reflexivity.
  - simpl. split; [exact Hc | split; [exact Hr | split]].
    + eapply trace_grows_trans; [|exact Ht]. apply trace_grows_log.
    + exists notices. auto.
Qed.

End ExecFacts.

(** C1 (as amended). A command thread whose connection is open always ends
    normally. If [exec_command] completes, the reactor is handed exactly one
    reply carrying the command word of the command ([reply_tag]), after any
    notices of manually-fixable conditions; if [exec_command] raises, [run]
    logs the fault and hands over no reply for it. *)
Theorem run_replies_once_unless_fault
        (py : Builtins) (env : Env) (self : CommandRunner.t) (w : world) :
  existsb (Z.eqb (CommandRunner._the_id self)) (clients w) = true ->
  In (CommandRunner.thread self) (running_commands w) ->
  let the_id := CommandRunner._the_id self in
  let outcome :=
    fst (CommandRunner.exec_command py env (CommandRunner._cmd self)
           (CommandRunner._args self) the_id w) in
  let w' := snd (CommandRunner.run py env self w) in
  fst (CommandRunner.run py env self w) = Ok tt
  /\ exists notices, Forall (manual the_id) notices
     /\ match outcome with
        | Ok _ => exists param,
            sent w' = sent w ++ notices
                        ++ [(the_id,
                             Response (reply_tag (CommandRunner._cmd self)) param)]
        | Raise e =>
            sent w' = sent w ++ notices
            /\ In (Log ERROR "BIG ERROR in command thread" (Some e))
                  (logs (tr w'))
        end.
Proof.
  intros Hreg Hrun. cbv zeta.
  pose proof (@ExecFacts.exec_command_outcome py env (CommandRunner._cmd self)
                (CommandRunner._args self) _ w Hreg) as H.
  cbv zeta in H. unfold CommandRunner.run, bind, try_except.
  destruct (CommandRunner.exec_command py env (CommandRunner._cmd self)
              (CommandRunner._args self) (CommandRunner._the_id self) w)
    as [[[]|e] w1]; simpl in H;
    destruct H as (Hc & Hr & Ht & notices & Hn & Hs).
  - assert (In (CommandRunner.thread self) (running_commands w1)) as Hin
        by (rewrite Hr; exact Hrun).
    destruct (ExecFacts.remove_running_present _ _ Hin) as (Ho & Hsent & _).
    destruct (CommandRunner.remove_running (CommandRunner.thread self) w1)
      as [r2 w2]. simpl in *. subst r2.
    split; [reflexivity|]. exists notices. split; [exact Hn|].
    destruct Hs as [param Hs]. exists param. congruence.
  - unfold CommandRunner.logging, modify. cbn beta iota.
    match goal with
    | |- context [CommandRunner.remove_running _ ?w2] => set (w2' := w2)
    end.
    assert (In (CommandRunner.thread self) (running_commands w2')) as Hin
        by (unfold w2'; simpl; rewrite Hr; exact Hrun).
    destruct (ExecFacts.remove_running_present _ _ Hin) as (Ho & Hsent & Htr).
    destruct (CommandRunner.remove_running (CommandRunner.thread self) w2')
      as [r3 w3]. simpl in Ho, Hsent, Htr. subst r3. simpl.
    split; [reflexivity|]. exists notices. split; [exact Hn|].
    split; [rewrite Hsent; exact Hs|].
    rewrite Htr. unfold w2'. simpl. apply in_or_app. right. left. reflexivity.
Qed.

(** A [ping] on an open connection: the reply is the bare [pong]. *)
Lemma run_replies_once_unless_fault_witness :
  let w := Example.state [] in
  fst (CommandRunner.run ascii_builtins (Example.host None 0)
         (Example.runner "ping" "") w) = Ok tt
  /\ exists notices, Forall (manual 0) notices
     /\ exists param,
         sent (snd (CommandRunner.run ascii_builtins (Example.host None 0)
                      (Example.runner "ping" "") w))
         = sent w ++ notices ++ [(0%Z, Response (u "pong") param)].
Proof.
  exact (@run_replies_once_unless_fault ascii_builtins (Example.host None 0)
           (Example.runner "ping" "") (Example.state [])
           eq_refl (or_introl eq_refl)).
Defined.

(** C1 (as stated) fails: with open connection 0, [get_disks_win] on a host
    that lists more sizes than captions raises [IndexError], the thread
    ends normally and the connection is sent nothing. *)
Lemma fault_gets_no_reply :
  let w := Example.state [] in
  existsb (Z.eqb 0) (clients w) = true
  /\ fst (CommandRunner.exec_command ascii_builtins (Example.host None 0)
            (u "get_disks_win") [] 0 w) = Raise IndexError
  /\ fst (CommandRunner.run ascii_builtins (Example.host None 0)
            (Example.runner "get_disks_win" "") w) = Ok tt
  /\ sent (snd (CommandRunner.run ascii_builtins (Example.host None 0)
                  (Example.runner "get_disks_win" "") w)) = [].
Proof. vm_compute. repeat split; reflexivity. Qed.

Module SmartctlFacts.
Import CommandRunner.

Lemma send_msg_disks the_id cmd param w :
  disks (snd (send_msg the_id cmd param w)) = disks w.
Proof.
  unfold send_msg, bind, get.
  destruct (existsb (Z.eqb the_id) (clients w)); [|reflexivity].
  destruct param as [p|]; [|reflexivity].
  unfold lift_result, _encode_param. destruct (json_serializable p); reflexivity.
Qed.

(** When the push that follows raises, [update_disk_if_needed] has
    returned and has sent nothing. *)
Lemma quiet_before_failed_push the_id dev w e :
  fst (on_disk dev (Disk.update_status (u "old"))
               (snd (update_disk_if_needed the_id dev w))) = Raise e ->
  fst (update_disk_if_needed the_id dev w) = Ok tt
  /\ sent (snd (update_disk_if_needed the_id dev w)) = sent w
  /\ clients (snd (update_disk_if_needed the_id dev w)) = clients w.
Proof.
  unfold update_disk_if_needed, try_except.
  destruct (on_disk dev Disk.update_if_needed w) as [[[]|e1] w1] eqn:E1.
  - intros _. unfold on_disk in E1.
    destruct (dict_get dev (disks w)) as [[d|]|]; try discriminate.
    destruct (Disk.update_if_needed (d, tr w)) as [r [d' t]].
    inversion E1; subst. auto.
  - unfold on_disk in E1.
    destruct (dict_get dev (disks w)) as [[d|]|] eqn:Ed;
      try (inversion E1; subst; simpl; auto; fail).
    destruct (Disk.update_if_needed (d, tr w)) as [r [d' t]] eqn:Eu.
    inversion E1; subst r w1; clear E1.
    destruct e1; try (simpl; auto; fail).
    apply DiskFacts.manually_fixable_leaves_code_unset in Eu.
    intros H. exfalso. revert H. unfold on_disk at 1.
    rewrite send_msg_disks. cbn [disks set_tr set_disks].
    rewrite dict_get_set_same.
    rewrite DiskFacts.update_status_unset by (rewrite Eu; reflexivity).
    discriminate.
Qed.

Lemma disks_set_tr t w : disks (set_tr t w) = disks w.
Proof. reflexivity. Qed.

Lemma tr_set_tr t w : tr (set_tr t w) = t.
Proof. reflexivity. Qed.

Lemma set_tr_twice t t' w : set_tr t (set_tr t' w) = set_tr t w.
Proof. reflexivity. Qed.

Lemma on_disk_keeps A key (m : Disk.method A) w :
  clients (snd (on_disk key m w)) = clients w
  /\ sent (snd (on_disk key m w)) = sent w.
Proof.
  unfold on_disk. destruct (dict_get key (disks w)) as [[d|]|]; auto.
  destruct (m (d, tr w)) as [r [d' t]]. auto.
Qed.

Lemma smartctl_payload_serializable dev status updated exitcode output stderr :
  json_serializable status = true ->
  json_serializable
    (PDict [(u "disk", PStr dev); (u "status", status);
            (u "updated", PBool updated); (u "exitcode", PInt exitcode);
            (u "output", PStr output); (u "stderr", PStr stderr)]) = true.
Proof. intros H. cbn. rewrite H. reflexivity. Qed.
End SmartctlFacts.

(** C6 (as amended). For a tool whose output, on both streams, is valid
    UTF-8: when it exits nonzero, [smartctl dev] is answered with the
    ordinary [smartctl] reply, whose payload carries the exit code and the
    error stream, and nothing else is sent; when it exits zero on a tracked
    device and the status push raises, the fault is logged as a warning, the
    reply is the ordinary one with [updated] false, and nothing else is
    sent. *)
Theorem smartctl_failures_stay_in_the_payload
        (py : Builtins) (env : Env) (dev : pystr) (the_id : Z) (w : world)
        (out err : bytes) (exitcode : Z) (output stderr : pystr) :
  existsb (Z.eqb the_id) (clients w) = true ->
  smartctl env dev = (out, err, exitcode) ->
  Utf8.decode out = Some output ->
  Utf8.decode err = Some stderr ->
  let done := CommandRunner.exec_command py env (u "smartctl") dev the_id w in
  (exitcode <> 0%Z ->
   done = (Ok tt,
           CommandRunner.hand_off
             (the_id, smartctl_reply dev PNone false exitcode output stderr)
             (smartctl_done dev w)))
  /\ (exitcode = 0%Z -> dict_mem dev (disks w) = true ->
      forall e : exn, push_fails dev the_id w e ->
        fst done = Ok tt
        /\ sent (snd done)
           = sent w ++ [(the_id, smartctl_reply dev (PStr (u "old")) false 0
                                                output stderr)]
        /\ In (Log WARNING "Cannot update status on tarallo" (Some e))
              (logs (tr (snd done)))).
Proof.
  intros Hreg Hsm Hout Herr. cbv zeta.
  unfold CommandRunner.exec_command, CommandRunner.dispatch.
  rewrite str_eqb_refl. unfold CommandRunner.get_smartctl.
  cbv beta iota zeta delta [bind ret get modify CommandRunner.logging
                             CommandRunner.traced].
  rewrite SmartctlFacts.tr_set_tr, SmartctlFacts.set_tr_twice.
  fold (smartctl_done dev w). unfold get_smartctl_status.
  rewrite Hsm, Hout, Herr. cbv beta iota. split.
  - intros Hne. apply Z.eqb_neq in Hne. rewrite Hne. cbv beta iota.
    match goal with
    | |- context [CommandRunner.send_msg _ _ _ ?w3] =>
        rewrite (@ExecFacts.send_msg_registered the_id _ _ w3 Hreg)
    end.
    rewrite SmartctlFacts.smartctl_payload_serializable by reflexivity.
    reflexivity.
  - intros -> Hmem e Hpush. rewrite Z.eqb_refl.
    unfold push_fails in Hpush.
    destruct (SmartctlFacts.quiet_before_failed_push _ _ _ Hpush)
      as (Hok & Hsent & Hcl).
    change (clients (smartctl_done dev w)) with (clients w) in Hcl.
    change (sent (smartctl_done dev w)) with (sent w) in Hsent.
    change (disks (smartctl_done dev w)) with (disks w). rewrite Hmem.
    cbv beta iota.
    destruct (CommandRunner.update_disk_if_needed the_id dev
                (smartctl_done dev w)) as [r1 w1].
    cbn [fst snd] in *. subst r1. unfold try_except.
    pose proof (SmartctlFacts.on_disk_keeps dev
                  (Disk.update_status (u "old")) w1) as [Hc2 Hs2].
    destruct (CommandRunner.on_disk dev (Disk.update_status (u "old")) w1)
      as [r2 w2].
    cbn [fst snd] in *. subst r2. cbv beta iota.
    match goal with
    | |- context [CommandRunner.send_msg _ _ _ ?w3] =>
        rewrite (@ExecFacts.send_msg_registered the_id _ _ w3)
          by (cbn [clients CommandRunner.set_tr]; rewrite Hc2, Hcl; exact Hreg)
    end.
    rewrite SmartctlFacts.smartctl_payload_serializable by reflexivity.
    cbn [fst snd sent tr logs CommandRunner.hand_off CommandRunner.set_tr
         add_log].
    split; [reflexivity|]. split.
    + rewrite Hs2, Hsent. reflexivity.
    + apply in_or_app. right. left. reflexivity.
Qed.

(** The tool refused ([exitcode] 1); and the tool succeeded but the
    inventory refused the status of [/dev/sda]. *)
Lemma smartctl_failures_stay_in_the_payload_witness :
  let registry tarallo :=
    [(u "/dev/sda", Some (Example.sda_disk (Some tarallo) None))] in
  let refused :=
    CommandRunner.exec_command ascii_builtins
      (Example.host (Some Example.one_match) 1) (u "smartctl") (u "/dev/sda")
      0 (Example.state (registry Example.one_match)) in
  let unpushed :=
    CommandRunner.exec_command ascii_builtins
      (Example.host (Some Example.push_refused) 0) (u "smartctl")
      (u "/dev/sda") 0 (Example.state (registry Example.push_refused)) in
  sent (snd refused)
  = [(0%Z, smartctl_reply (u "/dev/sda") PNone false 1 (u "smartctl 7.2")
                          (u "Permission denied"))]
  /\ fst unpushed = Ok tt
  /\ sent (snd unpushed)
     = [(0%Z, smartctl_reply (u "/dev/sda") (PStr (u "old")) false 0
                             (u "smartctl 7.2") [])]
  /\ In (Log WARNING "Cannot update status on tarallo"
             (Some (CollaboratorError (u "HTTP 500"))))
        (logs (tr (snd unpushed))).
Proof.
  cbv zeta. split.
  - rewrite (proj1 (@smartctl_failures_stay_in_the_payload ascii_builtins
               (Example.host (Some Example.one_match) 1) (u "/dev/sda") 0
               (Example.state
                  [(u "/dev/sda",
                    Some (Example.sda_disk (Some Example.one_match) None))])
               (Example.ascii "smartctl 7.2")
               (Example.ascii "Permission denied") 1
               (u "smartctl 7.2") (u "Permission denied")
               eq_refl eq_refl eq_refl eq_refl)).
    + reflexivity.
    + discriminate.
  - apply (proj2 (@smartctl_failures_stay_in_the_payload ascii_builtins
               (Example.host (Some Example.push_refused) 0) (u "/dev/sda") 0
               (Example.state
                  [(u "/dev/sda",
                    Some (Example.sda_disk (Some Example.push_refused) None))])
               (Example.ascii "smartctl 7.2") [] 0
               (u "smartctl 7.2") [] eq_refl eq_refl eq_refl eq_refl)
             eq_refl eq_refl).
    vm_compute. reflexivity.
Defined.

(** C6 (as stated) fails: the tool exits with 1 and its error stream holds
    the byte [0xE9], which is no UTF-8. Both streams are decoded before the
    exit code is looked at, so the command raises [UnicodeDecodeError]; the
    thread logs it and connection 0, which is open, is sent no payload. *)
Lemma undecodable_stderr_gets_no_payload :
  let env := {| TARALLO := None; lsblk_json := fun _ => None;
                smartctl := fun _ => (Example.ascii "smartctl 7.2",
                                      [Byte.xe9], 1%Z);
                wmic := fun _ => [] |} in
  let w := Example.state [] in
  let r := CommandRunner.run ascii_builtins env
             (Example.runner "smartctl" "/dev/sda") w in
  existsb (Z.eqb 0) (clients w) = true
  /\ fst (CommandRunner.exec_command ascii_builtins env (u "smartctl")
                                     (u "/dev/sda") 0 w)
     = Raise UnicodeDecodeError
  /\ fst r = Ok tt
  /\ sent (snd r) = []
  /\ logs (tr (snd r))
     = [Log DEBUG "Received command" None;
        Log ERROR "BIG ERROR in command thread" (Some UnicodeDecodeError)].
Proof. vm_compute. repeat split; reflexivity. Qed.

(** The notice of a manually-fixable condition carries the [Disk] object
    itself, which [json.dumps] refuses: on an open connection [send_msg]
    raises [TypeError] and hands the reactor nothing. *)
Lemma manual_notice_is_not_serializable the_id message w :
  existsb (Z.eqb the_id) (clients w) = true ->
  CommandRunner.send_msg the_id (u "error_that_can_be_manually_fixed")
    (Some (PDict [(u "message", PStr message);
                  (u "disk", PObject (u "Disk"))])) w
  = (Raise TypeError, w).
Proof.
  intros H. rewrite (@ExecFacts.send_msg_registered the_id _ _ w H).
  reflexivity.
Qed.

Lemma zip_drives_enough : forall size label,
  (length size <= length label)%nat ->
  zip_drives label size = Ok (map drive_of (combine label size)).
Proof.
  induction size as [|line size IH]; intros label Hlen.
  - destruct label; reflexivity.
  - destruct label as [|l label]; [simpl in Hlen; lia|].
    simpl in *. rewrite IH by lia. reflexivity.
Qed.

Lemma zip_drives_short : forall size label,
  (length label < length size)%nat -> zip_drives label size = Raise IndexError.
Proof.
  induction size as [|line size IH]; intros label Hlen.
  - simpl in Hlen. lia.
  - destruct label as [|l label]; [reflexivity|].
    simpl in *. rewrite IH by lia. reflexivity.
Qed.

(** C10. [get_disks_win] pairs the labels and the sizes by position and
    follows the size list: with at least as many labels as sizes it returns
    one [[label, size]] pair per size (labels beyond are dropped); with
    more sizes than labels it raises [IndexError]. *)
Theorem get_disks_win_follows_the_size_list (env : Env) (tr : trace) :
  let label := caption_labels (wmic env (u "caption")) in
  let size := size_lines (wmic env (u "size")) in
  let r := fst (get_disks_win env tr) in
  ((length size <= length label)%nat ->
   exists drive,
     r = Ok (PList drive)
     /\ length drive = length size
     /\ drive = map drive_of (combine (firstn (length size) label) size))
  /\ ((length label < length size)%nat -> r = Raise IndexError).
Proof.
  cbv zeta. unfold get_disks_win.
  cbv beta iota zeta delta [bind modify lift_result ret fst].
  split; intros Hlen.
  - rewrite zip_drives_enough by exact Hlen.
    eexists. split; [reflexivity|]. split.
    + rewrite length_map, length_combine. lia.
    + f_equal. clear. set (size := size_lines _). set (label := caption_labels _).
      clearbody size label. revert label.
      induction size as [|x size IH]; intros [|l label]; simpl; auto.
      rewrite <- IH. reflexivity.
  - rewrite zip_drives_short by exact Hlen. reflexivity.
Qed.

Lemma get_disks_win_follows_the_size_list_witness :
  let two_drives :=
    Example.windows
      (u "Caption" ++ Example.crlf ++ u "C:" ++ Example.crlf ++ u "D:"
         ++ Example.crlf ++ u "E:")
      (u "Size" ++ Example.crlf ++ u "1000" ++ Example.crlf ++ u "2000") in
  let one_label :=
    Example.windows (u "Caption" ++ Example.crlf ++ u "C:")
                    (u "Size" ++ Example.crlf ++ u "1000" ++ Example.crlf
                       ++ u "2000") in
  (exists drive,
      fst (get_disks_win two_drives Example.no_trace) = Ok (PList drive)
      /\ length drive = 2%nat
      /\ drive = [drive_of (u "C:", u "1000"); drive_of (u "D:", u "2000")])
  /\ fst (get_disks_win one_label Example.no_trace) = Raise IndexError.
Proof.
  cbv zeta. split.
  - exact (proj1 (get_disks_win_follows_the_size_list
                    (Example.windows
                       (u "Caption" ++ Example.crlf ++ u "C:" ++ Example.crlf
                          ++ u "D:" ++ Example.crlf ++ u "E:")
                       (u "Size" ++ Example.crlf ++ u "1000" ++ Example.crlf
                          ++ u "2000"))
                    Example.no_trace)
                 (le_S 2 2 (le_n 2))).
  - exact (proj2 (get_disks_win_follows_the_size_list
                    (Example.windows
                       (u "Caption" ++ Example.crlf ++ u "C:")
                       (u "Size" ++ Example.crlf ++ u "1000" ++ Example.crlf
                          ++ u "2000"))
                    Example.no_trace)
                 (le_n 2)).
Defined.

Module RegistryFacts.
Import CommandRunner.

(** What [update_disk_if_needed] does to the record it is called on. *)
Lemma update_disk_if_needed_entry the_id key w d :
  dict_get key (disks w) = Some (Some d) ->
  exists d',
    dict_get key (disks (snd (update_disk_if_needed the_id key w)))
    = Some (Some d')
    /\ Disk._path d' = Disk._path d
    /\ Disk._lsblk d' = Disk._lsblk d
    /\ Disk._tarallo d' = Disk._tarallo d.
Proof.
  intros Hk. unfold update_disk_if_needed, try_except, on_disk. rewrite Hk.
  pose proof (DiskFrame.respects_update_if_needed (d, tr w)) as Hs.
  destruct (Disk.update_if_needed (d, tr w)) as [r [d' t]].
  destruct Hs as (H1 & H2 & H3 & _). cbn [fst snd] in *.
  exists d'. split; [|auto].
  destruct r as [[]|e]; cbn [snd].
  - cbn [disks set_tr set_disks]. apply dict_get_set_same.
  - destruct e; cbn [snd ret];
      try (cbn [disks set_tr set_disks]; apply dict_get_set_same).
    rewrite SmartctlFacts.send_msg_disks.
    cbn [disks set_tr set_disks]. apply dict_get_set_same.
Qed.

Lemma on_disk_serialize key w d :
  dict_get key (disks w) = Some (Some d) ->
  on_disk key Disk.serialize_disk w
  = (Ok (dict_set (u "code") (Disk.code_value (Disk._code d)) (Disk._lsblk d)),
     set_tr (tr w)
       (set_disks
          (dict_set key
             (Some (Disk.with_lsblk
                      (dict_set (u "code") (Disk.code_value (Disk._code d))
                                (Disk._lsblk d)) d))
             (disks w)) w)).
Proof. intros Hk. unfold on_disk. rewrite Hk. reflexivity. Qed.

(** An iteration on another key leaves the entry as it was. *)
Lemma get_disk_to_send_other py env the_id key result w p :
  p <> key ->
  dict_get p (disks (snd (get_disk_to_send py env the_id key result w)))
  = dict_get p (disks w).
Proof.
  intros Hn.
  pose proof (@RunnerFrame.stable_get_disk_to_send the_id (eq key) py env
                key result eq_refl w) as (_ & _ & Hd & _).
  apply Hd. congruence.
Qed.

End RegistryFacts.

(** ** Every path of the registry has a record *)

Module PopulatedFacts.
Import CommandRunner.




Lemma enumerations_add_call c t :
  is_enumeration c = false -> enumerations (add_call c t) = enumerations t.
Proof.
  intros H. unfold enumerations, add_call. cbn [calls].
  rewrite filter_app. cbn [filter]. rewrite H. apply app_nil_r.
Qed.

(** *** Methods of a record *)

Lemma method_quiet_refl s : method_quiet s s.
Proof. reflexivity. Qed.

Lemma method_quiet_trans a b c :
  method_quiet a b -> method_quiet b c -> method_quiet a c.
Proof. unfold method_quiet, no_enumeration. congruence. Qed.

Lemma quiet_set_code c : respects method_quiet (Disk.set_code c).
Proof. intros [d t]. reflexivity. Qed.

Lemma quiet_set_item i : respects method_quiet (Disk.set_item i).
Proof. intros [d t]. reflexivity. Qed.

Lemma quiet_set_lsblk l : respects method_quiet (Disk.set_lsblk l).
Proof. intros [d t]. reflexivity. Qed.

Lemma quiet_self : respects method_quiet Disk.self.
Proof. intros s. reflexivity. Qed.

Lemma quiet_method_logging l text : respects method_quiet (Disk.logging l text).
Proof. intros [d t]. reflexivity. Qed.

Lemma quiet_called A c (a : answer A) :
  is_enumeration c = false -> respects method_quiet (Disk.called c a).
Proof.
  intros H [d t]. unfold Disk.called, bind, modify, lift_result.
  cbn. destruct (of_answer a); apply enumerations_add_call, H.
Qed.

Create HintDb method_quiet.
#[local] Hint Resolve quiet_set_code quiet_set_item quiet_set_lsblk
  quiet_self quiet_method_logging quiet_called : method_quiet.

Ltac method_quiet :=
  respects_with method_quiet_refl method_quiet_trans
                ltac:(auto with method_quiet).






(** *** Commands *)




















(** *** The startup scan *)








End PopulatedFacts.




Module PestelloFacts.
Import Pestello.

(** *** The header *)

Lemma filter_filter_comm A (P Q : A -> bool) l :
  filter P (filter Q l) = filter Q (filter P l).
Proof.
  induction l as [|x l IH]; simpl; [reflexivity|].
  destruct (P x) eqn:EP, (Q x) eqn:EQ; simpl; rewrite ?EP, ?EQ, IH; reflexivity.
Qed.

Lemma filter_absorb (Q : pystr -> bool) k l :
  Q k = false ->
  filter Q (filter (fun x => negb (str_eqb x k)) l) = filter Q l.
Proof.
  intros HQ. induction l as [|x l IH]; simpl; [reflexivity|].
  destruct (str_eqb_spec x k) as [->|Hn]; simpl.
  - rewrite HQ. exact IH.
  - rewrite IH. reflexivity.
Qed.

Lemma first_seen_filter (Q : pystr -> bool) l :
  first_seen (filter Q l) = filter Q (first_seen l).
Proof.
  induction l as [|k l IH]; simpl; [reflexivity|].
  destruct (Q k) eqn:EQ; simpl.
  - rewrite IH, filter_filter_comm. reflexivity.
  - rewrite IH, filter_absorb by exact EQ. reflexivity.
Qed.

Lemma first_seen_In k l : In k (first_seen l) <-> In k l.
Proof.
  induction l as [|x l IH]; simpl; [tauto|].
  rewrite filter_In, IH.
  destruct (str_eqb_spec k x) as [->|Hn]; simpl; intuition congruence.
Qed.

Lemma first_seen_NoDup l : NoDup (first_seen l).
Proof.
  induction l as [|x l IH]; simpl; constructor.
  - rewrite filter_In. rewrite str_eqb_refl. simpl. intuition discriminate.
  - apply NoDup_filter. exact IH.
Qed.

Lemma filter_andb A (P Q : A -> bool) l :
  filter (fun x => P x && Q x) l = filter P (filter Q l).
Proof.
  induction l as [|x l IH]; simpl; [reflexivity|].
  destruct (Q x), (P x) eqn:EP; simpl; rewrite ?EP, IH; reflexivity.
Qed.

Lemma fresh_cons k seen l :
  filter (fresh (k :: seen)) l
  = filter (fun x => negb (str_eqb x k)) (filter (fresh seen) l).
Proof.
  rewrite <- filter_andb. apply filter_ext. intros x. unfold fresh. simpl.
  destruct (not_status x), (str_eqb x k), (existsb (str_eqb x) seen);
    reflexivity.
Qed.

Lemma add_keys_first_seen : forall l seen acc,
  snd (fold_left add_key l (seen, acc))
  = acc ++ first_seen (filter (fresh seen) l).
Proof.
  induction l as [|k l IH]; intros seen acc; simpl.
  - rewrite app_nil_r. reflexivity.
  - unfold fresh at 1, not_status.
    destruct (negb (str_eqb k (u "Status"))
              && negb (existsb (str_eqb k) seen)) eqn:E.
    + rewrite IH, fresh_cons, first_seen_filter, <- app_assoc. reflexivity.
    + apply IH.
Qed.

Lemma fold_results_flat_map : forall (rs : list found) acc,
  fold_left (fun acc r => fold_left add_key (dict_keys r) acc) rs acc
  = fold_left add_key (flat_map (@dict_keys pystr) rs) acc.
Proof.
  induction rs as [|r rs IH]; intros acc; simpl; [reflexivity|].
  rewrite fold_left_app. apply IH.
Qed.

(** The header the code builds is the ordered union of the names of the
    rows, [Status] apart, followed by [Status]. *)
Lemma make_header_first_seen rs :
  make_header rs
  = first_seen (filter not_status (flat_map (@dict_keys pystr) rs))
    ++ [u "Status"].
Proof.
  unfold make_header. rewrite fold_results_flat_map, add_keys_first_seen.
  simpl. f_equal. f_equal. apply filter_ext. intros k. unfold fresh.
  simpl. apply andb_true_r.
Qed.

Lemma keys_set_status s (f : found) :
  filter not_status (dict_keys (dict_set (u "Status") s f))
  = filter not_status (dict_keys f).
Proof.
  unfold dict_keys, not_status.
  induction f as [|[k v] f IH]; simpl.
  - rewrite ?str_eqb_refl. reflexivity.
  - destruct (str_eqb k (u "Status")) eqn:E; simpl; rewrite E; simpl;
      [reflexivity | rewrite IH; reflexivity].
Qed.

Lemma names_of_rows ds :
  filter not_status (flat_map (@dict_keys pystr) (map labelled_row ds))
  = filter not_status (names_read ds).
Proof.
  unfold names_read. induction ds as [|d ds IH]; simpl; [reflexivity|].
  rewrite !filter_app, IH. f_equal.
  unfold labelled_row. destruct (status d); [apply keys_set_status | reflexivity].
Qed.

(** *** The rows *)

Lemma header_covers rs row k :
  In row rs -> In k (dict_keys row) ->
  existsb (str_eqb k) (make_header rs) = true.
Proof.
  intros Hr Hk. apply existsb_exists. exists k.
  split; [|apply str_eqb_refl].
  rewrite make_header_first_seen. apply in_or_app.
  destruct (str_eqb_spec k (u "Status")) as [->|Hn]; [right; left; reflexivity|].
  left. apply first_seen_In, filter_In. split.
  - apply in_flat_map. exists row. auto.
  - unfold not_status.
    destruct (str_eqb_spec k (u "Status")); [congruence | reflexivity].
Qed.

Lemma writerows_covered fieldnames : forall rs,
  (forall row k, In row rs -> In k (dict_keys row) ->
                 existsb (str_eqb k) fieldnames = true) ->
  writerows fieldnames rs = Ok (map (cells_of fieldnames) rs).
Proof.
  induction rs as [|row rs IH]; intros H; simpl; [reflexivity|].
  unfold writerow.
  assert (forallb (fun k => existsb (str_eqb k) fieldnames) (dict_keys row)
          = true) as ->.
  { apply forallb_forall. intros k Hk. apply (H row); [left; reflexivity | exact Hk]. }
  rewrite IH; [reflexivity|].
  intros r k Hr Hk. apply (H r); [right; exact Hr | exact Hk].
Qed.

(** Writing the rows under the header built from them never raises. *)
Lemma writerows_total rs :
  writerows (make_header rs) rs = Ok (map (cells_of (make_header rs)) rs).
Proof. apply writerows_covered. intros row k. apply header_covers. Qed.

(** *** The answers and the rows *)

Lemma keeps_consistent_refl st : keeps_consistent st st.
Proof. intros H. exact H. Qed.

Lemma keeps_consistent_trans a b c :
  keeps_consistent a b -> keeps_consistent b c -> keeps_consistent a c.
Proof. unfold keeps_consistent. auto. Qed.

Lemma labelled_snoc ds d :
  labelled (ds ++ [d])
  = labelled ds ++ match status d with Some _ => [d] | None => [] end.
Proof.
  unfold labelled. rewrite filter_app. simpl. destruct (status d); reflexivity.
Qed.

Lemma decide_consistent file f s st :
  In s [None; Some (u "OK"); Some (u "OLD"); Some (u "FAIL")] ->
  consistent st -> consistent (decide file f s st).
Proof.
  intros Hs [Hr Hk]. split.
  - unfold decide. cbn [results decisions]. rewrite labelled_snoc.
    cbn [status]. destruct s as [s|].
    + rewrite map_app, Hr. reflexivity.
    + rewrite app_nil_r. exact Hr.
  - unfold decide. cbn [decisions]. apply Forall_app. split; [exact Hk|].
    constructor; [exact Hs | constructor].
Qed.

Lemma ask_consistent py file f : forall keys st,
  consistent st -> consistent (snd (ask py file f keys st)).
Proof.
  induction keys as [|[line|] keys IH]; intros st Hc; simpl.
  - exact Hc.
  - repeat match goal with
           | |- context [if ?c then _ else _] => destruct c
           end;
      try (apply IH; exact Hc);
      cbn [snd]; apply decide_consistent; try exact Hc; simpl; tauto.
  - exact Hc.
Qed.

Lemma respects_ask py file f :
  respects keeps_consistent (fun st => ask py file f (stdin st) st).
Proof. intros st Hc. apply ask_consistent. exact Hc. Qed.

Lemma respects_remember serial :
  respects keeps_consistent (modify (remember serial)).
Proof. intros st Hc. exact Hc. Qed.

Lemma respects_parse_file py h file :
  respects keeps_consistent (parse_file py h file).
Proof.
  pose proof (respects_ask py file). pose proof respects_remember.
  unfold parse_file.
  respects_with keeps_consistent_refl keeps_consistent_trans ltac:(auto).
Qed.

Lemma respects_for_each St (R : St -> St -> Prop) A (body : A -> M St unit) :
  (forall s, R s s) -> (forall a b c, R a b -> R b c -> R a c) ->
  (forall x, respects R (body x)) ->
  forall l, respects R (for_each l body).
Proof.
  intros Hr Ht Hb. induction l as [|x l IH]; simpl.
  - apply respects_ret, Hr.
  - apply (respects_bind Ht); [apply Hb | intros; exact IH].
Qed.

Lemma walk_cons py h file paths errors st :
  walk py h (file :: paths) errors st
  = match fs h file with
    | Dir entries =>
        match for_each entries
                (fun name => parse_file py h
                               (rstrip_slash file ++ u "/" ++ name)) st with
        | (Ok _, st') => walk py h paths errors st'
        | (Raise e, st') => (errors, Raise e, st')
        end
    | File _ =>
        match parse_file py h file st with
        | (Ok _, st') => walk py h paths errors st'
        | (Raise e, st') => (errors, Raise e, st')
        end
    | Neither => walk py h paths true st
    end.
Proof. reflexivity. Qed.

Lemma walk_consistent py h : forall paths errors st,
  consistent st -> consistent (snd (walk py h paths errors st)).
Proof.
  induction paths as [|file paths IH]; intros errors st Hc;
    [exact Hc|].
  rewrite walk_cons.
  destruct (fs h file) as [entries|lines|].
  - match goal with
    | |- context [for_each entries ?body st] =>
        pose proof (@respects_for_each _ keeps_consistent _ body
                      keeps_consistent_refl keeps_consistent_trans
                      (fun x => respects_parse_file py h _) entries st Hc)
          as H;
        destruct (for_each entries body st) as [[[]|e] st1]
    end; cbn [snd] in *; [apply IH; exact H | exact H].
  - pose proof (@respects_parse_file py h file st Hc) as H.
    destruct (parse_file py h file st) as [[[]|e] st1]; cbn [snd] in *;
      [apply IH; exact H | exact H].
  - apply IH. exact Hc.
Qed.

Lemma start_consistent keys : consistent (start keys).
Proof. split; [reflexivity | constructor]. Qed.

(** What [get_files] returns when it returns. *)
Lemma get_files_written py h paths st file errors st' :
  get_files py h paths st = (Ok (file, errors), st') ->
  st' = snd (walk py h paths false st)
  /\ header file = make_header (results st')
  /\ rows file = map (cells_of (header file)) (results st').
Proof.
  unfold get_files.
  destruct (walk py h paths false st) as [[errs r] st1]. cbn [snd].
  rewrite writerows_total. intros H.
  destruct r as [[]|e]; [|destruct e; try discriminate H];
    inversion H; subst; auto.
Qed.
End PestelloFacts.

(** C8 (as amended). When the tool writes [labeled.csv], the file has
    exactly one data row per report that was answered [OK], [OLD] or
    [FAIL], in the order of the answers, each ending with that status
    (a discarded or skipped report gives no row); and its header is the
    union, in first-seen order, of the attribute names read in those
    labelled reports, followed by the column [Status]. *)
Theorem csv_rows_and_header_follow_the_labelled_reports
        (py : Builtins) (h : Pestello.Host) (paths : list pystr)
        (keys : list Pestello.keyboard) (file : Pestello.csv)
        (errors : bool) (st' : Pestello.state) :
  Pestello.get_files py h paths (Pestello.start keys)
  = (Ok (file, errors), st') ->
  let answered := Pestello.labelled (Pestello.decisions st') in
  Pestello.rows file
  = map (fun d => Pestello.cells_of (Pestello.header file)
                                    (Pestello.labelled_row d)) answered
  /\ length (Pestello.rows file) = length answered
  /\ map (fun cells => last cells []) (Pestello.rows file)
     = map Pestello.status_text answered
  /\ Forall (fun d => In (Pestello.status_text d) [u "OK"; u "OLD"; u "FAIL"])
            answered
  /\ Pestello.header file
     = Pestello.first_seen
         (filter Pestello.not_status (Pestello.names_read answered))
       ++ [u "Status"].
Proof.
  intros H. cbv zeta.
  destruct (PestelloFacts.get_files_written _ _ _ _ H) as (Hst & Hh & Hr).
  assert (Pestello.consistent st') as [Hres Hknown].
  { rewrite Hst. apply PestelloFacts.walk_consistent,
                   PestelloFacts.start_consistent. }
  set (answered := Pestello.labelled (Pestello.decisions st')) in *.
  assert (Pestello.header file
          = Pestello.first_seen
              (filter Pestello.not_status (Pestello.names_read answered))
            ++ [u "Status"]) as Hhead.
  { rewrite Hh, PestelloFacts.make_header_first_seen, Hres,
      PestelloFacts.names_of_rows. reflexivity. }
  assert (Pestello.rows file
          = map (fun d => Pestello.cells_of (Pestello.header file)
                                            (Pestello.labelled_row d)) answered)
    as Hrows by (rewrite Hr, Hres, map_map; reflexivity).
  assert (forall d, In d answered -> exists s, Pestello.status d = Some s) as Hsome.
  { intros d Hd. apply filter_In in Hd. destruct Hd as [_ Hd].
    destruct (Pestello.status d) as [s|]; [eauto | discriminate]. }
  split; [exact Hrows|]. split; [rewrite Hrows; apply length_map|].
  split; [|split; [|exact Hhead]].
  - rewrite Hrows, map_map. apply map_ext_in. intros d Hd.
    destruct (Hsome d Hd) as [s Hs].
    unfold Pestello.cells_of. rewrite Hhead, map_app.
    change (map ?f [?x]) with [f x]. rewrite last_last.
    unfold Pestello.labelled_row, Pestello.status_text. rewrite Hs.
    rewrite dict_get_set_same. reflexivity.
  - apply Forall_forall. intros d Hd. destruct (Hsome d Hd) as [s Hs].
    assert (In d (Pestello.decisions st')) as Hin
        by (apply filter_In in Hd; tauto).
    pose proof (proj1 (Forall_forall _ _) Hknown d Hin) as Hk.
    unfold Pestello.known_status, Pestello.status_text in *. rewrite Hs in *.
    simpl in Hk. simpl.
    destruct Hk as [Hk|[Hk|[Hk|[Hk|[]]]]]; try discriminate;
      inversion Hk; auto.
Qed.

(** Two reports with distinct serial numbers, answered [k] then [o]. *)
Lemma csv_rows_and_header_follow_the_labelled_reports_witness :
  let run := Pestello.get_files ascii_builtins Example.folder
               [u "a.txt"; u "b.txt"]
               (Pestello.start [Pestello.Typed (u "k");
                                Pestello.Typed (u "o")]) in
  exists file errors st',
    run = (Ok (file, errors), st')
    /\ length (Pestello.rows file) = 2%nat
    /\ map (fun cells => last cells []) (Pestello.rows file)
       = [u "OK"; u "OLD"]
    /\ Pestello.header file
       = [u "Model_Family"; u "Serial_Number"; u "Reallocated_Sector_Ct";
          u "Power_On_Hours_Exact"; u "Power_On_Hours"; u "Errors_UNC";
          u "SSD_Life_Left"; u "Status"].
Proof.
  cbv zeta.
  set (run := Pestello.get_files _ _ _ _).
  assert (run = (Ok (match fst run with
                     | Ok p => fst p
                     | Raise _ => {| Pestello.header := []; Pestello.rows := [] |}
                     end,
                     match fst run with Ok p => snd p | Raise _ => false end),
                 snd run)) as E by (vm_compute; reflexivity).
  do 3 eexists. split; [exact E|].
  destruct (csv_rows_and_header_follow_the_labelled_reports _ _ _ _ E)
    as (_ & Hlen & Hlast & _ & Hhead).
  split; [exact Hlen|]. split; [exact Hlast | exact Hhead].
Defined.

(** C8 (as stated) fails for the header: of two reports the first is
    discarded and the second answered [FAIL]; [Model_Family] was read in
    the first, a processed report, and is no column of the file. *)
Lemma header_leaves_out_the_discarded_reports :
  let run := Pestello.get_files ascii_builtins Example.folder
               [u "a.txt"; u "b.txt"]
               (Pestello.start [Pestello.Typed (u "x");
                                Pestello.Typed (u "f")]) in
  exists file st',
    run = (Ok (file, false), st')
    /\ map Pestello.status (Pestello.decisions st') = [None; Some (u "FAIL")]
    /\ In (u "Model_Family") (Pestello.names_read (Pestello.decisions st'))
    /\ ~ In (u "Model_Family") (Pestello.header file)
    /\ Pestello.header file
       <> Pestello.first_seen
            (filter Pestello.not_status
                    (Pestello.names_read (Pestello.decisions st')))
          ++ [u "Status"].
Proof.
  cbv zeta. do 2 eexists. split; [vm_compute; reflexivity|].
  split; [vm_compute; reflexivity|].
  split; [vm_compute; tauto|].
  split.
  - vm_compute. intros H.
    repeat (destruct H as [H|H]; [discriminate H|]). exact H.
  - vm_compute. discriminate.
Qed.

(* ------------------------------------------------------------------ *)
(** ** Resolution of a disk's identity: the other outcomes *)

(** X1. When the inventory answers exactly one code for the normalized
    serial, building the record sets that code and then asks for its item
    with [get_item(code, 0)], the only two inventory calls made. If the
    item is answered the record is returned with code and item set; if
    [get_item] fails, its fault leaves [Disk.__init__] and no record is
    built. *)
Theorem single_match_resolves_the_disk
        (py : Builtins) (tarallo : Tarallo) (lsblk : dict) (path : pyval)
        (sn code : pystr) (t : trace) :
  dict_get (u "path") lsblk = Some path ->
  dict_get (u "serial") lsblk = Some (PStr sn) ->
  get_codes_by_feature tarallo (u "sn") (Disk.normalize_serial sn)
  = Answer [code] ->
  code <> [] ->
  let asked :=
    add_call (CallGetItem code)
      (add_log (Log DEBUG "Disk found" None)
         (add_call (CallGetCodes (u "sn") (Disk.normalize_serial sn)) t)) in
  Disk.__init__ py (PDict lsblk) (Some tarallo) t
  = match get_item tarallo code 0 with
    | Answer item =>
        (Ok {| Disk._lsblk := lsblk; Disk._path := py_str py path;
               Disk._code := Some code; Disk._item := Some item;
               Disk._tarallo := Some tarallo |}, asked)
    | Failure what => (Raise (CollaboratorError what), asked)
    end.
Proof.
  intros Hp Hs Hc Hne. cbv zeta. unfold Disk.__init__. rewrite Hp.
  run_method. cbn [fst snd Disk._tarallo Disk._lsblk Disk._code].
  rewrite (DiskFacts.dict_mem_get _ _ Hs), Hs. cbn [negb fst snd].
  rewrite Hc. cbn [fst snd Disk.with_code Disk._tarallo Disk._code].
  destruct code as [|c code]; [congruence|].
  cbn [truthy fst snd].
  destruct (get_item tarallo (c :: code) 0); reflexivity.
Qed.

(** An inventory that answers the item, and one whose [get_item] fails. *)
Lemma single_match_resolves_the_disk_witness :
  let failing :=
    {| get_codes_by_feature := get_codes_by_feature Example.one_match;
       get_item := fun _ _ => Failure (u "HTTP 500");
       update_item_features := update_item_features Example.one_match |} in
  let asked :=
    add_call (CallGetItem (u "AB12"))
      (add_log (Log DEBUG "Disk found" None)
         (add_call (CallGetCodes (u "sn") (u "ABC123")) Example.no_trace)) in
  Disk.__init__ ascii_builtins (PDict Example.sda) (Some Example.one_match)
                Example.no_trace
  = (Ok {| Disk._lsblk := Example.sda; Disk._path := u "/dev/sda";
           Disk._code := Some (u "AB12");
           Disk._item := Some (PDict [(u "code", PStr (u "AB12"))]);
           Disk._tarallo := Some Example.one_match |}, asked)
  /\ Disk.__init__ ascii_builtins (PDict Example.sda) (Some failing)
                   Example.no_trace
     = (Raise (CollaboratorError (u "HTTP 500")), asked).
Proof.
  cbv zeta. split.
  - refine (@single_match_resolves_the_disk ascii_builtins Example.one_match
              Example.sda (PStr (u "/dev/sda")) (u "WD-ABC123") (u "AB12")
              Example.no_trace eq_refl eq_refl eq_refl _).
    discriminate.
  - refine (@single_match_resolves_the_disk ascii_builtins
              {| get_codes_by_feature :=
                   get_codes_by_feature Example.one_match;
                 get_item := fun _ _ => Failure (u "HTTP 500");
                 update_item_features :=
                   update_item_features Example.one_match |}
              Example.sda (PStr (u "/dev/sda")) (u "WD-ABC123") (u "AB12")
              Example.no_trace eq_refl eq_refl eq_refl _).
    discriminate.
Defined.

(** X2. When the inventory knows no code for the serial, [update_if_needed]
    on a record without a code returns normally and leaves it without code
    and item; the look-up is made anew on every such call (the record does
    not remember that it failed). *)
Theorem no_match_is_retried_on_every_access
        (d : Disk.t) (tarallo : Tarallo) (sn : pystr) (t : trace) :
  Disk._tarallo d = Some tarallo ->
  dict_get (u "serial") (Disk._lsblk d) = Some (PStr sn) ->
  truthy (Disk._code d) = false ->
  get_codes_by_feature tarallo (u "sn") (Disk.normalize_serial sn)
  = Answer [] ->
  let unresolved := Disk.with_item None (Disk.with_code None d) in
  let looked_up t :=
    add_log (Log DEBUG "Disk not found in tarallo" None)
            (add_call (CallGetCodes (u "sn") (Disk.normalize_serial sn)) t) in
  Disk.update_if_needed (d, t) = (Ok tt, (unresolved, looked_up t))
  /\ Disk.update_if_needed (unresolved, looked_up t)
     = (Ok tt, (unresolved, looked_up (looked_up t))).
Proof.
  intros Ht Hs Hcode Hc. cbv zeta.
  assert (forall d' t',
             Disk._tarallo d' = Some tarallo ->
             Disk._lsblk d' = Disk._lsblk d ->
             truthy (Disk._code d') = false ->
             Disk.update_if_needed (d', t')
             = (Ok tt,
                (Disk.with_item None (Disk.with_code None d'),
                 add_log (Log DEBUG "Disk not found in tarallo" None)
                   (add_call (CallGetCodes (u "sn") (Disk.normalize_serial sn))
                             t')))) as H.
  { intros d' t' Ht' Hl' Hcode'. run_method. cbn [fst snd].
    rewrite Hcode'. cbn [negb fst snd].
    rewrite Ht', Hl', (DiskFacts.dict_mem_get _ _ Hs), Hs. cbn [negb fst snd].
    rewrite Hc. cbn [fst snd Disk.with_code Disk._tarallo Disk._code].
    rewrite Ht'. reflexivity. }
  split; [apply H; auto|].
  rewrite H by auto. reflexivity.
Qed.

Lemma no_match_is_retried_on_every_access_witness :
  let d := Example.sda_disk (Some (Example.inventory [] (Answer tt))) None in
  let looked_up t :=
    add_log (Log DEBUG "Disk not found in tarallo" None)
            (add_call (CallGetCodes (u "sn") (u "ABC123")) t) in
  Disk.update_if_needed (d, Example.no_trace)
  = (Ok tt, (d, looked_up Example.no_trace))
  /\ Disk.update_if_needed (d, looked_up Example.no_trace)
     = (Ok tt, (d, looked_up (looked_up Example.no_trace))).
Proof.
  exact (@no_match_is_retried_on_every_access
           (Example.sda_disk (Some (Example.inventory [] (Answer tt))) None)
           (Example.inventory [] (Answer tt)) (u "WD-ABC123") Example.no_trace
           eq_refl eq_refl eq_refl eq_refl).
Defined.

(** X3. With the inventory disabled a record is built from any enumeration
    data that has a path, serial or not, without a code; building it,
    [update_if_needed] and [update_status] call no collaborator, log
    nothing and never raise. *)
Theorem disabled_inventory_is_never_called
        (py : Builtins) (lsblk : dict) (path : pyval) (t : trace) :
  dict_get (u "path") lsblk = Some path ->
  let d := {| Disk._lsblk := lsblk; Disk._path := py_str py path;
              Disk._code := None; Disk._item := None;
              Disk._tarallo := None |} in
  Disk.__init__ py (PDict lsblk) None t = (Ok d, t)
  /\ Disk.update_if_needed (d, t) = (Ok tt, (d, t))
  /\ forall status, Disk.update_status status (d, t) = (Ok tt, (d, t)).
Proof.
  intros Hp. cbv zeta. unfold Disk.__init__. rewrite Hp.
  repeat split.
Qed.

Lemma disabled_inventory_is_never_called_witness :
  let d := {| Disk._lsblk := Example.sda_no_serial;
              Disk._path := u "/dev/sda";
              Disk._code := None; Disk._item := None;
              Disk._tarallo := None |} in
  Disk.__init__ ascii_builtins (PDict Example.sda_no_serial) None
                Example.no_trace = (Ok d, Example.no_trace)
  /\ Disk.update_if_needed (d, Example.no_trace)
     = (Ok tt, (d, Example.no_trace))
  /\ forall status,
      Disk.update_status status (d, Example.no_trace)
      = (Ok tt, (d, Example.no_trace)).
Proof.
  exact (@disabled_inventory_is_never_called ascii_builtins
           Example.sda_no_serial (PStr (u "/dev/sda")) Example.no_trace
           eq_refl).
Defined.

(** X4. With the inventory enabled, a [serial] that is present but is not
    a string (the enumerator prints [null] for a device without one) makes
    [_get_code] raise [AttributeError] in both modes, before any look-up
    and without touching the code; building the record raises it too. *)
Theorem serial_that_is_no_string_raises_attribute_error
        (py : Builtins) (tarallo : Tarallo) (lsblk : dict) (path serial : pyval)
        (t : trace) :
  dict_get (u "path") lsblk = Some path ->
  dict_get (u "serial") lsblk = Some serial ->
  (forall s, serial <> PStr s) ->
  (forall stop (d : Disk.t),
      Disk._tarallo d = Some tarallo -> Disk._lsblk d = lsblk ->
      Disk._get_code stop (d, t) = (Raise AttributeError, (d, t)))
  /\ Disk.__init__ py (PDict lsblk) (Some tarallo) t
     = (Raise AttributeError, t).
Proof.
  intros Hp Hs Hn.
  assert (forall stop (d : Disk.t),
             Disk._tarallo d = Some tarallo -> Disk._lsblk d = lsblk ->
             Disk._get_code stop (d, t) = (Raise AttributeError, (d, t))) as H.
  { intros stop d Ht Hl. run_method. cbn [fst snd].
    rewrite Ht, Hl, (DiskFacts.dict_mem_get _ _ Hs), Hs. cbn [negb fst snd].
    destruct serial; try reflexivity. destruct (Hn s eq_refl). }
  split; [exact H|].
  unfold Disk.__init__. rewrite Hp. unfold bind at 1.
  rewrite H by reflexivity. reflexivity.
Qed.

Lemma serial_that_is_no_string_raises_attribute_error_witness :
  let lsblk := [(u "path", PStr (u "/dev/loop0")); (u "serial", PNone);
                (u "mountpoint", PList [])] in
  Disk.__init__ ascii_builtins (PDict lsblk) (Some Example.one_match)
                Example.no_trace
  = (Raise AttributeError, Example.no_trace).
Proof.
  refine (proj2 (@serial_that_is_no_string_raises_attribute_error
                   ascii_builtins Example.one_match
                   [(u "path", PStr (u "/dev/loop0")); (u "serial", PNone);
                    (u "mountpoint", PList [])]
                   (PStr (u "/dev/loop0")) PNone Example.no_trace
                   eq_refl eq_refl _)).
  discriminate.
Defined.

(* ------------------------------------------------------------------ *)
(** ** Command threads: closed connections, bookkeeping, idle commands *)

Module ThreadFacts.
Import CommandRunner.

Lemma discreet_refl the_id w : discreet the_id w w.
Proof. unfold discreet. auto. Qed.

Lemma discreet_trans the_id a b c :
  discreet the_id a b -> discreet the_id b c -> discreet the_id a c.
Proof.
  intros (H1 & H2 & H3) (K1 & K2 & K3). unfold discreet.
  split; [congruence|]. split; [congruence|].
  intros Hc. rewrite K3, H3; auto. rewrite H1. exact Hc.
Qed.

Section Discreet.
Variable the_id : Z.

Lemma discreet_logging lvl text exc :
  respects (discreet the_id) (logging lvl text exc).
Proof. intros w. unfold discreet. cbn. auto. Qed.

Lemma discreet_traced A (m : M trace A) :
  respects (discreet the_id) (traced m).
Proof.
  intros w. unfold traced. destruct (m (tr w)) as [r t].
  unfold discreet. cbn. auto.
Qed.

Lemma discreet_on_disk A key (m : Disk.method A) :
  respects (discreet the_id) (on_disk key m).
Proof.
  intros w. unfold on_disk.
  destruct (dict_get key (disks w)) as [[d|]|]; try apply discreet_refl.
  destruct (m (d, tr w)) as [r [d' t]]. unfold discreet. cbn. auto.
Qed.

Lemma discreet_store key d :
  respects (discreet the_id)
           (modify (fun w => set_disks (dict_set key (Some d) (disks w)) w)).
Proof. intros w. unfold discreet. cbn. auto. Qed.

(** Whatever is sent to [the_id]. *)
Lemma discreet_send_msg cmd param :
  respects (discreet the_id) (send_msg the_id cmd param).
Proof.
  intros w. unfold send_msg, bind, get.
  destruct (existsb (Z.eqb the_id) (clients w)) eqn:E;
    [|apply discreet_logging].
  destruct param as [p|].
  - unfold lift_result, _encode_param.
    destruct (json_serializable p); [|apply discreet_refl].
    unfold discreet. cbn. rewrite E. repeat split; congruence.
  - unfold discreet. cbn. rewrite E. repeat split; congruence.
Qed.

Create HintDb discreet_frame.
Hint Resolve discreet_logging discreet_traced discreet_on_disk
  discreet_store discreet_send_msg : discreet_frame.

Ltac discreet_frame :=
  respects_with (@discreet_refl the_id) (@discreet_trans the_id)
                ltac:(auto with discreet_frame).

Lemma discreet_update_disk_if_needed key :
  respects (discreet the_id) (update_disk_if_needed the_id key).
Proof. unfold update_disk_if_needed. discreet_frame. Qed.

Hint Resolve discreet_update_disk_if_needed : discreet_frame.

Lemma discreet_get_smartctl env dev :
  respects (discreet the_id) (get_smartctl env dev the_id).
Proof. unfold get_smartctl. discreet_frame. Qed.

Lemma discreet_get_disk_to_send py env disk result :
  respects (discreet the_id) (get_disk_to_send py env the_id disk result).
Proof. unfold get_disk_to_send. discreet_frame. Qed.

Lemma discreet_get_disks_loop py env keys : forall result,
  respects (discreet the_id) (get_disks_loop py env the_id keys result).
Proof.
  induction keys as [|k keys IH]; intros result; simpl.
  - apply respects_ret, discreet_refl.
  - apply (respects_bind (@discreet_trans the_id));
      [apply discreet_get_disk_to_send | intros r; apply IH].
Qed.

Lemma discreet_exec_command py env cmd args :
  respects (discreet the_id) (exec_command py env cmd args the_id).
Proof.
  pose proof discreet_get_smartctl. pose proof discreet_get_disks_loop.
  unfold exec_command, dispatch, get_disks_to_send. discreet_frame.
Qed.
End Discreet.

Lemma fresh_thread_above (l : list nat) n :
  In n l -> (n <= fold_right Nat.max 0 l)%nat.
Proof.
  induction l as [|x l IH]; simpl; [tauto|].
  intros [->|H]; [lia | specialize (IH H); lia].
Qed.

Lemma filter_fresh_thread (l : list nat) n :
  ~ In n l -> filter (fun m => negb (Nat.eqb n m)) l = l.
Proof.
  induction l as [|x l IH]; simpl; [reflexivity|].
  intros H. destruct (Nat.eqb_spec n x) as [->|Hn]; simpl.
  - exfalso. apply H. left. reflexivity.
  - rewrite IH; [reflexivity | tauto].
Qed.

Lemma remove_fresh_thread n l w :
  running_commands w = n :: l -> ~ In n l ->
  remove_running n w = (Ok tt, set_running l w).
Proof.
  intros H Hn. unfold remove_running, bind, get, modify. rewrite H.
  simpl. rewrite Nat.eqb_refl. simpl.
  rewrite filter_fresh_thread by exact Hn. reflexivity.
Qed.
End ThreadFacts.



(** X6. A command started as [lineReceived] starts it always runs to its
    end: the new thread joins [running_commands], [run] never raises, and
    when it ends the set is what it was before, fault or no fault; the set
    of open connections is untouched. *)
Theorem started_thread_leaves_no_trace_in_running_commands
        (py : Builtins) (env : Env) (cmd args : pystr) (the_id : Z)
        (w : world) :
  let r := CommandRunner.start py env cmd args the_id w in
  fst r = Ok tt
  /\ running_commands (snd r) = running_commands w
  /\ clients (snd r) = clients w.
Proof.
  cbv zeta. unfold CommandRunner.start.
  cbv beta iota zeta delta [bind get modify]. cbn [CommandRunner.thread].
  set (n := S (fold_right Nat.max 0 (running_commands w))).
  set (w0 := CommandRunner.set_running (n :: running_commands w) w).
  assert (~ In n (running_commands w)) as Hfresh.
  { intros Hin. apply ThreadFacts.fresh_thread_above in Hin. unfold n in Hin. lia. }
  unfold CommandRunner.run, bind, try_except.
  cbn [CommandRunner._cmd CommandRunner._args CommandRunner._the_id
       CommandRunner.thread].
  pose proof (@ThreadFacts.discreet_exec_command the_id py env cmd args w0)
    as (Hc & Hr & _).
  destruct (CommandRunner.exec_command py env cmd args the_id w0)
    as [[[]|e] w1]; cbn [snd] in *;
    [|unfold CommandRunner.logging, modify; cbn beta iota];
    (rewrite (@ThreadFacts.remove_fresh_thread n (running_commands w));
     [cbn; auto | cbn; rewrite Hr; reflexivity | exact Hfresh]).
Qed.

(** X7. A command word other than [smartctl], [get_disks] and
    [get_disks_win] starts no work: on an open connection the reply is the
    bare [pong] for [ping] and otherwise [error] with the message and the
    command word as received; the registry is not touched and no
    collaborator is called. *)
Theorem idle_commands_touch_nothing
        (py : Builtins) (env : Env) (cmd args : pystr) (the_id : Z)
        (w : world) :
  existsb (Z.eqb the_id) (clients w) = true ->
  cmd <> u "smartctl" -> cmd <> u "get_disks" -> cmd <> u "get_disks_win" ->
  CommandRunner.exec_command py env cmd args the_id w
  = (Ok tt, CommandRunner.hand_off (the_id, idle_reply cmd) (received w)).
Proof.
  intros Hreg H1 H2 H3.
  unfold CommandRunner.exec_command, CommandRunner.dispatch, idle_reply.
  destruct (str_eqb_spec cmd (u "smartctl")); [congruence|].
  destruct (str_eqb_spec cmd (u "get_disks")); [congruence|].
  destruct (str_eqb_spec cmd (u "get_disks_win")); [congruence|].
  cbv beta iota zeta delta [bind ret CommandRunner.logging modify].
  fold (received w).
  destruct (str_eqb cmd (u "ping")); cbv beta iota;
    rewrite (@ExecFacts.send_msg_registered the_id _ _ (received w) Hreg);
    reflexivity.
Qed.

Lemma idle_commands_touch_nothing_witness :
  CommandRunner.exec_command ascii_builtins (Example.host None 0)
    (u "frobnicate") (u "now") 0 (Example.state [])
  = (Ok tt,
     CommandRunner.hand_off
       (0%Z, Response (u "error")
                      (Some (PDict [(u "message",
                                     PStr (u "Unrecognized command"));
                                    (u "command", PStr (u "frobnicate"))])))
       (received (Example.state []))).
Proof.
  refine (@idle_commands_touch_nothing ascii_builtins (Example.host None 0)
            (u "frobnicate") (u "now") 0 (Example.state []) eq_refl _ _ _);
    discriminate.
Defined.

(* ------------------------------------------------------------------ *)
(** ** What [get_disks] replies *)

Module ListingFacts.
Import CommandRunner.

(** The second half of an iteration of [get_disks_to_send]. *)
Lemma list_one_disk the_id key result w r w' :
  (w0 <- get ;;
   if negb (is_none (dict_get key (disks w0))) then
     update_disk_if_needed the_id key ;;
     serialized <- on_disk key Disk.serialize_disk ;;
     ret (result ++ [PDict serialized])
   else ret result) w = (Ok r, w') ->
  r = result ++ listed (disks w') key
  /\ forall d, dict_get key (disks w') = Some (Some d) -> shows_its_code d.
Proof.
  cbv beta iota zeta delta [bind get ret]. unfold listed.
  destruct (dict_get key (disks w)) as [[d|]|] eqn:Ek; cbn [is_none negb].
  - destruct (RegistryFacts.update_disk_if_needed_entry the_id _ _ Ek)
      as (d3 & Hk3 & _).
    destruct (update_disk_if_needed the_id key w) as [[[]|e] w3];
      [|discriminate].
    cbn [snd] in Hk3. rewrite (RegistryFacts.on_disk_serialize _ _ Hk3).
    intros H. inversion H; subst r w'; clear H.
    cbn [disks set_tr set_disks]. rewrite dict_get_set_same.
    split; [reflexivity|].
    intros d0 Hd0. inversion Hd0; subst d0. unfold shows_its_code.
    cbn [Disk.with_lsblk Disk._lsblk Disk._code].
    apply dict_get_set_same.
  - intros H. inversion H; subst r w'. rewrite Ek, app_nil_r.
    split; [reflexivity | discriminate].
  - unfold update_disk_if_needed, try_except, on_disk. rewrite Ek.
    cbv beta iota. unfold ret. rewrite Ek. discriminate.
Qed.

Lemma get_disk_to_send_lists py env the_id key result w r w' :
  get_disk_to_send py env the_id key result w = (Ok r, w') ->
  r = result ++ listed (disks w') key
  /\ forall d, dict_get key (disks w') = Some (Some d) -> shows_its_code d.
Proof.
  unfold get_disk_to_send. unfold bind at 1. unfold get at 1.
  cbv beta iota. unfold bind at 1.
  match goal with
  | |- context [(if ?c then ?a else ?b) w] =>
      destruct ((if c then a else b) w) as [[[]|e] w2]
  end; [|discriminate].
  apply list_one_disk.
Qed.

Lemma listed_untouched (r r' : list (pystr * option Disk.t)) keys :
  (forall k, In k keys -> dict_get k r' = dict_get k r) ->
  flat_map (listed r') keys = flat_map (listed r) keys.
Proof.
  intros H. induction keys as [|k keys IH]; simpl; [reflexivity|].
  rewrite IH by (intros; apply H; right; assumption).
  unfold listed. rewrite H by (left; reflexivity). reflexivity.
Qed.

Lemma get_disks_loop_lists py env the_id : forall keys result w r w',
  NoDup keys ->
  get_disks_loop py env the_id keys result w = (Ok r, w') ->
  r = result ++ flat_map (listed (disks w')) keys
  /\ forall k d, In k keys -> dict_get k (disks w') = Some (Some d) ->
                 shows_its_code d.
Proof.
  induction keys as [|k keys IH]; intros result w r w' Hnd H.
  - inversion H; subst. rewrite app_nil_r. split; [reflexivity|].
    intros k d [].
  - inversion Hnd as [|? ? Hk Hnd']; subst.
    simpl in H. unfold bind in H.
    destruct (get_disk_to_send py env the_id k result w) as [[r1|e] w1] eqn:E1;
      [|discriminate H].
    destruct (get_disk_to_send_lists _ _ _ _ _ _ E1) as [Hr1 Hc1].
    destruct (IH _ _ _ _ Hnd' H) as [Hr Hc].
    pose proof (@RunnerFrame.stable_get_disks_loop the_id
                  (fun p => In p keys) py env keys r1 (fun _ H => H) w1)
      as (_ & _ & Hsame & _).
    rewrite H in Hsame. cbn [snd] in Hsame.
    split.
    + rewrite Hr, Hr1, <- app_assoc. f_equal. simpl. f_equal.
      unfold listed. rewrite Hsame by exact Hk. reflexivity.
    + intros k' d [->|Hin] Hd.
      * apply Hc1. rewrite <- Hsame by exact Hk. exact Hd.
      * eapply Hc; eauto.
Qed.
End ListingFacts.

(** X8. When [get_disks] completes, its payload lists, in the order of the
    registry, the enumeration data of every record the registry then
    holds (an entry still without record is left out), and each of these
    shows under [code] the code its record holds. *)
Theorem get_disks_lists_the_registry_in_order
        (py : Builtins) (env : Env) (the_id : Z) (w : world)
        (payload : pyval) (w' : world) :
  NoDup (dict_keys (disks w)) ->
  CommandRunner.get_disks_to_send py env the_id w = (Ok payload, w') ->
  payload = PList (flat_map (listed (disks w')) (dict_keys (disks w)))
  /\ forall key d,
      In key (dict_keys (disks w)) ->
      dict_get key (disks w') = Some (Some d) -> shows_its_code d.
Proof.
  intros Hnd H. unfold CommandRunner.get_disks_to_send in H.
  cbv beta iota zeta delta [bind get ret] in H.
  destruct (CommandRunner.get_disks_loop py env the_id (dict_keys (disks w))
              [] w) as [[r|e] w1] eqn:E; [|discriminate H].
  inversion H; subst payload w'; clear H.
  destruct (ListingFacts.get_disks_loop_lists _ _ _ _ _ Hnd E) as [Hr Hc].
  split; [rewrite Hr; reflexivity | exact Hc].
Qed.

Lemma get_disks_lists_the_registry_in_order_witness :
  let w := Example.state
             [(u "/dev/sdb", None);
              (u "/dev/sda",
               Some (Example.sda_disk (Some Example.one_match) None))] in
  let r := CommandRunner.get_disks_to_send ascii_builtins
             (Example.host (Some Example.one_match) 0) 0 w in
  fst r
  = Ok (PList [PDict (Example.sda ++ [(u "code", PStr (u "AB12"))])])
  /\ forall key d,
      In key [u "/dev/sdb"; u "/dev/sda"] ->
      dict_get key (disks (snd r)) = Some (Some d) -> shows_its_code d.
Proof.
  cbv zeta.
  set (w := Example.state _).
  set (r := CommandRunner.get_disks_to_send _ _ _ w).
  assert (r = (Ok (match fst r with Ok p => p | Raise _ => PNone end), snd r))
    as E by (vm_compute; reflexivity).
  assert (NoDup (dict_keys (disks w))) as Hnd.
  { repeat constructor; simpl; [intros [H|[]]; discriminate H | tauto]. }
  destruct (@get_disks_lists_the_registry_in_order ascii_builtins
              (Example.host (Some Example.one_match) 0) 0 w _ _ Hnd E)
    as [Hp Hc].
  split; [|exact Hc].
  vm_compute. reflexivity.
Defined.

(* ------------------------------------------------------------------ *)
(** ** The other outcomes of [smartctl] *)

(** X9. [smartctl dev] for a device that is not in the registry, when the
    tool exits zero: the reply carries the status and [updated] false;
    the registry is not touched and the inventory is not called. *)
Theorem untracked_device_is_reported_and_not_pushed
        (py : Builtins) (env : Env) (dev : pystr) (the_id : Z) (w : world)
        (out err : bytes) (output stderr : pystr) :
  existsb (Z.eqb the_id) (clients w) = true ->
  smartctl env dev = (out, err, 0%Z) ->
  Utf8.decode out = Some output ->
  Utf8.decode err = Some stderr ->
  dict_mem dev (disks w) = false ->
  CommandRunner.exec_command py env (u "smartctl") dev the_id w
  = (Ok tt,
     CommandRunner.hand_off
       (the_id, smartctl_reply dev (PStr (u "old")) false 0 output stderr)
       (smartctl_done dev w)).
Proof.
  intros Hreg Hsm Hout Herr Hmem.
  unfold CommandRunner.exec_command, CommandRunner.dispatch.
  rewrite str_eqb_refl. unfold CommandRunner.get_smartctl.
  cbv beta iota zeta delta [bind ret get modify CommandRunner.logging
                             CommandRunner.traced].
  rewrite SmartctlFacts.tr_set_tr, SmartctlFacts.set_tr_twice.
  fold (smartctl_done dev w). unfold get_smartctl_status.
  rewrite Hsm, Hout, Herr. cbv beta iota. rewrite Z.eqb_refl.
  change (disks (smartctl_done dev w)) with (disks w). rewrite Hmem.
  cbv beta iota.
  match goal with
  | |- context [CommandRunner.send_msg _ _ _ ?w3] =>
      rewrite (@ExecFacts.send_msg_registered the_id _ _ w3 Hreg)
  end.
  rewrite SmartctlFacts.smartctl_payload_serializable by reflexivity.
  reflexivity.
Qed.

Lemma untracked_device_is_reported_and_not_pushed_witness :
  CommandRunner.exec_command ascii_builtins
    (Example.host (Some Example.one_match) 0) (u "smartctl") (u "/dev/sdz") 0
    (Example.state
       [(u "/dev/sda", Some (Example.sda_disk (Some Example.one_match) None))])
  = (Ok tt,
     CommandRunner.hand_off
       (0%Z, smartctl_reply (u "/dev/sdz") (PStr (u "old")) false 0
                            (u "smartctl 7.2") [])
       (smartctl_done (u "/dev/sdz")
          (Example.state
             [(u "/dev/sda",
               Some (Example.sda_disk (Some Example.one_match) None))]))).
Proof.
  exact (@untracked_device_is_reported_and_not_pushed ascii_builtins
           (Example.host (Some Example.one_match) 0) (u "/dev/sdz") 0
           (Example.state
              [(u "/dev/sda",
                Some (Example.sda_disk (Some Example.one_match) None))])
           (Example.ascii "smartctl 7.2") [] (u "smartctl 7.2") []
           eq_refl eq_refl eq_refl eq_refl eq_refl).
Defined.

(** X10. [smartctl dev] for a tracked disk that has a code, when the tool
    exits zero, what it printed on both streams is valid UTF-8 and the
    inventory accepts the status: the item is fetched again, the status is
    pushed as the [smart-data] feature of that code, and the one reply
    carries [updated] true. This holds whether fetching the item succeeds
    or fails. *)
Theorem accepted_status_is_pushed_and_reported
        (py : Builtins) (env : Env) (dev : pystr) (the_id : Z) (w : world)
        (out err : bytes) (output stderr : pystr)
        (d : Disk.t) (tarallo : Tarallo) (code : pystr) :
  existsb (Z.eqb the_id) (clients w) = true ->
  smartctl env dev = (out, err, 0%Z) ->
  Utf8.decode out = Some output ->
  Utf8.decode err = Some stderr ->
  dict_get dev (disks w) = Some (Some d) ->
  Disk._tarallo d = Some tarallo ->
  Disk._code d = Some code ->
  code <> [] ->
  update_item_features tarallo code [(u "smart-data", PStr (u "old"))]
  = Answer tt ->
  let done := CommandRunner.exec_command py env (u "smartctl") dev the_id w in
  fst done = Ok tt
  /\ sent (snd done)
     = sent w ++ [(the_id, smartctl_reply dev (PStr (u "old")) true 0
                                          output stderr)]
  /\ calls (tr (snd done))
     = calls (tr w)
         ++ [CallSmartctl dev; CallGetItem code;
             CallUpdateFeatures code [(u "smart-data", PStr (u "old"))]].
Proof.
  intros Hreg Hsm Hout Herr Hd Ht Hc Hne Hpush. cbv zeta.
  unfold CommandRunner.exec_command, CommandRunner.dispatch.
  rewrite str_eqb_refl. unfold CommandRunner.get_smartctl.
  cbv beta iota zeta delta [bind ret get modify CommandRunner.logging
                             CommandRunner.traced].
  rewrite SmartctlFacts.tr_set_tr, SmartctlFacts.set_tr_twice.
  fold (smartctl_done dev w). unfold get_smartctl_status.
  rewrite Hsm, Hout, Herr. cbv beta iota. rewrite Z.eqb_refl.
  change (disks (smartctl_done dev w)) with (disks w).
  rewrite (DiskFacts.dict_mem_get _ _ Hd). cbv beta iota.
  unfold CommandRunner.update_disk_if_needed, try_except,
    CommandRunner.on_disk.
  change (disks (smartctl_done dev w)) with (disks w). rewrite Hd.
  destruct code as [|c0 code]; [congruence|].
  run_method. cbn [fst snd]. rewrite Hc. cbn [truthy negb fst snd].
  rewrite Ht, Hc. cbn [truthy fst snd].
  destruct (get_item tarallo (c0 :: code) 0) as [item|what];
    cbn [of_answer fst snd CommandRunner.set_tr CommandRunner.set_disks
         disks tr Disk.with_item Disk._tarallo Disk._code];
    rewrite dict_get_set_same;
    cbn [fst snd Disk.with_item Disk._tarallo Disk._code];
    rewrite ?Ht, ?Hc; cbn [truthy fst snd]; rewrite Hpush;
    cbn [of_answer fst snd];
    (match goal with
     | |- context [CommandRunner.send_msg _ _ _ ?w3] =>
         rewrite (@ExecFacts.send_msg_registered the_id _ _ w3 Hreg)
     end);
    rewrite SmartctlFacts.smartctl_payload_serializable by reflexivity;
    cbn; rewrite <- !app_assoc; repeat split.
Qed.

Lemma accepted_status_is_pushed_and_reported_witness :
  let done :=
    CommandRunner.exec_command ascii_builtins
      (Example.host (Some Example.one_match) 0) (u "smartctl") (u "/dev/sda") 0
      (Example.state
         [(u "/dev/sda",
           Some (Example.sda_disk (Some Example.one_match)
                                  (Some (u "AB12"))))]) in
  fst done = Ok tt
  /\ sent (snd done)
     = [(0%Z, smartctl_reply (u "/dev/sda") (PStr (u "old")) true 0
                             (u "smartctl 7.2") [])]
  /\ calls (tr (snd done))
     = [CallSmartctl (u "/dev/sda"); CallGetItem (u "AB12");
        CallUpdateFeatures (u "AB12") [(u "smart-data", PStr (u "old"))]].
Proof.
  refine (@accepted_status_is_pushed_and_reported ascii_builtins
            (Example.host (Some Example.one_match) 0) (u "/dev/sda") 0
            (Example.state
               [(u "/dev/sda",
                 Some (Example.sda_disk (Some Example.one_match)
                                        (Some (u "AB12"))))])
            (Example.ascii "smartctl 7.2") [] (u "smartctl 7.2") []
            (Example.sda_disk (Some Example.one_match) (Some (u "AB12")))
            Example.one_match (u "AB12")
            eq_refl eq_refl eq_refl eq_refl eq_refl eq_refl eq_refl _ eq_refl).
  discriminate.
Defined.

(** X11. [updated] true does not say that the inventory was told: for a
    tracked disk whose record has no inventory client, a zero exit of the
    tool, with valid UTF-8 on both streams, is answered with [updated]
    true although no inventory call is made. *)
Theorem updated_is_reported_without_an_inventory
        (py : Builtins) (env : Env) (dev : pystr) (the_id : Z) (w : world)
        (out err : bytes) (output stderr : pystr) (d : Disk.t) :
  existsb (Z.eqb the_id) (clients w) = true ->
  smartctl env dev = (out, err, 0%Z) ->
  Utf8.decode out = Some output ->
  Utf8.decode err = Some stderr ->
  dict_get dev (disks w) = Some (Some d) ->
  Disk._tarallo d = None ->
  let done := CommandRunner.exec_command py env (u "smartctl") dev the_id w in
  fst done = Ok tt
  /\ sent (snd done)
     = sent w ++ [(the_id, smartctl_reply dev (PStr (u "old")) true 0
                                          output stderr)]
  /\ calls (tr (snd done)) = calls (tr w) ++ [CallSmartctl dev].
Proof.
  intros Hreg Hsm Hout Herr Hd Ht. cbv zeta.
  unfold CommandRunner.exec_command, CommandRunner.dispatch.
  rewrite str_eqb_refl. unfold CommandRunner.get_smartctl.
  cbv beta iota zeta delta [bind ret get modify CommandRunner.logging
                             CommandRunner.traced].
  rewrite SmartctlFacts.tr_set_tr, SmartctlFacts.set_tr_twice.
  fold (smartctl_done dev w). unfold get_smartctl_status.
  rewrite Hsm, Hout, Herr. cbv beta iota. rewrite Z.eqb_refl.
  change (disks (smartctl_done dev w)) with (disks w).
  rewrite (DiskFacts.dict_mem_get _ _ Hd). cbv beta iota.
  unfold CommandRunner.update_disk_if_needed, try_except,
    CommandRunner.on_disk.
  change (disks (smartctl_done dev w)) with (disks w). rewrite Hd.
  run_method. cbn [fst snd].
  destruct (truthy (Disk._code d)); cbn [negb fst snd]; rewrite ?Ht;
    cbn [fst snd Disk.with_code Disk._tarallo]; rewrite ?Ht;
    cbn [fst snd CommandRunner.set_tr CommandRunner.set_disks disks tr];
    rewrite dict_get_set_same;
    cbn [fst snd Disk.with_item Disk.with_code Disk._tarallo Disk._code];
    rewrite ?Ht; cbn [fst snd];
    (match goal with
     | |- context [CommandRunner.send_msg _ _ _ ?w3] =>
         rewrite (@ExecFacts.send_msg_registered the_id _ _ w3 Hreg)
     end);
    rewrite SmartctlFacts.smartctl_payload_serializable by reflexivity;
    cbn; repeat split.
Qed.

Lemma updated_is_reported_without_an_inventory_witness :
  let done :=
    CommandRunner.exec_command ascii_builtins (Example.host None 0)
      (u "smartctl") (u "/dev/sda") 0
      (Example.state [(u "/dev/sda", Some (Example.sda_disk None None))]) in
  fst done = Ok tt
  /\ sent (snd done)
     = [(0%Z, smartctl_reply (u "/dev/sda") (PStr (u "old")) true 0
                             (u "smartctl 7.2") [])]
  /\ calls (tr (snd done)) = [CallSmartctl (u "/dev/sda")].
Proof.
  exact (@updated_is_reported_without_an_inventory ascii_builtins
           (Example.host None 0) (u "/dev/sda") 0
           (Example.state [(u "/dev/sda", Some (Example.sda_disk None None))])
           (Example.ascii "smartctl 7.2") [] (u "smartctl 7.2") []
           (Example.sda_disk None None)
           eq_refl eq_refl eq_refl eq_refl eq_refl eq_refl).
Defined.

(** X12. When what the tool printed, on either stream, is not UTF-8,
    [smartctl] is not answered at all: [exec_command] raises
    [UnicodeDecodeError] right after the tool has run, and the command
    thread logs the fault and hands the reactor nothing. *)
Theorem undecodable_tool_output_gets_no_reply
        (py : Builtins) (env : Env) (self : CommandRunner.t) (w : world)
        (out err : bytes) (exitcode : Z) :
  CommandRunner._cmd self = u "smartctl" ->
  smartctl env (CommandRunner._args self) = (out, err, exitcode) ->
  Utf8.decode out = None \/ Utf8.decode err = None ->
  CommandRunner.exec_command py env (u "smartctl") (CommandRunner._args self)
                             (CommandRunner._the_id self) w
  = (Raise UnicodeDecodeError, smartctl_done (CommandRunner._args self) w)
  /\ let ended := snd (CommandRunner.run py env self w) in
     sent ended = sent w
     /\ disks ended = disks w
     /\ In (Log ERROR "BIG ERROR in command thread" (Some UnicodeDecodeError))
           (logs (tr ended)).
Proof.
  intros Hcmd Hsm Hdec.
  assert (CommandRunner.exec_command py env (u "smartctl")
            (CommandRunner._args self) (CommandRunner._the_id self) w
          = (Raise UnicodeDecodeError,
             smartctl_done (CommandRunner._args self) w)) as E.
  { unfold CommandRunner.exec_command, CommandRunner.dispatch.
    rewrite str_eqb_refl. unfold CommandRunner.get_smartctl.
    cbv beta iota zeta delta [bind ret get modify CommandRunner.logging
                               CommandRunner.traced].
    rewrite SmartctlFacts.tr_set_tr, SmartctlFacts.set_tr_twice.
    fold (smartctl_done (CommandRunner._args self) w). rewrite Hsm.
    destruct Hdec as [H|H]; rewrite H; [reflexivity|].
    destruct (Utf8.decode out); reflexivity. }
  split; [exact E|]. cbv zeta.
  unfold CommandRunner.run, try_except, bind.
  rewrite Hcmd, E. cbv beta iota.
  unfold CommandRunner.logging, modify, CommandRunner.remove_running.
  cbv beta iota zeta delta [bind get modify raise].
  match goal with
  | |- context [if ?c then _ else _] => destruct c
  end; cbn; repeat split; apply in_or_app; right; left; reflexivity.
Qed.

Lemma undecodable_tool_output_gets_no_reply_witness :
  let env := {| TARALLO := None; lsblk_json := fun _ => None;
                smartctl := fun _ => ([Byte.xff], [], 0%Z);
                wmic := fun _ => [] |} in
  let w := Example.state [] in
  CommandRunner.exec_command ascii_builtins env (u "smartctl") (u "/dev/sda")
                             0 w
  = (Raise UnicodeDecodeError, smartctl_done (u "/dev/sda") w)
  /\ let ended := snd (CommandRunner.run ascii_builtins env
                         (Example.runner "smartctl" "/dev/sda") w) in
     sent ended = sent w
     /\ disks ended = disks w
     /\ In (Log ERROR "BIG ERROR in command thread" (Some UnicodeDecodeError))
           (logs (tr ended)).
Proof.
  exact (@undecodable_tool_output_gets_no_reply ascii_builtins
           {| TARALLO := None; lsblk_json := fun _ => None;
              smartctl := fun _ => ([Byte.xff], [], 0%Z);
              wmic := fun _ => [] |}
           (Example.runner "smartctl" "/dev/sda") (Example.state [])
           [Byte.xff] [] 0 eq_refl eq_refl (or_introl eq_refl)).
Defined.

(* ------------------------------------------------------------------ *)
(** ** The enumeration of the disks *)

Module LsblkFacts.

Lemma str_eqb_neq a b : a <> b -> str_eqb a b = false.
Proof.
  intros H. destruct (str_eqb_spec a b); [contradiction | reflexivity].
Qed.

Lemma dict_get_del_other (V : Type) k k' (d : list (pystr * V)) :
  k' <> k -> dict_get k' (dict_del k d) = dict_get k' d.
Proof.
  intros Hne. induction d as [|[k0 v0] d IH]; [reflexivity|]. simpl.
  destruct (str_eqb_spec k0 k) as [E0|E0].
  - subst k0. rewrite (str_eqb_neq (not_eq_sym Hne)). reflexivity.
  - simpl. rewrite IH. reflexivity.
Qed.

Lemma dict_get_not_key (V : Type) k (d : list (pystr * V)) :
  ~ In k (dict_keys d) -> dict_get k d = None.
Proof.
  induction d as [|[k0 v0] d IH]; [reflexivity|]. simpl. intros H.
  rewrite str_eqb_neq by tauto. apply IH. tauto.
Qed.

Lemma dict_get_del_same (V : Type) k (d : list (pystr * V)) :
  NoDup (dict_keys d) -> dict_get k (dict_del k d) = None.
Proof.
  induction d as [|[k0 v0] d IH]; [reflexivity|]. simpl. intros H.
  inversion H as [|? ? Hnin Hnd]; subst.
  destruct (str_eqb_spec k0 k) as [E0|E0].
  - subst k0. apply dict_get_not_key, Hnin.
  - simpl. rewrite (str_eqb_neq E0). apply IH, Hnd.
Qed.

(** [find_mounts] collects mount points, never [None]. *)
Lemma find_mounts_no_none : forall el ms,
  find_mounts el = Ok ms -> ~ In PNone ms.
Proof.
  fix IH 1. intros el ms. destruct el as [| | | |l|d|]; try discriminate.
  simpl. destruct (dict_get (u "mountpoint") d) as [m|]; [|discriminate].
  assert (~ In PNone (match m with PNone => [] | _ => [m] end)) as Hm.
  { destruct m; simpl; intuition discriminate. }
  revert Hm. generalize (match m with PNone => [] | _ => [m] end).
  intros mounts Hm.
  induction d as [|[k v] d IHd]; [intros H; inversion H; subst; exact Hm|].
  destruct (str_eqb k (u "children")); [|exact IHd].
  destruct v as [| | |s|cs|d0|]; try discriminate.
  - destruct s; [|discriminate]. intros H; inversion H; subst; exact Hm.
  - clear IHd. revert mounts Hm.
    induction cs as [|child cs IHcs]; intros mounts Hm H.
    + inversion H; subst; exact Hm.
    + destruct (find_mounts child) as [ms'|e] eqn:Ec; [|discriminate].
      apply (IHcs (mounts ++ ms')); [|exact H].
      intros Hin. apply in_app_or in Hin. destruct Hin as [Hin|Hin].
      * exact (Hm Hin).
      * exact (IH child ms' Ec Hin).
  - destruct d0; [|discriminate]. intros H; inversion H; subst; exact Hm.
Qed.

Lemma dict_del_keys (V : Type) k k' (d : list (pystr * V)) :
  In k' (dict_keys (dict_del k d)) -> In k' (dict_keys d).
Proof.
  induction d as [|[k0 v0] d IH]; [auto|]. simpl.
  destruct (str_eqb k0 k); simpl; tauto.
Qed.

Lemma dict_del_unique (V : Type) k (d : list (pystr * V)) :
  NoDup (dict_keys d) -> NoDup (dict_keys (dict_del k d)).
Proof.
  induction d as [|[k0 v0] d IH]; [auto|]. simpl. intros H.
  inversion H as [|? ? Hnin Hnd]; subst.
  destruct (str_eqb k0 k); [exact Hnd|]. simpl. constructor; [|auto].
  intros Hin. apply Hnin. eapply dict_del_keys, Hin.
Qed.

(** [if k in el: del el[k]] leaves no [k] and keeps the rest. *)
Lemma dropped (V : Type) k (d : list (pystr * V)) :
  NoDup (dict_keys d) ->
  let d' := if dict_mem k d then dict_del k d else d in
  NoDup (dict_keys d')
  /\ dict_get k d' = None
  /\ forall k', k' <> k -> dict_get k' d' = dict_get k' d.
Proof.
  intros Hnd. cbv zeta. destruct (dict_mem k d) eqn:E.
  - split; [apply dict_del_unique, Hnd|].
    split; [apply dict_get_del_same, Hnd|].
    intros k' Hne. apply dict_get_del_other, Hne.
  - split; [exact Hnd|]. split; [|reflexivity].
    apply DiskFacts.dict_mem_false, E.
Qed.

Lemma clean_device_cleaned el el' :
  unique_keys el -> clean_device el = Ok el' -> cleaned el el'.
Proof.
  intros Hu. unfold clean_device.
  destruct (find_mounts el) as [mounts|e] eqn:Em; [|discriminate].
  destruct el as [| | | |l|d|]; try discriminate.
  intros H. inversion H; subst el'; clear H.
  destruct (@dropped _ (u "children") _ (Hu d eq_refl)) as (Hn1 & Hc1 & Ho1).
  destruct (@dropped _ (u "name") _ Hn1) as (_ & Hc2 & Ho2).
  exists d. eexists. exists mounts.
  split; [reflexivity|]. split; [reflexivity|]. split; [exact Em|].
  split; [apply dict_get_set_same|].
  assert (u "children" <> u "mountpoint") as N1 by discriminate.
  assert (u "name" <> u "mountpoint") as N2 by discriminate.
  assert (u "children" <> u "name") as N3 by discriminate.
  split; [|split].
  - unfold dict_mem at 1. rewrite dict_get_set_other by exact N1.
    rewrite Ho2 by exact N3. rewrite Hc1. reflexivity.
  - unfold dict_mem at 1. rewrite dict_get_set_other by exact N2.
    rewrite Hc2. reflexivity.
  - intros k K1 K2 K3. rewrite dict_get_set_other by exact K3.
    rewrite Ho2 by exact K2. apply Ho1, K1.
Qed.

Lemma clean_devices_cleaned : forall l l',
  Forall unique_keys l -> clean_devices l = Ok l' -> Forall2 cleaned l l'.
Proof.
  induction l as [|el l IH]; intros l' Hu H; simpl in H.
  - inversion H. constructor.
  - inversion Hu as [|? ? Hu1 Hu2]; subst.
    destruct (clean_device el) as [el'|e] eqn:E1; [|discriminate].
    destruct (clean_devices l) as [r|e] eqn:E2; [|discriminate].
    inversion H; subst l'. constructor.
    + apply clean_device_cleaned; assumption.
    + apply IH; auto.
Qed.
End LsblkFacts.

(** X13. When the enumerator prints an object whose [blockdevices] is a
    list of objects, whatever [get_disks] returns is that list element by
    element, each without [children] and [name], with [mountpoint]
    replaced by the list of the mount points found in it, and with every
    other column unchanged; the enumerator has been run once. *)
Theorem get_disks_returns_the_cleaned_devices
        (env : Env) (path : option pystr) (top : dict) (devices : list pyval)
        (t : trace) (r : pyval) (t' : trace) :
  lsblk_json env (lsblk_arg path) = Some (PDict top) ->
  dict_get (u "blockdevices") top = Some (PList devices) ->
  Forall unique_keys devices ->
  get_disks env path t = (Ok r, t') ->
  exists l', r = PList l' /\ Forall2 cleaned devices l'
             /\ t' = add_call (CallLsblk (lsblk_arg path)) t.
Proof.
  intros Hj Hb Hu. unfold get_disks.
  cbv beta iota zeta delta [bind ret get modify raise lift_result].
  rewrite Hj. cbv beta iota. rewrite Hb. cbv beta iota.
  destruct (clean_devices devices) as [l'|e] eqn:E; [|discriminate].
  intros H. inversion H; subst r t'. exists l'.
  split; [reflexivity|]. split; [|reflexivity].
  apply LsblkFacts.clean_devices_cleaned; assumption.
Qed.

Lemma get_disks_returns_the_cleaned_devices_witness :
  exists l',
    PList [PDict Example.sda] = PList l'
    /\ Forall2 cleaned [Example.sda_json] l'
    /\ add_call (CallLsblk (u "/dev/sda")) Example.no_trace
       = add_call (CallLsblk (lsblk_arg (Some (u "/dev/sda"))))
                  Example.no_trace.
Proof.
  refine (@get_disks_returns_the_cleaned_devices
            (Example.host None 0) (Some (u "/dev/sda"))
            [(u "blockdevices", PList [Example.sda_json])]
            [Example.sda_json] Example.no_trace (PList [PDict Example.sda])
            (add_call (CallLsblk (u "/dev/sda")) Example.no_trace)
            eq_refl eq_refl _ eq_refl).
  constructor; [|constructor].
  intros d H. inversion H; subst d.
  repeat (constructor; [simpl; intuition discriminate|]). constructor.
Defined.

(** X14. [find_mounts] never lists [None]: a device or partition that is
    not mounted contributes nothing. *)
Theorem find_mounts_leaves_out_the_unmounted (el : pyval) (ms : list pyval) :
  find_mounts el = Ok ms -> ~ In PNone ms.
Proof. apply LsblkFacts.find_mounts_no_none. Qed.

Lemma find_mounts_leaves_out_the_unmounted_witness :
  ~ In PNone [PStr (u "/")].
Proof.
  exact (@find_mounts_leaves_out_the_unmounted Example.sda_json
           [PStr (u "/")] eq_refl).
Defined.

(* ------------------------------------------------------------------ *)
(** ** The drives of [get_disks_win] *)

Module WmicFacts.

Lemma lstrip_idempotent s : lstrip (lstrip s) = lstrip s.
Proof.
  induction s as [|c s IH]; [reflexivity|]. simpl.
  destruct (is_space c) eqn:E; [exact IH|]. simpl. rewrite E. reflexivity.
Qed.

Lemma rstrip_idempotent s : rstrip (rstrip s) = rstrip s.
Proof.
  unfold rstrip. rewrite rev_involutive, lstrip_idempotent. reflexivity.
Qed.

Lemma str_eqb_false a b : str_eqb a b = false -> a <> b.
Proof. destruct (str_eqb_spec a b); [discriminate | auto]. Qed.

Lemma caption_label output label :
  In label (caption_labels output) ->
  rstrip label = label /\ label <> u "Caption" /\ label <> [].
Proof.
  unfold caption_labels. intros H. apply in_map_iff in H.
  destruct H as (line & <- & H). apply filter_In in H. destruct H as [_ H].
  apply andb_prop in H. destruct H as [H1 H2].
  apply negb_true_iff in H1, H2.
  split; [apply rstrip_idempotent|].
  split; apply str_eqb_false; assumption.
Qed.

Lemma size_line output size :
  In size (size_lines output) ->
  In size (splitlines output)
  /\ rstrip size <> u "Size" /\ rstrip size <> [].
Proof.
  unfold size_lines. intros H. apply filter_In in H. destruct H as [Hin H].
  apply andb_prop in H. destruct H as [H1 H2].
  apply negb_true_iff in H1, H2.
  split; [exact Hin|]. split; apply str_eqb_false; assumption.
Qed.

Lemma zip_drives_members : forall size label drive,
  zip_drives label size = Ok drive ->
  Forall (fun d => exists l s, d = drive_of (l, s)
                               /\ In l label /\ In s size) drive.
Proof.
  induction size as [|line size IH]; intros [|l label] drive H; simpl in H;
    try (inversion H; constructor; fail).
  destruct (zip_drives label size) as [r|e] eqn:E; [|discriminate H].
  inversion H; subst drive. constructor.
  - exists l, line. repeat split; left; reflexivity.
  - eapply Forall_impl; [|exact (IH _ _ E)].
    intros d (l' & s' & -> & Hl & Hs). exists l', s'.
    repeat split; right; assumption.
Qed.
End WmicFacts.

(** X15. Every drive [get_disks_win] returns pairs a label that has lost
    its trailing white space (and is neither the heading nor blank) with
    a size that is a line of the size listing exactly as printed: the
    sizes are tested stripped but stored unstripped. Both listings have
    been asked for, captions first. *)
Theorem drives_have_stripped_labels_and_raw_sizes
        (env : Env) (t : trace) (r : pyval) (t' : trace) :
  get_disks_win env t = (Ok r, t') ->
  (exists drives, r = PList drives /\ Forall (listed_drive env) drives)
  /\ t' = add_call (CallWmic (u "size")) (add_call (CallWmic (u "caption")) t).
Proof.
  unfold get_disks_win.
  cbv beta iota zeta delta [bind modify lift_result ret].
  destruct (zip_drives (caption_labels (wmic env (u "caption")))
                       (size_lines (wmic env (u "size"))))
    as [drive|e] eqn:E; [|discriminate].
  intros H. inversion H; subst r t'. split; [|reflexivity].
  exists drive. split; [reflexivity|].
  eapply Forall_impl; [|exact (WmicFacts.zip_drives_members _ _ E)].
  intros d (l & s & -> & Hl & Hs). exists l, s.
  apply WmicFacts.caption_label in Hl. apply WmicFacts.size_line in Hs.
  tauto.
Qed.

Lemma drives_have_stripped_labels_and_raw_sizes_witness :
  let env :=
    Example.windows (u "Caption  " ++ Example.crlf ++ u "C:       ")
                    (u "Size  " ++ Example.crlf ++ u "1000202273280  ") in
  (exists drives,
      PList [drive_of (u "C:", u "1000202273280  ")] = PList drives
      /\ Forall (listed_drive env) drives)
  /\ add_call (CallWmic (u "size"))
       (add_call (CallWmic (u "caption")) Example.no_trace)
     = add_call (CallWmic (u "size"))
         (add_call (CallWmic (u "caption")) Example.no_trace).
Proof.
  exact (@drives_have_stripped_labels_and_raw_sizes
           (Example.windows (u "Caption  " ++ Example.crlf ++ u "C:       ")
              (u "Size  " ++ Example.crlf ++ u "1000202273280  "))
           Example.no_trace (PList [drive_of (u "C:", u "1000202273280  ")])
           (add_call (CallWmic (u "size"))
              (add_call (CallWmic (u "caption")) Example.no_trace))
           eq_refl).
Defined.

(* ------------------------------------------------------------------ *)
(** ** The labelling tool: prompts, duplicates and the end of the run *)

Module LabelFacts.
Import Pestello.

(** [ask] leaves [serials] alone and records at most one answer, for the
    report it was called for. *)
Lemma ask_decisions py file f : forall keys st,
  let st' := snd (ask py file f keys st) in
  serials st' = serials st
  /\ (decisions st' = decisions st
      \/ exists s, decisions st'
                   = decisions st
                       ++ [{| filename := file; read := f; status := s |}]).
Proof.
  induction keys as [|[line|] keys IH]; intros st; cbv zeta; simpl.
  - auto.
  - repeat match goal with
           | |- context [if ?c then _ else _] => destruct c
           end;
      try apply IH; cbn [snd decide serials decisions]; eauto.
  - auto.
Qed.

Lemma keeps_refl (P : state -> Prop) st : keeps P st st.
Proof. intros H. exact H. Qed.

Lemma keeps_trans (P : state -> Prop) a b c :
  keeps P a b -> keeps P b c -> keeps P a c.
Proof. unfold keeps. auto. Qed.

(** What every [parse_file] keeps, the loop of [get_files] keeps. *)
Lemma walk_keeps (P : state -> Prop) py h :
  (forall file, respects (keeps P) (parse_file py h file)) ->
  forall paths errors st, P st -> P (snd (walk py h paths errors st)).
Proof.
  intros Hp. induction paths as [|file paths IH]; intros errors st Hc;
    [exact Hc|].
  rewrite PestelloFacts.walk_cons.
  destruct (fs h file) as [entries|lines|].
  - match goal with
    | |- context [for_each entries ?body st] =>
        pose proof (@PestelloFacts.respects_for_each _ (keeps P) _ body
                      (keeps_refl P) (@keeps_trans P)
                      (fun x => Hp _) entries st Hc) as H;
        destruct (for_each entries body st) as [[[]|e] st1]
    end; cbn [snd] in *; [apply IH; exact H | exact H].
  - pose proof (Hp file st Hc) as H.
    destruct (parse_file py h file st) as [[[]|e] st1]; cbn [snd] in *;
      [apply IH; exact H | exact H].
  - apply IH. exact Hc.
Qed.

Lemma get_files_state py h paths st :
  snd (get_files py h paths st) = snd (walk py h paths false st).
Proof.
  unfold get_files.
  destruct (walk py h paths false st) as [[errs r] st1]. cbn [snd].
  rewrite PestelloFacts.writerows_total.
  destruct r as [[]|e]; [reflexivity|]. destruct e; reflexivity.
Qed.

Lemma serials_asked_snoc ds d :
  serials_asked (ds ++ [d])
  = serials_asked ds
      ++ match dict_get (u "Serial_Number") (read d) with
         | Some s => [s]
         | None => []
         end.
Proof. unfold serials_asked. rewrite flat_map_app. simpl.
       rewrite app_nil_r. reflexivity. Qed.

Lemma existsb_str_eqb_In s l : existsb (str_eqb s) l = true <-> In s l.
Proof.
  rewrite existsb_exists. split.
  - intros (x & Hx & E). destruct (str_eqb_spec s x); [subst; auto|discriminate].
  - intros H. exists s. split; [exact H | apply str_eqb_refl].
Qed.

Lemma NoDup_snoc A (l : list A) x : NoDup l -> ~ In x l -> NoDup (l ++ [x]).
Proof.
  induction l as [|a l IH]; simpl; intros Hnd Hx.
  - constructor; [tauto | constructor].
  - inversion Hnd as [|? ? Ha Hl]; subst. constructor.
    + intros H. apply in_app_or in H. destruct H as [H|[H|[]]]; [tauto|].
      subst. tauto.
    + apply IH; tauto.
Qed.

(** Asking about a report whose serial number is new, after it has been
    remembered. *)
Lemma ask_new_serial py file f serial keys st :
  dict_get (u "Serial_Number") f = Some serial ->
  existsb (str_eqb serial) (serials st) = false ->
  each_disk_once st ->
  each_disk_once (snd (ask py file f keys (remember serial st))).
Proof.
  intros Hs Hnew [Hnd Hin].
  destruct (ask_decisions py file f keys (remember serial st)) as [Hser Hdec].
  cbv zeta in *. cbn [serials decisions remember] in *.
  unfold each_disk_once. rewrite Hser.
  assert (forall s, In s (serials_asked (decisions st)) ->
                    existsb (str_eqb s) (serial :: serials st) = true) as Hin'.
  { intros s H. simpl. rewrite (Hin s H). apply orb_true_r. }
  destruct Hdec as [->|[s ->]]; [split; assumption|].
  rewrite serials_asked_snoc. cbn [read]. rewrite Hs. split.
  - apply NoDup_snoc; [exact Hnd|]. intros H.
    apply Hin in H. congruence.
  - intros s0 H. apply in_app_or in H. destruct H as [H|[<-|[]]].
    + apply Hin', H.
    + simpl. rewrite str_eqb_refl. reflexivity.
Qed.

Lemma ask_no_serial py file f keys st :
  dict_get (u "Serial_Number") f = None ->
  each_disk_once st ->
  each_disk_once (snd (ask py file f keys st)).
Proof.
  intros Hs [Hnd Hin].
  destruct (ask_decisions py file f keys st) as [Hser Hdec].
  cbv zeta in *. unfold each_disk_once. rewrite Hser.
  destruct Hdec as [->|[s ->]]; [split; assumption|].
  rewrite serials_asked_snoc. cbn [read]. rewrite Hs, app_nil_r.
  split; assumption.
Qed.

Lemma remember_once serial st :
  each_disk_once st -> each_disk_once (remember serial st).
Proof.
  intros [Hnd Hin]. split; [exact Hnd|].
  intros s H. cbn [remember serials]. simpl. rewrite (Hin s H).
  apply orb_true_r.
Qed.

Lemma parse_file_once py h file :
  respects (keeps each_disk_once) (parse_file py h file).
Proof.
  intros st Hc. unfold parse_file.
  cbv beta iota zeta delta [bind ret get modify raise lift_result].
  destruct (fs h file) as [entries|lines|]; cbn [snd]; try exact Hc.
  destruct (scan_lines h initial_scan lines) as [s|e]; cbn [snd];
    [|exact Hc].
  match goal with
  | |- context [dict_get (u "Serial_Number") ?f] =>
      set (found := f);
      destruct (dict_get (u "Serial_Number") found) as [serial|] eqn:Es
  end.
  - destruct (existsb (str_eqb serial) (serials st)) eqn:Ex; cbn [snd];
      [exact Hc|].
    destruct (show_attributes py found found) as [[]|e]; cbn [snd].
    + apply ask_new_serial; assumption.
    + apply remember_once, Hc.
  - destruct (show_attributes py found found) as [[]|e]; cbn [snd].
    + apply ask_no_serial; assumption.
    + exact Hc.
Qed.
End LabelFacts.

(** X16. Whatever the operator types and however the run ends, no serial
    number is asked about twice: the reports that were answered (labelled
    or discarded) and carry a serial number carry pairwise distinct ones,
    and each of them is in [serials]. A disk that was discarded is
    therefore not offered again. *)
Theorem no_serial_is_asked_about_twice
        (py : Builtins) (h : Pestello.Host) (paths : list pystr)
        (keys : list Pestello.keyboard) :
  each_disk_once (snd (Pestello.get_files py h paths (Pestello.start keys))).
Proof.
  rewrite LabelFacts.get_files_state.
  apply LabelFacts.walk_keeps; [intros file; apply LabelFacts.parse_file_once|].
  split; [constructor | intros s []].
Qed.

(** X17. [get_files] goes on to write the header and the rows whenever
    its loop ends by itself, by an interrupt or by the end of the input,
    with what was labelled until then; any other fault of the loop (a
    report that cannot be opened or read as expected) leaves [get_files]
    with that fault, before anything is written. The writer never refuses
    a row: every key of every row is a column of the header. *)
Theorem file_is_written_unless_parsing_faults
        (py : Builtins) (h : Pestello.Host) (paths : list pystr)
        (st : Pestello.state) (errors : bool) (r : result unit)
        (st' : Pestello.state) :
  Pestello.walk py h paths false st = (errors, r, st') ->
  (interrupts r = true ->
   Pestello.get_files py h paths st
   = (Ok ({| Pestello.header := Pestello.make_header (Pestello.results st');
             Pestello.rows :=
               map (Pestello.cells_of
                      (Pestello.make_header (Pestello.results st')))
                   (Pestello.results st') |}, errors), st'))
  /\ (forall e, r = Raise e -> interrupts r = false ->
                Pestello.get_files py h paths st = (Raise e, st')).
Proof.
  intros Hw. unfold Pestello.get_files. rewrite Hw.
  rewrite PestelloFacts.writerows_total. split.
  - intros Hi. destruct r as [[]|e]; [reflexivity|].
    destruct e; try discriminate Hi; reflexivity.
  - intros e -> Hi. destruct e; try discriminate Hi; reflexivity.
Qed.

(** The operator labels the first report and interrupts at the second;
    and the second path is a directory, which cannot be opened as a
    report. *)
Lemma file_is_written_unless_parsing_faults_witness :
  let interrupted :=
    Pestello.get_files ascii_builtins Example.folder [u "a.txt"; u "b.txt"]
      (Pestello.start [Pestello.Typed (u "k"); Pestello.CtrlC]) in
  let unreadable :=
    {| Pestello.fs := fun path =>
         if str_eqb path (u "dir") then Pestello.Dir [u "sub"]
         else if str_eqb path (u "dir/sub") then Pestello.Dir []
         else Pestello.Neither;
       Pestello.attributes := Pestello.attribute_names |} in
  (exists file st',
      interrupted = (Ok (file, false), st')
      /\ length (Pestello.rows file) = 1%nat)
  /\ fst (Pestello.get_files ascii_builtins unreadable [u "dir"]
            (Pestello.start []))
     = Raise OSError.
Proof.
  cbv zeta. split.
  - set (w := Pestello.walk ascii_builtins Example.folder
                [u "a.txt"; u "b.txt"]
                (false)
                (Pestello.start [Pestello.Typed (u "k"); Pestello.CtrlC])).
    assert (w = (false, Raise KeyboardInterrupt, snd w)) as E
        by (vm_compute; reflexivity).
    do 2 eexists.
    split; [exact (proj1 (@file_is_written_unless_parsing_faults
                            ascii_builtins Example.folder
                            [u "a.txt"; u "b.txt"] _ _ _ _ E) eq_refl)|].
    vm_compute. reflexivity.
  - set (unreadable := {| Pestello.fs := _; Pestello.attributes := _ |}).
    set (w := Pestello.walk ascii_builtins unreadable [u "dir"] false
                (Pestello.start [])).
    assert (w = (false, Raise OSError, snd w)) as E
        by (vm_compute; reflexivity).
    rewrite (proj2 (@file_is_written_unless_parsing_faults
                      ascii_builtins unreadable [u "dir"] _ _ _ _ E)
                   OSError eq_refl eq_refl).
    reflexivity.
Defined.

(** X18. The run ends with [exit(1)] only if one of the paths given is
    neither a file nor a directory; when the loop over the paths ran to
    its end, it does so exactly if there is such a path. The file is
    written all the same. *)
Theorem exit_status_tells_of_a_path_that_is_neither
        (py : Builtins) (h : Pestello.Host) (paths : list pystr)
        (st : Pestello.state) (file : Pestello.csv) (errors : bool)
        (st' : Pestello.state) :
  Pestello.get_files py h paths st = (Ok (file, errors), st') ->
  (errors = true -> existsb (missing h) paths = true)
  /\ (snd (fst (Pestello.walk py h paths false st)) = Ok tt ->
      errors = existsb (missing h) paths).
Proof.
  assert (forall paths errs st,
             let w := Pestello.walk py h paths errs st in
             (fst (fst w) = true -> errs || existsb (missing h) paths = true)
             /\ (snd (fst w) = Ok tt ->
                 fst (fst w) = errs || existsb (missing h) paths)) as Hw.
  { clear. induction paths as [|p paths IH]; intros errs st; cbv zeta.
    - simpl. rewrite orb_false_r. auto.
    - rewrite PestelloFacts.walk_cons. cbn [existsb]. unfold missing at 1 3.
      destruct (Pestello.fs h p) as [entries|lines|].
      + match goal with
        | |- context [for_each entries ?body st] =>
            destruct (for_each entries body st) as [[[]|e] st1]
        end; cbn [fst snd orb].
        * apply IH.
        * split; [intros ->; reflexivity | discriminate].
      + destruct (Pestello.parse_file py h p st) as [[[]|e] st1];
          cbn [fst snd orb].
        * apply IH.
        * split; [intros ->; reflexivity | discriminate].
      + cbn [orb]. rewrite orb_true_r.
        destruct (IH true st) as [_ H2]. split; [reflexivity|].
        intros H. rewrite (H2 H). reflexivity. }
  intros H. specialize (Hw paths false st). cbv zeta in Hw. cbn [orb] in Hw.
  unfold Pestello.get_files in H.
  destruct (Pestello.walk py h paths false st) as [[errs r] st1].
  cbn [fst snd] in *. rewrite PestelloFacts.writerows_total in H.
  assert (errors = errs) as ->.
  { destruct r as [[]|e]; [|destruct e; try discriminate H];
      inversion H; reflexivity. }
  exact Hw.
Qed.

Lemma exit_status_tells_of_a_path_that_is_neither_witness :
  let run := Pestello.get_files ascii_builtins Example.folder
               [u "nowhere"; u "a.txt"]
               (Pestello.start [Pestello.Typed (u "k")]) in
  exists file st',
    run = (Ok (file, true), st')
    /\ (true = true ->
        existsb (missing Example.folder) [u "nowhere"; u "a.txt"] = true)
    /\ (snd (fst (Pestello.walk ascii_builtins Example.folder
                    [u "nowhere"; u "a.txt"] false
                    (Pestello.start [Pestello.Typed (u "k")]))) = Ok tt ->
        true = existsb (missing Example.folder) [u "nowhere"; u "a.txt"]).
Proof.
  cbv zeta.
  set (run := Pestello.get_files _ _ _ _).
  assert (run = (Ok (match fst run with
                     | Ok p => fst p
                     | Raise _ => {| Pestello.header := []; Pestello.rows := [] |}
                     end, true),
                 snd run)) as E by (vm_compute; reflexivity).
  do 2 eexists. split; [exact E|].
  exact (@exit_status_tells_of_a_path_that_is_neither _ _ _ _ _ _ _ E).
Defined.

(** X19. The prompt is repeated until it is answered: lines that are none
    of [k], [o], [f], [x] (in either case) are read and dropped, whatever
    their number, and the next accepted line decides. *)
Theorem unrecognized_answers_are_asked_again
        (py : Builtins) (file : pystr) (f : Pestello.found)
        (junk keys : list Pestello.keyboard) (st : Pestello.state) :
  Forall (unrecognized py) junk ->
  Pestello.ask py file f (junk ++ keys) st = Pestello.ask py file f keys st.
Proof.
  intros H. induction H as [|k junk (line & -> & Hk) _ IH]; [reflexivity|].
  unfold accepted in Hk. cbv zeta in Hk.
  apply orb_false_elim in Hk. destruct Hk as [Hk Hx].
  apply orb_false_elim in Hk. destruct Hk as [Hk Hf].
  apply orb_false_elim in Hk. destruct Hk as [Hk Ho].
  cbn [app Pestello.ask]. rewrite Hk, Ho, Hf, Hx. exact IH.
Qed.

Lemma unrecognized_answers_are_asked_again_witness :
  Pestello.ask ascii_builtins (u "a.txt") []
               ([Pestello.Typed (u "yes"); Pestello.Typed []]
                  ++ [Pestello.Typed (u "K")])
               (Pestello.start [])
  = Pestello.ask ascii_builtins (u "a.txt") [] [Pestello.Typed (u "K")]
                 (Pestello.start []).
Proof.
  apply unrecognized_answers_are_asked_again.
  repeat constructor; eexists; (split; [reflexivity | vm_compute; reflexivity]).
Defined.

(* ------------------------------------------------------------------ *)
(** ** Lines and connections *)

Module LineFacts.

Lemma split1_parts sep : forall s h t,
  split1 sep s = (h, t) ->
  ~ In sep h
  /\ s = h ++ match t with Some a => sep :: a | None => [] end.
Proof.
  induction s as [|c s IH]; intros h t H; simpl in H.
  - inversion H; subst. auto.
  - destruct (N.eqb_spec c sep) as [->|Hne].
    + inversion H; subst. auto.
    + destruct (split1 sep s) as [h' t'] eqn:E. inversion H; subst.
      destruct (IH _ _ eq_refl) as [Hn Hs]. split.
      * intros [Hc|Hc]; [congruence | tauto].
      * simpl. rewrite <- Hs. reflexivity.
Qed.

Import Factory.

Lemma of_nat_NoDup l : NoDup l -> NoDup (map Z.of_nat l).
Proof.
  induction 1 as [|x l Hx _ IH]; simpl; constructor; [|exact IH].
  intros H. apply in_map_iff in H. destruct H as (y & E & Hy).
  apply Nat2Z.inj in E. subst. tauto.
Qed.

Lemma serve_ids lo : forall evs f,
  (lo <= conn_id f)%Z ->
  (forall c, In c (clients (shared f)) -> (lo <= c < conn_id f)%Z) ->
  let r := serve evs f in
  map TurboProtocol._id (fst r)
  = map (fun k => (conn_id f + Z.of_nat k)%Z) (seq 0 (length (fst r)))
  /\ conn_id (snd r) = (conn_id f + Z.of_nat (length (fst r)))%Z
  /\ (forall c, In c (clients (shared (snd r))) ->
                (lo <= c < conn_id (snd r))%Z)
  /\ sent (shared (snd r)) = sent (shared f)
  /\ disks (shared (snd r)) = disks (shared f).
Proof.
  induction evs as [|[|self] evs IH]; intros f Hlo Hf; cbv zeta.
  - simpl. rewrite Z.add_0_r. auto.
  - cbn [serve]. unfold connectionMade. cbv zeta.
    match goal with
    | |- context [serve evs ?f1] =>
        specialize (IH f1); destruct (serve evs f1) as [made f2]
    end.
    cbv zeta in IH. cbn [fst snd conn_id shared clients sent disks
                         CommandRunner.set_tr set_clients
                         TurboProtocol.connectionMade TurboProtocol._id] in *.
    destruct IH as (Hids & Hc & Hcl & Hs & Hd); [lia| |].
    { intros c Hin.
      destruct (existsb (Z.eqb (conn_id f)) (clients (shared f))) eqn:Ex.
      - apply Hf in Hin. lia.
      - apply in_app_or in Hin. destruct Hin as [Hin|[<-|[]]].
        + apply Hf in Hin. lia.
        + lia. }
    split; [|split; [|split; [|split]]]; auto.
    + cbn [length seq map]. rewrite Z.add_0_r. f_equal.
      rewrite Hids, <- seq_shift, map_map. apply map_ext. intros k. lia.
    + cbn [length]. lia.
  - cbn [serve]. unfold connectionLost. cbv zeta.
    cbn [clients CommandRunner.set_tr TurboProtocol._id].
    destruct (existsb (Z.eqb (TurboProtocol._id self)) (clients (shared f)));
      cbn [snd];
      match goal with
      | |- context [serve evs ?f1] =>
          specialize (IH f1); destruct (serve evs f1) as [made f2]
      end;
      cbv zeta in IH;
      cbn [fst snd conn_id shared clients sent disks
           CommandRunner.set_tr set_clients] in *;
      (apply IH; [exact Hlo|]); intros c Hin;
      [apply filter_In in Hin; apply Hf; tauto | apply Hf, Hin].
Qed.
End LineFacts.

(** X20. A received line that decodes and, stripped, does not begin with
    [exit] starts a command for this connection: the command word is the
    text up to the first space, lower-cased; the arguments are everything
    after that one space, as typed. A line that does begin with [exit]
    (followed by anything) closes the connection and starts nothing. *)
Theorem line_is_cut_at_its_first_space
        (py : Builtins) (self : TurboProtocol.t) (line : bytes)
        (text : pystr) :
  Utf8.decode line = Some text ->
  let stripped := strip text in
  let action := snd (TurboProtocol.lineReceived py self line) in
  (startswith (u "exit") stripped = true ->
   action = TurboProtocol.LoseConnection)
  /\ (startswith (u "exit") stripped = false ->
      exists word args,
        action = TurboProtocol.Start (str_lower py word) args
                                     (TurboProtocol._id self)
        /\ ~ In 32%N word
        /\ (stripped = word /\ args = [] \/ stripped = word ++ 32%N :: args)).
Proof.
  intros Hd. cbv zeta. unfold TurboProtocol.lineReceived. rewrite Hd.
  cbv zeta. split; intros Hx; rewrite Hx.
  - destruct (negb (TurboProtocol._delimiter_found self)); reflexivity.
  - destruct (split1 32 (strip text)) as [word rest] eqn:E.
    destruct (LineFacts.split1_parts _ _ E) as [Hn Hs].
    exists word, (match rest with Some a => a | None => [] end).
    split; [destruct (negb (TurboProtocol._delimiter_found self)); reflexivity|].
    split; [exact Hn|].
    destruct rest as [a|]; [right; exact Hs | left].
    rewrite app_nil_r in Hs. auto.
Qed.

Lemma line_is_cut_at_its_first_space_witness :
  let self := TurboProtocol.connectionMade 7 in
  (startswith (u "exit") (u "SmartCtl  /dev/SDA") = true ->
   snd (TurboProtocol.lineReceived ascii_builtins self
          (Example.ascii " SmartCtl  /dev/SDA "))
   = TurboProtocol.LoseConnection)
  /\ (startswith (u "exit") (u "SmartCtl  /dev/SDA") = false ->
      exists word args,
        snd (TurboProtocol.lineReceived ascii_builtins self
               (Example.ascii " SmartCtl  /dev/SDA "))
        = TurboProtocol.Start (str_lower ascii_builtins word) args 7
        /\ ~ In 32%N word
        /\ (u "SmartCtl  /dev/SDA" = word /\ args = []
            \/ u "SmartCtl  /dev/SDA" = word ++ 32%N :: args)).
Proof.
  exact (@line_is_cut_at_its_first_space ascii_builtins
           (TurboProtocol.connectionMade 7)
           (Example.ascii " SmartCtl  /dev/SDA ")
           (u " SmartCtl  /dev/SDA ") eq_refl).
Defined.

(** X21. Connection ids are never reused: from the start of [main], the
    connections made get the ids 0, 1, 2, ... in the order they are made,
    whatever connections are lost in between; every id in [clients] is one
    of them, and coming and going of connections neither sends anything
    nor touches the registry. *)
Theorem connection_ids_are_never_reused
        (evs : list Factory.event) (w : world) :
  clients w = [] ->
  let r := Factory.serve evs (Factory.listening w) in
  let ids := map TurboProtocol._id (fst r) in
  ids = map Z.of_nat (seq 0 (length (fst r)))
  /\ NoDup ids
  /\ (forall c, In c (clients (Factory.shared (snd r))) -> In c ids)
  /\ sent (Factory.shared (snd r)) = sent w
  /\ disks (Factory.shared (snd r)) = disks w.
Proof.
  intros Hw. cbv zeta.
  destruct (@LineFacts.serve_ids 0 evs (Factory.listening w))
    as (Hids & Hc & Hcl & Hs & Hd); [reflexivity| |].
  { cbn. rewrite Hw. intros c []. }
  cbn [Factory.listening Factory.conn_id Factory.shared] in *.
  rewrite Z.add_0_l in Hc.
  assert (map TurboProtocol._id (fst (Factory.serve evs (Factory.listening w)))
          = map Z.of_nat
                (seq 0 (length (fst (Factory.serve evs (Factory.listening w))))))
    as E by (rewrite Hids; apply map_ext; intros; lia).
  split; [exact E|]. split; [|split; [|split; assumption]].
  - rewrite E. apply LineFacts.of_nat_NoDup, seq_NoDup.
  - intros c Hin. rewrite E. specialize (Hcl c Hin). rewrite Hc in Hcl.
    apply in_map_iff. exists (Z.to_nat c). split; [lia|].
    apply in_seq. lia.
Qed.

Lemma connection_ids_are_never_reused_witness :
  let first := TurboProtocol.connectionMade 0 in
  let r := Factory.serve [Factory.Made; Factory.Lost first; Factory.Made]
             (Factory.listening
                (Factory.set_clients [] (Example.state []))) in
  map TurboProtocol._id (fst r) = [0%Z; 1%Z]
  /\ clients (Factory.shared (snd r)) = [1%Z]
  /\ NoDup (map TurboProtocol._id (fst r)).
Proof.
  cbv zeta.
  destruct (@connection_ids_are_never_reused
              [Factory.Made; Factory.Lost (TurboProtocol.connectionMade 0);
               Factory.Made]
              (Factory.set_clients [] (Example.state [])) eq_refl)
    as (Hids & Hnd & _).
  split; [exact Hids|]. split; [reflexivity | exact Hnd].
Defined.

(* ------------------------------------------------------------------ *)
(** ** What is written to a connection *)

Module Utf8Facts.
Import Utf8.

Ltac Zify.zify_post_hook ::= Z.to_euclidean_division_equations.

Lemma to_N_byte_of n : (n < 256)%N -> Byte.to_N (byte_of n) = n.
Proof.
  intros H. unfold byte_of. destruct (Byte.of_N n) as [b|] eqn:E.
  - apply Byte.to_of_N, E.
  - apply Byte.of_N_None_iff in E. lia.
Qed.

Lemma ltb_true a b : (a < b)%N -> (a <? b)%N = true.
Proof. apply N.ltb_lt. Qed.
Lemma ltb_false a b : (b <= a)%N -> (a <? b)%N = false.
Proof. apply N.ltb_ge. Qed.
Lemma in_range_true lo hi b : (lo <= b <= hi)%N -> in_range lo hi b = true.
Proof.
  intros [H1 H2]. unfold in_range. apply andb_true_intro.
  split; apply N.leb_le; assumption.
Qed.
Lemma in_range_false lo hi b : (b < lo \/ hi < b)%N -> in_range lo hi b = false.
Proof.
  intros H. unfold in_range. apply andb_false_iff.
  destruct H; [left | right]; apply N.leb_gt; assumption.
Qed.
Lemma cont_true b : (128 <= b <= 191)%N -> cont b = true.
Proof. apply in_range_true. Qed.

Lemma eqb_false a b : a <> b -> (a =? b)%N = false.
Proof. apply N.eqb_neq. Qed.

Lemma some_eq A (a b : A) : Some a = Some b -> a = b.
Proof. congruence. Qed.

(** Decoding what [encode_char] gives yields the code point back. *)
Lemma decode_encode_char c bs rest :
  encode_char c = Some bs ->
  Forall (fun b => (b < 256)%N) bs
  /\ decode_N (bs ++ rest) = option_map (cons c) (decode_N rest).
Proof.
  unfold encode_char.
  destruct (N.ltb_spec c 128) as [H1|H1].
  { intros E; apply some_eq in E; subst bs. split; [repeat constructor; lia|].
    cbn [app decode_N]. rewrite ltb_true by exact H1. reflexivity. }
  destruct (N.ltb_spec c 2048) as [H2|H2].
  { intros E; apply some_eq in E; subst bs. split; [repeat constructor; lia|].
    cbn [app decode_N]. rewrite ltb_false by lia.
    rewrite in_range_true by lia. rewrite cont_true by lia.
    f_equal. f_equal. lia. }
  destruct (in_range 55296 57343 c) eqn:Hs; [discriminate|].
  assert (c < 55296 \/ 57343 < c)%N as Hsur.
  { unfold in_range in Hs. apply andb_false_iff in Hs.
    destruct Hs as [Hs|Hs]; apply N.leb_gt in Hs; lia. }
  destruct (N.ltb_spec c 65536) as [H3|H3].
  { intros E; apply some_eq in E; subst bs. split; [repeat constructor; lia|].
    cbn [app decode_N]. rewrite ltb_false by lia.
    rewrite in_range_false by lia. rewrite in_range_true by lia.
    rewrite (cont_true (b := 128 + c mod 64)) by lia.
    destruct (N.eqb_spec (224 + c / 4096) 224) as [E1|E1].
    - rewrite in_range_true by lia. cbn [andb]. f_equal. f_equal. lia.
    - destruct (N.eqb_spec (224 + c / 4096) 237) as [E2|E2].
      + rewrite in_range_true by lia. cbn [andb]. f_equal. f_equal. lia.
      + rewrite cont_true by lia. cbn [andb]. f_equal. f_equal. lia. }
  destruct (N.ltb_spec c 1114112) as [H4|H4]; [|discriminate].
  intros E; apply some_eq in E; subst bs. split; [repeat constructor; lia|].
  cbn [app decode_N]. rewrite ltb_false by lia.
  rewrite in_range_false by lia. rewrite in_range_false by lia.
  rewrite in_range_true by lia.
  rewrite (cont_true (b := 128 + c mod 64)) by lia.
  rewrite (cont_true (b := 128 + (c / 64) mod 64)) by lia.
  destruct (N.eqb_spec (240 + c / 262144) 240) as [E1|E1].
  - rewrite in_range_true by lia. cbn [andb]. f_equal. f_equal. lia.
  - destruct (N.eqb_spec (240 + c / 262144) 244) as [E2|E2].
    + rewrite in_range_true by lia. cbn [andb]. f_equal. f_equal. lia.
    + rewrite cont_true by lia. cbn [andb]. f_equal. f_equal. lia.
Qed.

Lemma map_to_N_byte_of bs :
  Forall (fun b => (b < 256)%N) bs -> map Byte.to_N (map byte_of bs) = bs.
Proof.
  induction 1 as [|b bs Hb _ IH]; simpl; [reflexivity|].
  rewrite to_N_byte_of by exact Hb. rewrite IH. reflexivity.
Qed.

Lemma decode_encode : forall s b, encode s = Some b -> decode b = Some s.
Proof.
  unfold decode. induction s as [|c s IH]; intros b H; simpl in H.
  - inversion H. reflexivity.
  - destruct (encode_char c) as [bs|] eqn:Ec; [|discriminate].
    destruct (encode s) as [r|] eqn:Er; [|discriminate].
    inversion H; subst b.
    destruct (@decode_encode_char c bs (map Byte.to_N r) Ec) as [Hb Hd].
    rewrite map_app, map_to_N_byte_of by exact Hb.
    rewrite Hd, (IH r eq_refl). reflexivity.
Qed.
End Utf8Facts.

(** X22. What [TurboProtocol.send_msg] writes is the response in UTF-8
    followed by the connection's delimiter: the bytes before the
    delimiter decode back to exactly the response that was passed. *)
Theorem written_line_decodes_to_the_response
        (self : TurboProtocol.t) (response : pystr) (w : bytes) :
  TurboProtocol.send_msg self response = Ok (Some w) ->
  TurboProtocol._delimiter_found self = true
  /\ exists b, w = b ++ TurboProtocol.delimiter self
               /\ Utf8.decode b = Some response.
Proof.
  unfold TurboProtocol.send_msg.
  destruct (TurboProtocol._delimiter_found self); [|discriminate].
  destruct (Utf8.encode response) as [b|] eqn:E; [|discriminate].
  intros H. inversion H; subst w. split; [reflexivity|].
  exists b. split; [reflexivity | apply Utf8Facts.decode_encode, E].
Qed.

Lemma written_line_decodes_to_the_response_witness :
  let self := {| TurboProtocol._id := 0;
                 TurboProtocol.delimiter := TurboProtocol.CRLF;
                 TurboProtocol._delimiter_found := true |} in
  TurboProtocol._delimiter_found self = true
  /\ exists b, [xc3; xa9; x0d; x0a] = b ++ TurboProtocol.delimiter self
               /\ Utf8.decode b = Some [233%N].
Proof.
  exact (@written_line_decodes_to_the_response
           {| TurboProtocol._id := 0;
              TurboProtocol.delimiter := TurboProtocol.CRLF;
              TurboProtocol._delimiter_found := true |}
           [233%N] [xc3; xa9; x0d; x0a] eq_refl).
Defined.

(* ------------------------------------------------------------------ *)
(** ** Enumeration data without a path *)

(** X23. The [RuntimeError] that [Disk.__init__] announces for enumeration
    data without a path is raised only when that data is a string: for
    anything else that has no [path] (a dictionary without the key, an
    empty list as [get_disks] returns for an unknown device) building the
    message fails first and [TypeError] is raised, before any inventory
    call. *)
Theorem missing_path_is_reported_as_type_error
        (py : Builtins) (lsblk : pyval) (tarallo : option Tarallo) (t : trace) :
  (forall s, lsblk <> PStr s) ->
  (forall d, lsblk = PDict d -> dict_get (u "path") d = None) ->
  Disk.__init__ py lsblk tarallo t = (Raise TypeError, t).
Proof.
  intros Hs Hd. unfold Disk.__init__.
  destruct lsblk as [| | |s|l|d|c]; try reflexivity.
  - destruct (Hs s eq_refl).
  - rewrite (Hd d eq_refl). reflexivity.
Qed.

Lemma missing_path_is_reported_as_type_error_witness :
  Disk.__init__ ascii_builtins (PList []) (Some Example.one_match)
                Example.no_trace
  = (Raise TypeError, Example.no_trace)
  /\ Disk.__init__ ascii_builtins (PDict [(u "serial", PStr (u "ABC123"))])
                   (Some Example.one_match) Example.no_trace
     = (Raise TypeError, Example.no_trace).
Proof.
  split.
  - refine (@missing_path_is_reported_as_type_error ascii_builtins (PList [])
              (Some Example.one_match) Example.no_trace _ _); discriminate.
  - refine (@missing_path_is_reported_as_type_error ascii_builtins
              (PDict [(u "serial", PStr (u "ABC123"))])
              (Some Example.one_match) Example.no_trace _ _);
      [discriminate | intros d [= <-]; reflexivity].
Defined.

(* ------------------------------------------------------------------ *)
(** ** The labelling tool: how a run can fail *)

Module FaultFacts.
Import Pestello.

Lemma dict_mem_set (V : Type) k k' (v : V) f :
  dict_mem k' (dict_set k v f) = str_eqb k k' || dict_mem k' f.
Proof.
  unfold dict_mem. destruct (str_eqb_spec k k') as [->|Hne].
  - rewrite dict_get_set_same. reflexivity.
  - rewrite dict_get_set_other by auto. reflexivity.
Qed.

Lemma paired_set k v f :
  k <> u "Power_On_Hours" -> paired f -> paired (dict_set k v f).
Proof.
  unfold paired. intros Hk Hf. rewrite !dict_mem_set.
  rewrite (LsblkFacts.str_eqb_neq Hk). cbn [orb]. intros H.
  rewrite (Hf H). apply orb_true_r.
Qed.

Lemma paired_hours v f :
  dict_mem (u "Power_On_Hours_Exact") f = true ->
  paired (dict_set (u "Power_On_Hours") v f).
Proof.
  unfold paired. intros H _. rewrite dict_mem_set, H. apply orb_true_r.
Qed.

Lemma scan_attribute_paired line attr f :
  paired f -> paired (scan_attribute line f attr).
Proof.
  intros Hf. unfold scan_attribute.
  destruct (str_contains attr line); [|exact Hf].
  destruct (str_eqb_spec attr (u "Power_On_Hours")) as [->|Hne].
  - destruct (str_contains (u "h") _); apply paired_hours;
      rewrite ?dict_mem_set; reflexivity.
  - apply paired_set; assumption.
Qed.

Lemma scan_attributes_paired line : forall attrs f,
  paired f -> paired (fold_left (scan_attribute line) attrs f).
Proof.
  induction attrs as [|a attrs IH]; intros f Hf; [exact Hf|].
  simpl. apply IH, scan_attribute_paired, Hf.
Qed.

Lemma after_two_spaces_fault line e :
  after_two_spaces line = Raise e -> e = IndexError.
Proof.
  unfold after_two_spaces.
  destruct (snd (split_once (u "  ") line)); [discriminate | congruence].
Qed.

Lemma scan_line_outcome h s line :
  paired (scanned s) ->
  match scan_line h s line with
  | Ok s' => paired (scanned s')
  | Raise e => e = IndexError
  end.
Proof.
  intros Hf. unfold scan_line.
  repeat match goal with
         | |- context [if str_contains ?p line then _ else _] =>
             destruct (str_contains p line)
         | |- context [if info_section s then _ else _] =>
             destruct (info_section s)
         | |- context [if data_section s then _ else _] =>
             destruct (data_section s)
         | |- context [if errors_section s then _ else _] =>
             destruct (errors_section s)
         | |- context [after_two_spaces line] =>
             let E := fresh "E" in
             destruct (after_two_spaces line) eqn:E;
             [|apply after_two_spaces_fault in E]
         end;
    cbn [scanned enter with_scanned];
    try exact Hf; try assumption;
    try (apply scan_attributes_paired; exact Hf);
    repeat (apply paired_set; [discriminate|]); exact Hf.
Qed.

Lemma scan_lines_outcome h : forall lines s,
  paired (scanned s) ->
  match scan_lines h s lines with
  | Ok s' => paired (scanned s')
  | Raise e => e = IndexError
  end.
Proof.
  induction lines as [|line lines IH]; intros s Hf; simpl; [exact Hf|].
  pose proof (@scan_line_outcome h s line Hf) as H.
  destruct (scan_line h s line) as [s'|e]; [apply IH; exact H | exact H].
Qed.

Lemma in_dict_mem (V : Type) k (v : V) f : In (k, v) f -> dict_mem k f = true.
Proof.
  unfold dict_mem. induction f as [|[k0 v0] f IH]; simpl; [tauto|].
  intros [H|H].
  - inversion H; subst. rewrite str_eqb_refl. reflexivity.
  - destruct (str_eqb k0 k); [reflexivity | apply IH, H].
Qed.

Lemma show_attribute_fault py f k v e :
  (k = u "Power_On_Hours" -> dict_mem (u "Power_On_Hours_Exact") f = true) ->
  show_attribute py f (k, v) = Raise e ->
  e = ValueError \/ e = OverflowError.
Proof.
  intros Hk. unfold show_attribute, dict_mem in *.
  destruct (str_eqb_spec k (u "Power_On_Hours")) as [E|E].
  - specialize (Hk E).
    destruct (dict_get (u "Power_On_Hours_Exact") f); [|discriminate].
    destruct (py_int py v); [|intros [= <-]; auto].
    repeat match goal with
           | |- context [if ?c then _ else _] => destruct c
           end; intros [= <-]; auto.
  - destruct (str_isnumeric py v); [|discriminate].
    destruct (py_int py v); [discriminate | intros [= <-]; auto].
Qed.

Lemma show_attributes_fault py f : forall l e,
  (forall k v, In (k, v) l -> k = u "Power_On_Hours" ->
               dict_mem (u "Power_On_Hours_Exact") f = true) ->
  show_attributes py f l = Raise e ->
  e = ValueError \/ e = OverflowError.
Proof.
  induction l as [|[k v] l IH]; intros e Hl; cbn [show_attributes];
    [discriminate|].
  destruct (show_attribute py f (k, v)) as [[]|e'] eqn:E.
  - apply IH. intros k' v' H. apply (Hl k' v'). right. exact H.
  - intros [= <-]. eapply show_attribute_fault; [|exact E].
    apply (Hl k v). left. reflexivity.
Qed.

Lemma ask_fault py file f : forall keys st e,
  fst (ask py file f keys st) = Raise e ->
  e = EOFError \/ e = KeyboardInterrupt.
Proof.
  induction keys as [|[line|] keys IH]; intros st e; simpl.
  - intros [= <-]. auto.
  - repeat match goal with
           | |- context [if ?c then _ else _] => destruct c
           end; try discriminate. apply IH.
  - intros [= <-]. auto.
Qed.

Lemma parse_file_fault py h file st e :
  fst (parse_file py h file st) = Raise e ->
  In e report_faults \/ e = EOFError \/ e = KeyboardInterrupt.
Proof.
  unfold parse_file, report_faults.
  cbv beta iota zeta delta [bind ret get modify raise lift_result].
  destruct (fs h file) as [entries|lines|]; cbn [fst];
    try (intros [= <-]; simpl; tauto).
  assert (paired (scanned initial_scan)) as H0 by (intros H; discriminate H).
  pose proof (@scan_lines_outcome h lines initial_scan H0) as Hs.
  destruct (scan_lines h initial_scan lines) as [s|e']; cbn [fst];
    [|subst e'; intros [= <-]; simpl; tauto].
  match goal with
  | |- context [dict_get (u "Serial_Number") ?f] =>
      set (found := f);
      assert (paired found) as Hp by (apply paired_set; [discriminate|exact Hs])
  end.
  assert (forall e, show_attributes py found found = Raise e ->
                    e = ValueError \/ e = OverflowError) as Hshow.
  { intros e0. apply show_attributes_fault. intros k v Hin ->.
    apply Hp. eapply in_dict_mem, Hin. }
  destruct (dict_get (u "Serial_Number") found) as [serial|].
  - destruct (existsb (str_eqb serial) (serials st)); cbn [fst];
      [discriminate|].
    destruct (show_attributes py found found) as [[]|e'] eqn:E; cbn [fst].
    + intros H. apply ask_fault in H. tauto.
    + intros [= <-]. destruct (Hshow _ eq_refl) as [->| ->]; simpl; tauto.
  - destruct (show_attributes py found found) as [[]|e'] eqn:E; cbn [fst].
    + intros H. apply ask_fault in H. tauto.
    + intros [= <-]. destruct (Hshow _ eq_refl) as [->| ->]; simpl; tauto.
Qed.

Lemma for_each_fault St A (P : exn -> Prop) (body : A -> M St unit) :
  (forall x st e, fst (body x st) = Raise e -> P e) ->
  forall l st e, fst (for_each l body st) = Raise e -> P e.
Proof.
  intros Hb. induction l as [|x l IH]; intros st e; simpl; [discriminate|].
  unfold bind. pose proof (Hb x st) as Hx.
  destruct (body x st) as [[[]|e'] st1]; cbn [fst] in *.
  - apply IH.
  - intros [= <-]. apply Hx. reflexivity.
Qed.

Lemma walk_fault py h : forall paths errors st e,
  snd (fst (walk py h paths errors st)) = Raise e ->
  In e report_faults \/ e = EOFError \/ e = KeyboardInterrupt.
Proof.
  induction paths as [|file paths IH]; intros errors st e;
    [discriminate|].
  rewrite PestelloFacts.walk_cons.
  destruct (fs h file) as [entries|lines|].
  - match goal with
    | |- context [for_each entries ?body st] =>
        pose proof (@for_each_fault _ _
                      (fun e => In e report_faults \/ e = EOFError
                                \/ e = KeyboardInterrupt) body
                      (fun x => @parse_file_fault py h _) entries st) as H;
        destruct (for_each entries body st) as [[[]|e'] st1]
    end; cbn [fst snd] in *; [apply IH|].
    intros [= <-]. apply H. reflexivity.
  - pose proof (@parse_file_fault py h file st) as H.
    destruct (parse_file py h file st) as [[[]|e'] st1]; cbn [fst snd] in *;
      [apply IH|].
    intros [= <-]. apply H. reflexivity.
  - apply IH.
Qed.
End FaultFacts.

(** X24. Reading reports that are text, the only faults with which
    [get_files] can end are those of a report: [OSError] (it cannot be
    opened), [IndexError] (a model or serial line without a double
    space), [ValueError] and [OverflowError] (a number that is none, or
    hours too large to be divided). In particular the look-up of
    [Power_On_Hours_Exact] never fails: whenever the hours were read, so
    was that. *)
Theorem only_a_report_can_fail_the_run
        (py : Builtins) (h : Pestello.Host) (paths : list pystr)
        (st : Pestello.state) (e : exn) :
  fst (Pestello.get_files py h paths st) = Raise e -> In e report_faults.
Proof.
  unfold Pestello.get_files.
  pose proof (@FaultFacts.walk_fault py h paths false st) as Hw.
  destruct (Pestello.walk py h paths false st) as [[errs r] st1].
  cbn [fst snd] in Hw. rewrite PestelloFacts.writerows_total.
  destruct r as [[]|e']; [discriminate|].
  destruct (Hw e' eq_refl) as [H|[->| ->]]; [|discriminate..].
  destruct e'; cbn [fst]; try discriminate; intros [= <-]; exact H.
Qed.

(** A report whose serial line has a single space after the colon. *)
Lemma only_a_report_can_fail_the_run_witness :
  let h := {| Pestello.fs := fun _ =>
                Pestello.File
                  [Example.nl "=== START OF INFORMATION SECTION ===";
                   Example.nl "Serial Number: WD-AAA111"];
              Pestello.attributes := Pestello.attribute_names |} in
  fst (Pestello.get_files ascii_builtins h [u "a.txt"] (Pestello.start []))
  = Raise IndexError
  /\ In IndexError report_faults.
Proof.
  cbv zeta.
  set (h := {| Pestello.fs := _; Pestello.attributes := _ |}).
  assert (fst (Pestello.get_files ascii_builtins h [u "a.txt"]
                 (Pestello.start [])) = Raise IndexError) as E
      by (vm_compute; reflexivity).
  split; [exact E|].
  exact (@only_a_report_can_fail_the_run ascii_builtins h [u "a.txt"]
           (Pestello.start []) IndexError E).
Defined.

(* ------------------------------------------------------------------ *)
(** ** The notice of a manually fixable condition *)

Module NoticeFacts.
Import CommandRunner.

(** What [update_disk_if_needed] does with a manually fixable
    condition. *)
Lemma fixable_is_not_delivered the_id key w d message :
  dict_get key (disks w) = Some (Some d) ->
  fst (Disk.update_if_needed (d, tr w))
  = Raise (ErrorThatCanBeManuallyFixed message) ->
  let r := update_disk_if_needed the_id key w in
  sent (snd r) = sent w
  /\ (existsb (Z.eqb the_id) (clients w) = true -> fst r = Raise TypeError)
  /\ (existsb (Z.eqb the_id) (clients w) = false -> fst r = Ok tt).
Proof.
  intros Hd Hu. cbv zeta.
  unfold update_disk_if_needed, try_except, on_disk.
  rewrite Hd.
  destruct (Disk.update_if_needed (d, tr w)) as [r [d' t]].
  cbn [fst] in Hu. subst r. cbv beta iota.
  match goal with
  | |- context [send_msg _ _ _ ?w1] => set (w1' := w1)
  end.
  assert (clients w1' = clients w) as Hc by reflexivity.
  assert (sent w1' = sent w) as Hs by reflexivity.
  destruct (existsb (Z.eqb the_id) (clients w)) eqn:Ex.
  - rewrite (@ExecFacts.send_msg_registered the_id _ _ w1')
      by (rewrite Hc; exact Ex).
    cbn. repeat split; auto. discriminate.
  - unfold send_msg, bind, get. rewrite Hc, Ex.
    cbn. repeat split; auto. discriminate.
Qed.

Lemma ambiguous_raises d t :
  ambiguous d ->
  exists message,
    fst (Disk.update_if_needed (d, t))
    = Raise (ErrorThatCanBeManuallyFixed message).
Proof.
  intros (tarallo & sn & c1 & c2 & more & Ht & Hc & Hs & Hcodes).
  eexists. run_method. cbn [fst snd]. rewrite Hc. cbn [negb fst snd].
  rewrite Ht, (DiskFacts.dict_mem_get _ _ Hs), Hs. cbn [negb fst snd].
  rewrite Hcodes. reflexivity.
Qed.

Lemma quiet_refl w : quiet w w.
Proof. split; reflexivity. Qed.

Lemma quiet_trans a b c : quiet a b -> quiet b c -> quiet a c.
Proof. intros [H1 H2] [K1 K2]. split; congruence. Qed.

Lemma quiet_logging lvl text exc : respects quiet (logging lvl text exc).
Proof. intros w. split; reflexivity. Qed.

Lemma quiet_traced A (m : M trace A) : respects quiet (traced m).
Proof.
  intros w. unfold traced. destruct (m (tr w)) as [r t]. split; reflexivity.
Qed.

Lemma quiet_on_disk A key (m : Disk.method A) : respects quiet (on_disk key m).
Proof.
  intros w. unfold on_disk.
  destruct (dict_get key (disks w)) as [[d|]|]; try apply quiet_refl.
  destruct (m (d, tr w)) as [r [d' t]]. split; reflexivity.
Qed.

Lemma quiet_store key d :
  respects quiet
           (modify (fun w => set_disks (dict_set key (Some d) (disks w)) w)).
Proof. intros w. split; reflexivity. Qed.

(** The notice itself: refused by the encoder, or dropped. *)
Lemma quiet_notice the_id message :
  respects quiet
    (send_msg the_id (u "error_that_can_be_manually_fixed")
              (Some (PDict [(u "message", PStr message);
                            (u "disk", PObject (u "Disk"))]))).
Proof.
  intros w. unfold send_msg, bind, get.
  destruct (existsb (Z.eqb the_id) (clients w)); [|apply quiet_logging].
  cbn. apply quiet_refl.
Qed.

Create HintDb quiet_frame.
#[local] Hint Resolve quiet_logging quiet_traced quiet_on_disk quiet_store
  quiet_notice : quiet_frame.

Ltac quiet_frame :=
  respects_with quiet_refl quiet_trans ltac:(auto with quiet_frame).

Lemma quiet_update_disk_if_needed the_id key :
  respects quiet (update_disk_if_needed the_id key).
Proof. unfold update_disk_if_needed. quiet_frame. Qed.

Lemma quiet_get_disk_to_send py env the_id disk result :
  respects quiet (get_disk_to_send py env the_id disk result).
Proof.
  pose proof quiet_update_disk_if_needed.
  unfold get_disk_to_send. quiet_frame.
Qed.

Lemma quiet_get_disks_loop py env the_id keys : forall result,
  respects quiet (get_disks_loop py env the_id keys result).
Proof.
  induction keys as [|k keys IH]; intros result; simpl.
  - apply respects_ret, quiet_refl.
  - apply (respects_bind quiet_trans);
      [apply quiet_get_disk_to_send | intros r; apply IH].
Qed.

(** The iteration on an ambiguous record, on an open connection. *)
Lemma get_disk_to_send_ambiguous py env the_id key result w d :
  existsb (Z.eqb the_id) (clients w) = true ->
  dict_get key (disks w) = Some (Some d) ->
  ambiguous d ->
  fst (get_disk_to_send py env the_id key result w) = Raise TypeError.
Proof.
  intros Hopen Hd Ha. destruct (ambiguous_raises (tr w) Ha) as [message Hm].
  destruct (@fixable_is_not_delivered the_id key w d message Hd Hm)
    as (_ & Hr & _).
  specialize (Hr Hopen). unfold get_disk_to_send.
  cbv beta iota zeta delta [bind get ret]. rewrite Hd. cbn [is_none negb].
  cbv beta iota. rewrite Hd. cbn [is_none negb]. cbv beta iota.
  destruct (update_disk_if_needed the_id key w) as [[[]|e] w1];
    cbn [fst] in Hr; [discriminate Hr|]. injection Hr as ->. reflexivity.
Qed.

Lemma get_disks_loop_ambiguous py env the_id key d :
  ambiguous d ->
  forall keys result w,
    In key keys ->
    existsb (Z.eqb the_id) (clients w) = true ->
    dict_get key (disks w) = Some (Some d) ->
    exists e, fst (get_disks_loop py env the_id keys result w) = Raise e.
Proof.
  intros Ha. induction keys as [|k keys IH]; intros result w Hin Hopen Hd;
    [destruct Hin|].
  simpl. unfold bind.
  destruct (str_eqb_spec k key) as [->|Hne].
  - pose proof (@get_disk_to_send_ambiguous py env the_id key result w d
                  Hopen Hd Ha) as H.
    destruct (get_disk_to_send py env the_id key result w) as [[r|e] w1];
      cbn [fst] in *; [discriminate | eauto].
  - pose proof (@RegistryFacts.get_disk_to_send_other py env the_id k result
                  w key (not_eq_sym Hne)) as Hother.
    pose proof (@quiet_get_disk_to_send py env the_id k result w) as [_ Hc].
    destruct (get_disk_to_send py env the_id k result w) as [[r|e] w1];
      cbn [fst snd] in *; [|eauto].
    apply IH.
    + destruct Hin as [->|Hin]; [contradiction | exact Hin].
    + rewrite Hc. exact Hopen.
    + rewrite Hother. exact Hd.
Qed.
End NoticeFacts.

(** X25. The notice [error_that_can_be_manually_fixed] is never delivered.
    When [update_if_needed] raises [ErrorThatCanBeManuallyFixed] for a
    tracked disk, [update_disk_if_needed] hands the reactor nothing: on an
    open connection encoding the notice, whose payload holds the [Disk]
    object, raises [TypeError], which leaves [update_disk_if_needed]; on a
    closed one the notice is dropped and the call returns. *)
Theorem manual_fix_notice_is_never_delivered
        (the_id : Z) (key : pystr) (w : world) (d : Disk.t) (message : pystr) :
  dict_get key (disks w) = Some (Some d) ->
  fst (Disk.update_if_needed (d, tr w))
  = Raise (ErrorThatCanBeManuallyFixed message) ->
  let r := CommandRunner.update_disk_if_needed the_id key w in
  sent (snd r) = sent w
  /\ (existsb (Z.eqb the_id) (clients w) = true -> fst r = Raise TypeError)
  /\ (existsb (Z.eqb the_id) (clients w) = false -> fst r = Ok tt).
Proof. apply NoticeFacts.fixable_is_not_delivered. Qed.

(** The inventory knows two codes for the serial of [/dev/sda]. *)
Lemma manual_fix_notice_is_never_delivered_witness :
  let w := Example.state
             [(u "/dev/sda",
               Some (Example.sda_disk (Some Example.two_matches) None))] in
  let r := CommandRunner.update_disk_if_needed 0 (u "/dev/sda") w in
  sent (snd r) = []
  /\ (true = true -> fst r = Raise TypeError)
  /\ (true = false -> fst r = Ok tt).
Proof.
  exact (@manual_fix_notice_is_never_delivered 0 (u "/dev/sda")
           (Example.state
              [(u "/dev/sda",
                Some (Example.sda_disk (Some Example.two_matches) None))])
           (Example.sda_disk (Some Example.two_matches) None)
           (Disk.duplicate_message (u "/dev/sda") [u "AB12"; u "CD34"]
                                   (u "ABC123"))
           eq_refl eq_refl).
Defined.

(** X26. While the inventory knows more than one code for the serial of a
    tracked disk that has no code, [get_disks] on an open connection is
    never answered: [exec_command] raises, and neither a reply nor a
    notice reaches the reactor. *)
Theorem ambiguous_disk_leaves_get_disks_unanswered
        (py : Builtins) (env : Env) (args : pystr) (the_id : Z) (w : world)
        (key : pystr) (d : Disk.t) :
  existsb (Z.eqb the_id) (clients w) = true ->
  dict_get key (disks w) = Some (Some d) ->
  ambiguous d ->
  let r := CommandRunner.exec_command py env (u "get_disks") args the_id w in
  (exists e, fst r = Raise e) /\ sent (snd r) = sent w.
Proof.
  intros Hopen Hd Ha. cbv zeta.
  unfold CommandRunner.exec_command, CommandRunner.dispatch.
  change (str_eqb (u "get_disks") (u "smartctl")) with false.
  rewrite str_eqb_refl. unfold CommandRunner.get_disks_to_send.
  cbv beta iota zeta delta [bind ret get modify CommandRunner.logging].
  fold (received w). change (disks (received w)) with (disks w).
  destruct (@NoticeFacts.get_disks_loop_ambiguous py env the_id key d Ha
              (dict_keys (disks w)) [] (received w)
              (dict_get_in_keys _ _ Hd) Hopen Hd) as [e He].
  pose proof (@NoticeFacts.quiet_get_disks_loop py env the_id
                (dict_keys (disks w)) [] (received w)) as [Hs _].
  destruct (CommandRunner.get_disks_loop py env the_id (dict_keys (disks w))
              [] (received w)) as [[r|e'] w1]; cbn [fst snd] in *;
    [discriminate|].
  split; [eauto | exact Hs].
Qed.

Lemma ambiguous_disk_leaves_get_disks_unanswered_witness :
  let w := Example.state
             [(u "/dev/sda",
               Some (Example.sda_disk (Some Example.two_matches) None))] in
  let r := CommandRunner.exec_command ascii_builtins
             (Example.host (Some Example.two_matches) 0) (u "get_disks") []
             0 w in
  (exists e, fst r = Raise e) /\ sent (snd r) = [].
Proof.
  refine (@ambiguous_disk_leaves_get_disks_unanswered ascii_builtins
            (Example.host (Some Example.two_matches) 0) [] 0
            (Example.state
               [(u "/dev/sda",
                 Some (Example.sda_disk (Some Example.two_matches) None))])
            (u "/dev/sda")
            (Example.sda_disk (Some Example.two_matches) None)
            eq_refl eq_refl _).
  exists Example.two_matches, (u "WD-ABC123"), (u "AB12"), (u "CD34"), [].
  repeat split.
Defined.

(* ------------------------------------------------------------------ *)
(** ** Further consequences *)

(** X27. [smartctl] is not answered either for such a disk: when the tool
    exits zero, with valid UTF-8 on both streams, for a tracked disk that
    has no code and whose serial the inventory knows under more than one,
    [exec_command] raises [TypeError] on an open connection and the
    reactor is handed nothing. *)
Theorem ambiguous_disk_leaves_smartctl_unanswered
        (py : Builtins) (env : Env) (dev : pystr) (the_id : Z) (w : world)
        (out err : bytes) (output stderr : pystr) (d : Disk.t) :
  existsb (Z.eqb the_id) (clients w) = true ->
  smartctl env dev = (out, err, 0%Z) ->
  Utf8.decode out = Some output ->
  Utf8.decode err = Some stderr ->
  dict_get dev (disks w) = Some (Some d) ->
  ambiguous d ->
  let r := CommandRunner.exec_command py env (u "smartctl") dev the_id w in
  fst r = Raise TypeError /\ sent (snd r) = sent w.
Proof.
  intros Hreg Hsm Hout Herr Hd Ha. cbv zeta.
  unfold CommandRunner.exec_command, CommandRunner.dispatch.
  rewrite str_eqb_refl. unfold CommandRunner.get_smartctl.
  cbv beta iota zeta delta [bind ret get modify CommandRunner.logging
                             CommandRunner.traced].
  rewrite SmartctlFacts.tr_set_tr, SmartctlFacts.set_tr_twice.
  fold (smartctl_done dev w). unfold get_smartctl_status.
  rewrite Hsm, Hout, Herr. cbv beta iota. rewrite Z.eqb_refl.
  change (disks (smartctl_done dev w)) with (disks w).
  rewrite (DiskFacts.dict_mem_get _ _ Hd). cbv beta iota.
  destruct (NoticeFacts.ambiguous_raises (tr (smartctl_done dev w)) Ha)
    as [message Hm].
  destruct (@NoticeFacts.fixable_is_not_delivered the_id dev
              (smartctl_done dev w) d message Hd Hm) as (Hs & Hr & _).
  specialize (Hr Hreg).
  destruct (CommandRunner.update_disk_if_needed the_id dev
              (smartctl_done dev w)) as [[[]|e] w1];
    cbn [fst snd] in *; [discriminate Hr|].
  injection Hr as ->. split; [reflexivity | exact Hs].
Qed.

Lemma ambiguous_disk_leaves_smartctl_unanswered_witness :
  let w := Example.state
             [(u "/dev/sda",
               Some (Example.sda_disk (Some Example.two_matches) None))] in
  let r := CommandRunner.exec_command ascii_builtins
             (Example.host (Some Example.two_matches) 0) (u "smartctl")
             (u "/dev/sda") 0 w in
  fst r = Raise TypeError /\ sent (snd r) = [].
Proof.
  refine (@ambiguous_disk_leaves_smartctl_unanswered ascii_builtins
            (Example.host (Some Example.two_matches) 0) (u "/dev/sda") 0
            (Example.state
               [(u "/dev/sda",
                 Some (Example.sda_disk (Some Example.two_matches) None))])
            (Example.ascii "smartctl 7.2") [] (u "smartctl 7.2") []
            (Example.sda_disk (Some Example.two_matches) None)
            eq_refl eq_refl eq_refl eq_refl eq_refl _).
  exists Example.two_matches, (u "WD-ABC123"), (u "AB12"), (u "CD34"), [].
  repeat split.
Defined.

(** X28. The file [get_files] writes is a table: no column name occurs
    twice in the header, [Status] is its last column and occurs nowhere
    else, and every row has exactly one cell per column. *)
Theorem written_file_is_a_table
        (py : Builtins) (h : Pestello.Host) (paths : list pystr)
        (st : Pestello.state) (file : Pestello.csv) (errors : bool)
        (st' : Pestello.state) :
  Pestello.get_files py h paths st = (Ok (file, errors), st') ->
  NoDup (Pestello.header file)
  /\ (exists columns, Pestello.header file = columns ++ [u "Status"]
                      /\ ~ In (u "Status") columns)
  /\ Forall (fun cells => length cells = length (Pestello.header file))
            (Pestello.rows file).
Proof.
  intros H.
  destruct (PestelloFacts.get_files_written _ _ _ _ H) as (_ & Hh & Hr).
  rewrite PestelloFacts.make_header_first_seen in Hh.
  set (columns := Pestello.first_seen _) in Hh.
  assert (~ In (u "Status") columns) as Hn.
  { unfold columns. rewrite PestelloFacts.first_seen_In, filter_In.
    unfold Pestello.not_status. rewrite str_eqb_refl. intros [_ K].
    discriminate K. }
  split; [|split].
  - rewrite Hh. apply LabelFacts.NoDup_snoc;
      [apply PestelloFacts.first_seen_NoDup | exact Hn].
  - exists columns. auto.
  - rewrite Hr. apply Forall_forall. intros cells Hin.
    apply in_map_iff in Hin. destruct Hin as (row & <- & _).
    unfold Pestello.cells_of. apply length_map.
Qed.

Lemma written_file_is_a_table_witness :
  let run := Pestello.get_files ascii_builtins Example.folder
               [u "a.txt"; u "b.txt"]
               (Pestello.start [Pestello.Typed (u "k");
                                Pestello.Typed (u "o")]) in
  exists file st',
    run = (Ok (file, false), st')
    /\ NoDup (Pestello.header file)
    /\ (exists columns, Pestello.header file = columns ++ [u "Status"]
                        /\ ~ In (u "Status") columns)
    /\ Forall (fun cells => length cells = length (Pestello.header file))
              (Pestello.rows file).
Proof.
  cbv zeta.
  set (run := Pestello.get_files _ _ _ _).
  assert (run = (Ok (match fst run with
                     | Ok p => fst p
                     | Raise _ => {| Pestello.header := []; Pestello.rows := [] |}
                     end, false),
                 snd run)) as E by (vm_compute; reflexivity).
  do 2 eexists. split; [exact E|].
  exact (@written_file_is_a_table _ _ _ _ _ _ _ E).
Defined.
